(** * ObsidianNotability: the drawing tools of the Nota plugin (tools.ts)

    A shallow embedding of the stroke-capture and shape-recognition engine
    (class [DrawingTools]): geometry utilities, corner detector, shape
    classifier, hold-to-snap state machine, live resizer, eraser hit test and
    lasso selector, followed by the properties of the design document that
    are checked against it.

    Numbers.  A JavaScript number is an IEEE binary64 value.  Coordinates,
    lengths and angles are idealised as real numbers ([R]): comparisons,
    [Math.sqrt], [Math.atan2], [Math.min]/[Math.max] are the exact ones, and
    the places where the source can produce [NaN] or [Infinity] (a division
    by zero, a read past the end of an array) are written out as cases.
    Opacity, whose only arithmetic is a multiplication and a division by 0.8,
    is kept as a binary64 value ([float]) so that it is computed bit for bit
    as the runtime does.  Where a property is decided by a comparison at the
    very boundary the rounding decides the answer: the eraser's hit test and
    the classifier are therefore given a second time over binary64 values
    (module [Binary64]), and the properties that state such a boundary are
    proved of that version. *)

From Stdlib Require Import Floats String.
From Stdlib Require Import Reals Lra Lia List Bool Arith PeanoNat.
Import ListNotations.

Set Warnings "-inexact-float".
Open Scope R_scope.

(** ** Comparisons on numbers *)

Definition Rltb (a b : R) : bool := if Rlt_dec a b then true else false.
Definition Rleb (a b : R) : bool := if Rle_dec a b then true else false.
Definition Rgtb (a b : R) : bool := Rltb b a.
Definition Reqb (a b : R) : bool := if Req_dec_T a b then true else false.

(** ** Points and flattened point arrays *)

(** [{ x: number; y: number }] *)
Record Point : Type := mkPoint { x : R; y : R }.

(** [Math.min(...l)] and [Math.max(...l)].  On an empty array JavaScript
    answers [Infinity] and [-Infinity]; every caller below has checked that
    the array holds a point before it asks, so that case is given 0. *)
Definition list_min (l : list R) : R :=
  match l with
  | [] => 0
  | a :: t => fold_left Rmin t a
  end.

Definition list_max (l : list R) : R :=
  match l with
  | [] => 0
  | a :: t => fold_left Rmax t a
  end.

(** [for (i = 0; i < points.length; i += 2) { xs.push(points[i]); ys.push(points[i + 1]); }]
    A stroke always holds whole pairs (every write appends [pos.x, pos.y]);
    on an array of odd length the last [ys] entry would be [undefined], which
    is left out here. *)
Fixpoint xs_of (points : list R) : list R :=
  match points with
  | [] => []
  | [px] => [px]
  | px :: _ :: rest => px :: xs_of rest
  end.

Fixpoint ys_of (points : list R) : list R :=
  match points with
  | _ :: py :: rest => py :: ys_of rest
  | _ => []
  end.

(** ** Geometry utilities *)

(** [Math.atan2(y, x)] on finite arguments (signed zeros are not told apart). *)
Definition atan2 (y x : R) : R :=
  if Rltb 0 x then atan (y / x)
  else if Rltb x 0 then
    (if Rleb 0 y then atan (y / x) + PI else atan (y / x) - PI)
  else if Rltb 0 y then PI / 2
  else if Rltb y 0 then - (PI / 2)
  else 0.

Definition getAngle (p1 p2 p3 : Point) : R :=
  let a := atan2 (y p1 - y p2) (x p1 - x p2) in
  let b := atan2 (y p3 - y p2) (x p3 - x p2) in
  Rabs (a - b) * (180 / PI).

Definition pointToSegmentDistance (px py x1 y1 x2 y2 : R) : R :=
  let dx := x2 - x1 in
  let dy := y2 - y1 in
  let lengthSquared := dx * dx + dy * dy in
  if Reqb lengthSquared 0 then
    sqrt ((px - x1) * (px - x1) + (py - y1) * (py - y1))
  else
    let t := ((px - x1) * dx + (py - y1) * dy) / lengthSquared in
    let t := Rmax 0 (Rmin 1 t) in
    let nearestX := x1 + t * dx in
    let nearestY := y1 + t * dy in
    sqrt ((px - nearestX) * (px - nearestX) + (py - nearestY) * (py - nearestY)).

(** ** Corner detector *)

Record Candidate : Type := mkCandidate { point : Point; angle : R }.

(** The candidate loop of [findSignificantCorners]:
    [for (let i = step * 2; i < points.length - step * 2 - 1; i += 2)].
    [fuel] bounds the number of iterations; [length points] is enough, since
    [i] grows by 2 and stays below the length.  The subtraction is the
    truncated one of [nat]: where JavaScript's bound is negative the loop
    does not run in either reading.  Every index read is inside the array. *)
Fixpoint candidates_from (fuel : nat) (points : list R) (step i : nat)
  : list Candidate :=
  match fuel with
  | O => []
  | S fuel' =>
      if (i <? length points - step * 2 - 1)%nat then
        let prevIdx := Nat.max 0 (i - step * 2) in
        let nextIdx := Nat.min (length points - 2) (i + step * 2) in
        let prev := mkPoint (nth prevIdx points 0) (nth (prevIdx + 1) points 0) in
        let curr := mkPoint (nth i points 0) (nth (i + 1) points 0) in
        let next := mkPoint (nth nextIdx points 0) (nth (nextIdx + 1) points 0) in
        let angle := getAngle prev curr next in
        let angleThreshold := 25 in
        (if Rltb angle (180 - angleThreshold) && Rgtb angle 15
         then [mkCandidate curr angle] else [])
        ++ candidates_from fuel' points step (i + 2)
      else []
  end.

(** [candidates.sort((a, b) => a.angle - b.angle)]: a stable sort by
    increasing angle, written as the stable insertion sort. *)
Fixpoint insert_by_angle (c : Candidate) (sorted : list Candidate) : list Candidate :=
  match sorted with
  | [] => [c]
  | d :: rest =>
      if Rltb (angle d) (angle c) then d :: insert_by_angle c rest
      else c :: d :: rest
  end.

Definition sort_by_angle (l : list Candidate) : list Candidate :=
  fold_right insert_by_angle [] l.

(** The inner loop: is some accepted corner closer than [minDistance]? *)
Definition tooClose (minDistance : R) (corners : list Point) (p : Point) : bool :=
  existsb
    (fun corner =>
       Rltb (sqrt ((x p - x corner) ^ 2 + (y p - y corner) ^ 2)) minDistance)
    corners.

Definition pick_corners (minDistance : R) (candidates : list Candidate) : list Point :=
  fold_left
    (fun corners candidate =>
       if tooClose minDistance corners (point candidate) then corners
       else corners ++ [point candidate])
    candidates [].

Definition findSignificantCorners (points : list R) (width height : R) : list Point :=
  let minDistance := Rmin width height * 0.15 in
  if (length points <? 12)%nat then []
  else
    let step := Nat.max 4 (length points / 40) in
    let candidates := candidates_from (length points) points step (step * 2) in
    pick_corners minDistance (sort_by_angle candidates).

(** ** Shape classifier *)

Inductive ShapeType : Type := Circle | Oval | Rectangle | Triangle | Line.

Definition strokeWidthOf (points : list R) : R :=
  list_max (xs_of points) - list_min (xs_of points).

Definition strokeHeightOf (points : list R) : R :=
  list_max (ys_of points) - list_min (ys_of points).

Definition analyzeStrokeForShape (points : list R) : option ShapeType :=
  if (length points <? 4)%nat then None
  else
    let xs := xs_of points in
    let ys := ys_of points in
    let width := strokeWidthOf points in
    let height := strokeHeightOf points in
    if Rgtb width (height * 3.5) || Rgtb height (width * 3.5) then Some Line
    else
      let corners := findSignificantCorners points width height in
      if (length corners =? 3)%nat then Some Triangle
      else if (4 <=? length corners)%nat then Some Rectangle
      else if (length corners =? 2)%nat
              && (let startX := nth 0 xs 0 in
                  let startY := nth 0 ys 0 in
                  let endX := nth (length xs - 1) xs 0 in
                  let endY := nth (length ys - 1) ys 0 in
                  let closedThreshold := Rmax width height * 0.25 in
                  Rltb (sqrt ((endX - startX) ^ 2 + (endY - startY) ^ 2)) closedThreshold)
      then Some Triangle
      else
        (* aspectRatio = Math.max(width, height) / Math.min(width, height);
           with a zero divisor it is Infinity or NaN and [aspectRatio < 1.3]
           is false. *)
        if Reqb (Rmin width height) 0 then Some Oval
        else if Rltb (Rmax width height / Rmin width height) 1.3 then Some Circle
        else Some Oval.


(** ** The scene: Konva nodes on a layer *)

(** The geometry attributes of the node classes the tools create.
    [Konva.Line] holds a flattened point array; the others are placed by
    the node's [x], [y]. *)
Inductive Geometry : Type :=
| GLine (points : list R) (closed : bool)
| GCircle (radius : R)
| GEllipse (radiusX radiusY : R)
| GRect (width height : R)
| GText (content : string).

(** A node with the attributes the tools read or write ([name()], [x()],
    [y()], [stroke()], [strokeWidth()], [opacity()]); line caps, joins,
    dashes and tension only affect rendering and are left out. *)
Record Node : Type := mkNode {
  nodeName : string;
  nodeX : R;
  nodeY : R;
  nodeStroke : string;
  nodeStrokeWidth : R;
  nodeOpacity : float;
  nodeGeometry : Geometry
}.

Definition set_nodeX (v : R) (n : Node) : Node :=
  mkNode (nodeName n) v (nodeY n) (nodeStroke n) (nodeStrokeWidth n)
    (nodeOpacity n) (nodeGeometry n).

Definition set_nodeY (v : R) (n : Node) : Node :=
  mkNode (nodeName n) (nodeX n) v (nodeStroke n) (nodeStrokeWidth n)
    (nodeOpacity n) (nodeGeometry n).

Definition set_nodeStroke (v : string) (n : Node) : Node :=
  mkNode (nodeName n) (nodeX n) (nodeY n) v (nodeStrokeWidth n)
    (nodeOpacity n) (nodeGeometry n).

Definition set_nodeOpacity (v : float) (n : Node) : Node :=
  mkNode (nodeName n) (nodeX n) (nodeY n) (nodeStroke n) (nodeStrokeWidth n)
    v (nodeGeometry n).

Definition set_nodeGeometry (v : Geometry) (n : Node) : Node :=
  mkNode (nodeName n) (nodeX n) (nodeY n) (nodeStroke n) (nodeStrokeWidth n)
    (nodeOpacity n) v.

(** [line.points()]; a node that is not a line has none. *)
Definition nodePoints (n : Node) : list R :=
  match nodeGeometry n with
  | GLine points _ => points
  | _ => []
  end.

(** [line.points(newPoints)] *)
Definition set_nodePoints (newPoints : list R) (n : Node) : Node :=
  match nodeGeometry n with
  | GLine _ closed => set_nodeGeometry (GLine newPoints closed) n
  | _ => n
  end.

(** Object identity: two fields may hold the same node, and a node on the
    layer is the object a field refers to. *)
Definition NodeRef : Type := nat.
Definition TimerId : Type := positive.
Definition FrameId : Type := positive.

(** [layer.getChildren()], in drawing order.  A node lives on the layer
    from [layer.add] to [destroy]; writing to a destroyed node changes
    nothing that can be seen. *)
Definition Layer : Type := list (NodeRef * Node).

Definition layer_get (r : NodeRef) (l : Layer) : option Node :=
  option_map snd (find (fun c => (fst c =? r)%nat) l).

Definition layer_add (r : NodeRef) (n : Node) (l : Layer) : Layer :=
  l ++ [(r, n)].

Definition layer_destroy (r : NodeRef) (l : Layer) : Layer :=
  filter (fun c => negb (fst c =? r)%nat) l.

Definition layer_update (r : NodeRef) (f : Node -> Node) (l : Layer) : Layer :=
  map (fun c => if (fst c =? r)%nat then (fst c, f (snd c)) else c) l.

(** ** Settings and tool state *)

Inductive ToolType : Type := Hand | Pen | Highlighter | Eraser | Text | Select.

(** [PenSettings] and [HighlighterSettings] have the same fields. *)
Record StrokeSettings : Type := mkStrokeSettings {
  color : string;
  thickness : R;
  opacity : float
}.

Record EraserSettings : Type := mkEraserSettings { eraserThickness : R }.

Record TextSettings : Type := mkTextSettings {
  fontSize : R;
  fontFamily : string;
  textColor : string
}.

Record ToolSettings : Type := mkToolSettings {
  pen : StrokeSettings;
  highlighter : StrokeSettings;
  eraser : EraserSettings;
  text : TextSettings
}.

(** [{ minX, minY, maxX, maxY }] *)
Record Bounds : Type := mkBounds { minX : R; minY : R; maxX : R; maxY : R }.

(** Shape hold detection: the transient state of one hold gesture. *)
Record HoldState : Type := mkHoldState {
  lastMovePos : option Point;
  lastMoveTime : nat;
  shapeHoldTimer : option TimerId;
  isInShapeMode : bool;
  detectedShapeType : option ShapeType;
  shapeAnchor : option Point;
  shapeBounds : option Bounds
}.

Definition set_lastMovePos (v : option Point) (h : HoldState) : HoldState :=
  mkHoldState v (lastMoveTime h) (shapeHoldTimer h) (isInShapeMode h)
    (detectedShapeType h) (shapeAnchor h) (shapeBounds h).

Definition set_lastMoveTime (v : nat) (h : HoldState) : HoldState :=
  mkHoldState (lastMovePos h) v (shapeHoldTimer h) (isInShapeMode h)
    (detectedShapeType h) (shapeAnchor h) (shapeBounds h).

Definition set_shapeHoldTimer (v : option TimerId) (h : HoldState) : HoldState :=
  mkHoldState (lastMovePos h) (lastMoveTime h) v (isInShapeMode h)
    (detectedShapeType h) (shapeAnchor h) (shapeBounds h).

Definition set_isInShapeMode (v : bool) (h : HoldState) : HoldState :=
  mkHoldState (lastMovePos h) (lastMoveTime h) (shapeHoldTimer h) v
    (detectedShapeType h) (shapeAnchor h) (shapeBounds h).

Definition set_detectedShapeType (v : option ShapeType) (h : HoldState) : HoldState :=
  mkHoldState (lastMovePos h) (lastMoveTime h) (shapeHoldTimer h)
    (isInShapeMode h) v (shapeAnchor h) (shapeBounds h).

Definition set_shapeAnchor (v : option Point) (h : HoldState) : HoldState :=
  mkHoldState (lastMovePos h) (lastMoveTime h) (shapeHoldTimer h)
    (isInShapeMode h) (detectedShapeType h) v (shapeBounds h).

Definition set_shapeBounds (v : option Bounds) (h : HoldState) : HoldState :=
  mkHoldState (lastMovePos h) (lastMoveTime h) (shapeHoldTimer h)
    (isInShapeMode h) (detectedShapeType h) (shapeAnchor h) v.

(** The eraser's fields. *)
Record EraserSession : Type := mkEraserSession {
  lastEraserPos : option Point;
  eraserTrail : option NodeRef;
  markedForDeletion : list NodeRef;
  originalOpacities : list (NodeRef * float)
}.

Definition set_lastEraserPos (v : option Point) (e : EraserSession) : EraserSession :=
  mkEraserSession v (eraserTrail e) (markedForDeletion e) (originalOpacities
    e).

Definition set_eraserTrail (v : option NodeRef) (e : EraserSession) : EraserSession :=
  mkEraserSession (lastEraserPos e) v (markedForDeletion e) (originalOpacities
    e).

Definition set_markedForDeletion (v : list NodeRef) (e : EraserSession) : EraserSession :=
  mkEraserSession (lastEraserPos e) (eraserTrail e) v (originalOpacities e).

Definition set_originalOpacities (v : list (NodeRef * float)) (e : EraserSession) : EraserSession :=
  mkEraserSession (lastEraserPos e) (eraserTrail e) (markedForDeletion e) v.

(** Lasso selection state. *)
Record LassoState : Type := mkLassoState {
  lassoLine : option NodeRef;
  lassoPoints : list R;
  selectedShapes : list NodeRef;
  isDraggingSelection : bool;
  dragStartPos : option Point;
  lassoPath : option NodeRef;
  marchingAntsAnimationId : option FrameId;
  selectionCenter : Point
}.

Definition set_lassoLine (v : option NodeRef) (l : LassoState) : LassoState :=
  mkLassoState v (lassoPoints l) (selectedShapes l) (isDraggingSelection l)
    (dragStartPos l) (lassoPath l) (marchingAntsAnimationId l)
    (selectionCenter l).

Definition set_lassoPoints (v : list R) (l : LassoState) : LassoState :=
  mkLassoState (lassoLine l) v (selectedShapes l) (isDraggingSelection l)
    (dragStartPos l) (lassoPath l) (marchingAntsAnimationId l)
    (selectionCenter l).

Definition set_selectedShapes (v : list NodeRef) (l : LassoState) : LassoState :=
  mkLassoState (lassoLine l) (lassoPoints l) v (isDraggingSelection l)
    (dragStartPos l) (lassoPath l) (marchingAntsAnimationId l)
    (selectionCenter l).

Definition set_isDraggingSelection (v : bool) (l : LassoState) : LassoState :=
  mkLassoState (lassoLine l) (lassoPoints l) (selectedShapes l) v
    (dragStartPos l) (lassoPath l) (marchingAntsAnimationId l)
    (selectionCenter l).

Definition set_dragStartPos (v : option Point) (l : LassoState) : LassoState :=
  mkLassoState (lassoLine l) (lassoPoints l) (selectedShapes l)
    (isDraggingSelection l) v (lassoPath l) (marchingAntsAnimationId l)
    (selectionCenter l).

Definition set_lassoPath (v : option NodeRef) (l : LassoState) : LassoState :=
  mkLassoState (lassoLine l) (lassoPoints l) (selectedShapes l)
    (isDraggingSelection l) (dragStartPos l) v (marchingAntsAnimationId l)
    (selectionCenter l).

Definition set_marchingAntsAnimationId (v : option FrameId) (l : LassoState) : LassoState :=
  mkLassoState (lassoLine l) (lassoPoints l) (selectedShapes l)
    (isDraggingSelection l) (dragStartPos l) (lassoPath l) v (selectionCenter
    l).

Definition set_selectionCenter (v : Point) (l : LassoState) : LassoState :=
  mkLassoState (lassoLine l) (lassoPoints l) (selectedShapes l)
    (isDraggingSelection l) (dragStartPos l) (lassoPath l)
    (marchingAntsAnimationId l) v.

(** What the runtime keeps for the object: the next fresh object, timer and
    animation-frame identities, the timeouts that are armed and have neither
    fired nor been cleared, and the number of [onContentChange] notifications
    sent. *)
Record Host : Type := mkHost {
  nextRef : NodeRef;
  nextTimer : TimerId;
  pendingTimers : list TimerId;
  nextFrame : FrameId;
  contentChanges : nat
}.

Definition set_nextRef (v : NodeRef) (h : Host) : Host :=
  mkHost v (nextTimer h) (pendingTimers h) (nextFrame h) (contentChanges h).

Definition set_nextTimer (v : TimerId) (h : Host) : Host :=
  mkHost (nextRef h) v (pendingTimers h) (nextFrame h) (contentChanges h).

Definition set_pendingTimers (v : list TimerId) (h : Host) : Host :=
  mkHost (nextRef h) (nextTimer h) v (nextFrame h) (contentChanges h).

Definition set_nextFrame (v : FrameId) (h : Host) : Host :=
  mkHost (nextRef h) (nextTimer h) (pendingTimers h) v (contentChanges h).

Definition set_contentChanges (v : nat) (h : Host) : Host :=
  mkHost (nextRef h) (nextTimer h) (pendingTimers h) (nextFrame h) v.

(** The fields of [class DrawingTools]. *)
Record DrawingTools : Type := mkDrawingTools {
  layer : Layer;
  settings : ToolSettings;
  currentTool : ToolType;
  isDrawing : bool;
  currentLine : option NodeRef;
  currentShape : option NodeRef;
  shapeStartTime : nat;
  shapeStartPoints : list R;
  hold : HoldState;
  eraserSession : EraserSession;
  lasso : LassoState;
  host : Host
}.

Definition set_layer (v : Layer) (d : DrawingTools) : DrawingTools :=
  mkDrawingTools v (settings d) (currentTool d) (isDrawing d) (currentLine d)
    (currentShape d) (shapeStartTime d) (shapeStartPoints d) (hold d)
    (eraserSession d) (lasso d) (host d).

Definition set_settings (v : ToolSettings) (d : DrawingTools) : DrawingTools :=
  mkDrawingTools (layer d) v (currentTool d) (isDrawing d) (currentLine d)
    (currentShape d) (shapeStartTime d) (shapeStartPoints d) (hold d)
    (eraserSession d) (lasso d) (host d).

Definition set_currentTool (v : ToolType) (d : DrawingTools) : DrawingTools :=
  mkDrawingTools (layer d) (settings d) v (isDrawing d) (currentLine d)
    (currentShape d) (shapeStartTime d) (shapeStartPoints d) (hold d)
    (eraserSession d) (lasso d) (host d).

Definition set_isDrawing (v : bool) (d : DrawingTools) : DrawingTools :=
  mkDrawingTools (layer d) (settings d) (currentTool d) v (currentLine d)
    (currentShape d) (shapeStartTime d) (shapeStartPoints d) (hold d)
    (eraserSession d) (lasso d) (host d).

Definition set_currentLine (v : option NodeRef) (d : DrawingTools) : DrawingTools :=
  mkDrawingTools (layer d) (settings d) (currentTool d) (isDrawing d) v
    (currentShape d) (shapeStartTime d) (shapeStartPoints d) (hold d)
    (eraserSession d) (lasso d) (host d).

Definition set_currentShape (v : option NodeRef) (d : DrawingTools) : DrawingTools :=
  mkDrawingTools (layer d) (settings d) (currentTool d) (isDrawing d)
    (currentLine d) v (shapeStartTime d) (shapeStartPoints d) (hold d)
    (eraserSession d) (lasso d) (host d).

Definition set_shapeStartTime (v : nat) (d : DrawingTools) : DrawingTools :=
  mkDrawingTools (layer d) (settings d) (currentTool d) (isDrawing d)
    (currentLine d) (currentShape d) v (shapeStartPoints d) (hold d)
    (eraserSession d) (lasso d) (host d).

Definition set_shapeStartPoints (v : list R) (d : DrawingTools) : DrawingTools :=
  mkDrawingTools (layer d) (settings d) (currentTool d) (isDrawing d)
    (currentLine d) (currentShape d) (shapeStartTime d) v (hold d)
    (eraserSession d) (lasso d) (host d).

Definition set_hold (v : HoldState) (d : DrawingTools) : DrawingTools :=
  mkDrawingTools (layer d) (settings d) (currentTool d) (isDrawing d)
    (currentLine d) (currentShape d) (shapeStartTime d) (shapeStartPoints d) v
    (eraserSession d) (lasso d) (host d).

Definition set_eraserSession (v : EraserSession) (d : DrawingTools) : DrawingTools :=
  mkDrawingTools (layer d) (settings d) (currentTool d) (isDrawing d)
    (currentLine d) (currentShape d) (shapeStartTime d) (shapeStartPoints d)
    (hold d) v (lasso d) (host d).

Definition set_lasso (v : LassoState) (d : DrawingTools) : DrawingTools :=
  mkDrawingTools (layer d) (settings d) (currentTool d) (isDrawing d)
    (currentLine d) (currentShape d) (shapeStartTime d) (shapeStartPoints d)
    (hold d) (eraserSession d) v (host d).

Definition set_host (v : Host) (d : DrawingTools) : DrawingTools :=
  mkDrawingTools (layer d) (settings d) (currentTool d) (isDrawing d)
    (currentLine d) (currentShape d) (shapeStartTime d) (shapeStartPoints d)
    (hold d) (eraserSession d) (lasso d) v.

Definition on_hold (f : HoldState -> HoldState) (d : DrawingTools) : DrawingTools :=
  set_hold (f (hold d)) d.

Definition on_eraser (f : EraserSession -> EraserSession) (d : DrawingTools) : DrawingTools :=
  set_eraserSession (f (eraserSession d)) d.

Definition on_lasso (f : LassoState -> LassoState) (d : DrawingTools) : DrawingTools :=
  set_lasso (f (lasso d)) d.

Definition on_host (f : Host -> Host) (d : DrawingTools) : DrawingTools :=
  set_host (f (host d)) d.

Definition on_layer (f : Layer -> Layer) (d : DrawingTools) : DrawingTools :=
  set_layer (f (layer d)) d.

(** ** The runtime: pointer position, timers, notifications *)

(** What a handler reads from its [stage] argument. *)
Record Stage : Type := mkStage {
  pointerPosition : option Point;   (* stage.getPointerPosition() *)
  scaleX : R                        (* stage.scaleX() *)
}.

Definition getScaledPointerPosition (stage : Stage) : option Point :=
  match pointerPosition stage with
  | None => None
  | Some pos =>
      let scale := scaleX stage in
      Some (mkPoint (x pos / scale) (y pos / scale))
  end.

(** [setTimeout(() => this.triggerShapeDetection(), 1000)]: a fresh handle,
    now pending. *)
Definition setTimeout (d : DrawingTools) : TimerId * DrawingTools :=
  let t := nextTimer (host d) in
  (t, on_host (fun h => set_pendingTimers (t :: pendingTimers h)
                          (set_nextTimer (Pos.succ t) h)) d).

(** [clearTimeout(t)] *)
Definition clearTimeout (t : TimerId) (d : DrawingTools) : DrawingTools :=
  on_host (fun h => set_pendingTimers
                      (filter (fun u => negb (Pos.eqb u t)) (pendingTimers h)) h) d.

(** [this.onContentChange()] *)
Definition onContentChange (d : DrawingTools) : DrawingTools :=
  on_host (fun h => set_contentChanges (S (contentChanges h)) h) d.

(** [new Konva.X({...})] followed by [this.layer.add(...)]: the node gets a
    fresh identity and becomes the last child. *)
Definition addNode (n : Node) (d : DrawingTools) : NodeRef * DrawingTools :=
  let r := nextRef (host d) in
  (r, on_layer (layer_add r n) (on_host (set_nextRef (S r)) d)).

(** [v || dflt] where [v] is an array read: [undefined] (an index outside
    the array) and 0 are falsy. *)
Definition read_or (v : option R) (dflt : R) : R :=
  match v with
  | Some a => if Reqb a 0 then dflt else a
  | None => dflt
  end.

(** [arr[i]] for an index that may be negative. *)
Definition js_index (arr : list R) (i : Z) : option R :=
  if (i <? 0)%Z then None else nth_error arr (Z.to_nat i).

(** ** Pen and highlighter: drawing, hold detection, snapping *)

Definition startDrawing (pos : Point) (now : nat) (d : DrawingTools) : DrawingTools :=
  let isPen := match currentTool d with Pen => true | _ => false end in
  let settings := if isPen then pen (settings d) else highlighter (settings d) in
  let '(r, d) :=
    addNode (mkNode "stroke" 0 0 (color settings) (thickness settings)
               (opacity settings) (GLine [x pos; y pos] false)) d in
  let d := set_currentLine (Some r) d in
  let d := set_shapeStartTime now d in
  set_shapeStartPoints [x pos; y pos] d.

Definition continueDrawing (pos : Point) (d : DrawingTools) : DrawingTools :=
  match currentLine d with
  | None => d
  | Some l =>
      on_layer
        (layer_update l (fun n => set_nodePoints (nodePoints n ++ [x pos; y pos]) n)) d
  end.

Definition checkForShapeHold (pos : Point) (now : nat) (d : DrawingTools) : DrawingTools :=
  let moveThreshold := 5 in
  let d :=
    match lastMovePos (hold d) with
    | Some last =>
        let dx := x pos - x last in
        let dy := y pos - y last in
        let distance := sqrt (dx * dx + dy * dy) in
        if Rgtb distance moveThreshold then
          (* User moved significantly, reset the timer *)
          let d := on_hold (set_lastMoveTime now) d in
          match shapeHoldTimer (hold d) with
          | Some t => on_hold (set_shapeHoldTimer None) (clearTimeout t d)
          | None => d
          end
        else d
    | None => on_hold (set_lastMoveTime now) d
    end in
  let d := on_hold (set_lastMovePos (Some pos)) d in
  (* Start hold timer if not already running *)
  match shapeHoldTimer (hold d), currentLine d with
  | None, Some _ =>
      let '(t, d) := setTimeout d in
      on_hold (set_shapeHoldTimer (Some t)) d
  | _, _ => d
  end.

(** A detected shape is drawn with the pen's colour and thickness, at the
    default opacity 1. *)
Definition detectedNode (d : DrawingTools) (nx ny : R) (g : Geometry) : Node :=
  mkNode "stroke" nx ny (color (pen (settings d))) (thickness (pen (settings d)))
    1%float g.

Definition createDetectedShape (d : DrawingTools) : DrawingTools :=
  match shapeBounds (hold d), detectedShapeType (hold d) with
  | Some b, Some shapeType =>
      let width := maxX b - minX b in
      let height := maxY b - minY b in
      let centerX := (minX b + maxX b) / 2 in
      let centerY := (minY b + maxY b) / 2 in
      (* every case of the switch assigns [this.currentShape], so the final
         [if (this.currentShape) this.layer.add(this.currentShape)] adds it *)
      match shapeType with
      | Circle =>
          let radius := Rmin width height / 2 in
          let '(r, d) := addNode (detectedNode d centerX centerY (GCircle radius)) d in
          set_currentShape (Some r) d
      | Oval =>
          let '(r, d) :=
            addNode (detectedNode d centerX centerY (GEllipse (width / 2) (height / 2))) d in
          set_currentShape (Some r) d
      | Rectangle =>
          let '(r, d) := addNode (detectedNode d (minX b) (minY b) (GRect width height)) d in
          set_currentShape (Some r) d
      | Triangle =>
          let '(r, d) :=
            addNode
              (detectedNode d 0 0
                 (GLine [centerX; minY b; minX b; maxY b; maxX b; maxY b; centerX; minY b]
                    true)) d in
          set_currentShape (Some r) d
      | Line =>
          (* const points = this.currentLine?.points() || []; *)
          let points :=
            match currentLine d with
            | Some l =>
                match layer_get l (layer d) with
                | Some n => nodePoints n
                | None => []
                end
            | None => []
            end in
          let startX := read_or (js_index points 0) (minX b) in
          let startY := read_or (js_index points 1) (minY b) in
          let endX := read_or (js_index points (Z.of_nat (length points) - 2)) (maxX b) in
          let endY := read_or (js_index points (Z.of_nat (length points) - 1)) (maxY b) in
          let '(r, d) :=
            addNode (detectedNode d 0 0 (GLine [startX; startY; endX; endY] false)) d in
          let d := set_currentShape (Some r) d in
          (* For line, use start point as anchor *)
          on_hold (set_shapeAnchor (Some (mkPoint startX startY))) d
      end
  | _, _ => d
  end.

Definition triggerShapeDetection (d : DrawingTools) : DrawingTools :=
  match currentLine d with
  | None => d
  | Some l =>
      if isInShapeMode (hold d) then d
      else
        let points :=
          match layer_get l (layer d) with
          | Some n => nodePoints n
          | None => []
          end in
        if (length points <? 6)%nat then d   (* Need at least 3 points *)
        else
          match analyzeStrokeForShape points with
          | None => d
          | Some shapeType =>
              let d := on_hold (set_detectedShapeType (Some shapeType)) d in
              let d := on_hold (set_isInShapeMode true) d in
              let xs := xs_of points in
              let ys := ys_of points in
              let bounds :=
                mkBounds (list_min xs) (list_min ys) (list_max xs) (list_max ys) in
              let d := on_hold (set_shapeBounds (Some bounds)) d in
              (* Use the center of the bounds as anchor for resizing *)
              let d :=
                on_hold
                  (set_shapeAnchor
                     (Some (mkPoint ((minX bounds + maxX bounds) / 2)
                                    ((minY bounds + maxY bounds) / 2)))) d in
              (* Remove the stroke and create the shape *)
              let d := on_layer (layer_destroy l) d in
              let d := set_currentLine None d in
              createDetectedShape d
          end
  end.

(** Attribute setters of the shape classes; on a node of another class the
    attribute has no geometric meaning and the node is left as it is. *)
Definition set_radius (v : R) (n : Node) : Node :=
  match nodeGeometry n with
  | GCircle _ => set_nodeGeometry (GCircle v) n
  | _ => n
  end.

Definition set_radiusX (v : R) (n : Node) : Node :=
  match nodeGeometry n with
  | GEllipse _ ry => set_nodeGeometry (GEllipse v ry) n
  | _ => n
  end.

Definition set_radiusY (v : R) (n : Node) : Node :=
  match nodeGeometry n with
  | GEllipse rx _ => set_nodeGeometry (GEllipse rx v) n
  | _ => n
  end.

Definition set_width (v : R) (n : Node) : Node :=
  match nodeGeometry n with
  | GRect _ h => set_nodeGeometry (GRect v h) n
  | _ => n
  end.

Definition set_height (v : R) (n : Node) : Node :=
  match nodeGeometry n with
  | GRect w _ => set_nodeGeometry (GRect w v) n
  | _ => n
  end.

Definition resizeShape (pos : Point) (d : DrawingTools) : DrawingTools :=
  match currentShape d, shapeAnchor (hold d) with
  | Some shape, Some anchor =>
      let dx := x pos - x anchor in
      let dy := y pos - y anchor in
      match detectedShapeType (hold d) with
      | Some Circle =>
          let radius := sqrt (dx * dx + dy * dy) in
          on_layer (layer_update shape (set_radius (Rmax 5 radius))) d
      | Some Oval =>
          on_layer
            (layer_update shape
               (fun ellipse =>
                  set_radiusY (Rmax 5 (Rabs dy)) (set_radiusX (Rmax 5 (Rabs dx)) ellipse))) d
      | Some Rectangle =>
          let newX := if Rltb dx 0 then x pos else x anchor - Rabs dx in
          let newY := if Rltb dy 0 then y pos else y anchor - Rabs dy in
          on_layer
            (layer_update shape
               (fun rect =>
                  set_height (Rabs dy * 2)
                    (set_width (Rabs dx * 2) (set_nodeY newY (set_nodeX newX rect))))) d
      | Some Triangle =>
          let triWidth := Rabs dx * 2 in
          let triHeight := Rabs dy * 2 in
          let topY := y anchor - triHeight / 2 in
          let bottomY := y anchor + triHeight / 2 in
          let leftX := x anchor - triWidth / 2 in
          let rightX := x anchor + triWidth / 2 in
          on_layer
            (layer_update shape
               (set_nodePoints
                  [x anchor; topY; leftX; bottomY; rightX; bottomY; x anchor; topY])) d
      | Some Line =>
          on_layer
            (layer_update shape (set_nodePoints [x anchor; y anchor; x pos; y pos])) d
      | None => d
      end
  | _, _ => d
  end.

Definition finishShapeMode (d : DrawingTools) : DrawingTools :=
  (* Shape is already on the layer, just clean up *)
  set_currentShape None d.

Definition finishDrawing (d : DrawingTools) : DrawingTools :=
  (* Drawing is complete, line is already on layer *)
  d.

(** ** Eraser *)

(** [for (let i = 0; i < points.length - 2; i += 2)] over the segments
    [(points[i], points[i+1]) - (points[i+2], points[i+3])]; the loop ends
    where no further whole segment is left. *)
Fixpoint segmentsTouch (points : list R) (px py threshold : R) : bool :=
  match points with
  | x1 :: y1 :: rest =>
      match rest with
      | x2 :: y2 :: _ =>
          if Rleb (pointToSegmentDistance px py x1 y1 x2 y2) threshold then true
          else segmentsTouch rest px py threshold
      | _ => false
      end
  | _ => false
  end.

Definition lineIntersectsEraser (line : Node) (eraserPos : Point) (radius : R) : bool :=
  segmentsTouch (nodePoints line) (x eraserPos) (y eraserPos)
    (radius + nodeStrokeWidth line / 2).

Definition circleIntersectsEraser (circle : Node) (eraserPos : Point) (eraserRadius : R)
  : bool :=
  match nodeGeometry circle with
  | GCircle r =>
      let cx := nodeX circle in
      let cy := nodeY circle in
      let strokeWidth := nodeStrokeWidth circle / 2 in
      let dist := sqrt ((x eraserPos - cx) ^ 2 + (y eraserPos - cy) ^ 2) in
      Rleb (Rabs (dist - r)) (eraserRadius + strokeWidth)
  | _ => false
  end.

(** With a zero radius the normalised distance is Infinity or NaN and the
    comparison is false (radii are not negative). *)
Definition ellipseIntersectsEraser (ellipse : Node) (eraserPos : Point) (eraserRadius : R)
  : bool :=
  match nodeGeometry ellipse with
  | GEllipse rx ry =>
      let cx := nodeX ellipse in
      let cy := nodeY ellipse in
      let strokeWidth := nodeStrokeWidth ellipse / 2 in
      if Reqb rx 0 || Reqb ry 0 then false
      else
        let nx := (x eraserPos - cx) / rx in
        let ny := (y eraserPos - cy) / ry in
        let normalizedDist := sqrt (nx * nx + ny * ny) in
        let avgRadius := (rx + ry) / 2 in
        Rleb (Rabs (normalizedDist - 1) * avgRadius) (eraserRadius + strokeWidth)
  | _ => false
  end.

Definition rectIntersectsEraser (rect : Node) (eraserPos : Point) (eraserRadius : R)
  : bool :=
  match nodeGeometry rect with
  | GRect w h =>
      let rx := nodeX rect in
      let ry := nodeY rect in
      let strokeWidth := nodeStrokeWidth rect / 2 in
      let threshold := eraserRadius + strokeWidth in
      let ex := x eraserPos in
      let ey := y eraserPos in
      if Rleb (pointToSegmentDistance ex ey rx ry (rx + w) ry) threshold then true
      else if Rleb (pointToSegmentDistance ex ey rx (ry + h) (rx + w) (ry + h)) threshold
      then true
      else if Rleb (pointToSegmentDistance ex ey rx ry rx (ry + h)) threshold then true
      else if Rleb (pointToSegmentDistance ex ey (rx + w) ry (rx + w) (ry + h)) threshold
      then true
      else false
  | _ => false
  end.

(** [this.originalOpacities.set(shape, v)] *)
Fixpoint map_set (r : NodeRef) (v : float) (m : list (NodeRef * float))
  : list (NodeRef * float) :=
  match m with
  | [] => [(r, v)]
  | (k, w) :: rest => if (k =? r)%nat then (k, v) :: rest else (k, w) :: map_set r v rest
  end.

(** The body of [children.forEach] in [checkEraserIntersections]. *)
Definition eraseChild (pos : Point) (eraserRadius : R)
  (d : DrawingTools) (c : NodeRef * Node) : DrawingTools :=
  let r := fst c in
  match layer_get r (layer d) with
  | None => d
  | Some child =>
      if String.eqb (nodeName child) "stroke"
         && negb (existsb (Nat.eqb r) (markedForDeletion (eraserSession d)))
      then
        let intersects :=
          match nodeGeometry child with
          | GLine _ _ => lineIntersectsEraser child pos eraserRadius
          | GCircle _ => circleIntersectsEraser child pos eraserRadius
          | GEllipse _ _ => ellipseIntersectsEraser child pos eraserRadius
          | GRect _ _ => rectIntersectsEraser child pos eraserRadius
          | GText _ => false
          end in
        if intersects then
          let d :=
            on_eraser
              (fun e =>
                 set_originalOpacities (map_set r (nodeOpacity child) (originalOpacities e))
                   (set_markedForDeletion (markedForDeletion e ++ [r]) e)) d in
          on_layer
            (layer_update r (fun n => set_nodeStroke "#888888" (set_nodeOpacity 0.3%float n)))
            d
        else d
      else d
  end.

Definition checkEraserIntersections (pos : Point) (d : DrawingTools) : DrawingTools :=
  let eraserRadius := eraserThickness (eraser (settings d)) / 2 in
  fold_left (eraseChild pos eraserRadius) (layer d) d.

Definition startErasing (pos : Point) (d : DrawingTools) : DrawingTools :=
  let d :=
    on_eraser
      (fun e =>
         set_originalOpacities [] (set_markedForDeletion [] (set_lastEraserPos (Some pos) e)))
      d in
  (* Create eraser trail (white line) *)
  let '(r, d) :=
    addNode (mkNode "eraser-trail" 0 0 "#ffffff" (eraserThickness (eraser (settings d)))
               1%float (GLine [x pos; y pos] false)) d in
  let d := on_eraser (set_eraserTrail (Some r)) d in
  checkEraserIntersections pos d.

Definition eraseAtPosition (pos : Point) (d : DrawingTools) : DrawingTools :=
  let d :=
    match eraserTrail (eraserSession d) with
    | Some trail =>
        on_layer
          (layer_update trail
             (fun n => set_nodePoints (nodePoints n ++ [x pos; y pos]) n)) d
    | None => d
    end in
  let d := checkEraserIntersections pos d in
  on_eraser (set_lastEraserPos (Some pos)) d.

Definition finishErasing (d : DrawingTools) : DrawingTools :=
  let d :=
    match eraserTrail (eraserSession d) with
    | Some trail => on_eraser (set_eraserTrail None) (on_layer (layer_destroy trail) d)
    | None => d
    end in
  (* Delete all marked shapes *)
  let d :=
    fold_left (fun d shape => on_layer (layer_destroy shape) d)
      (markedForDeletion (eraserSession d)) d in
  on_eraser
    (fun e =>
       set_lastEraserPos None (set_originalOpacities [] (set_markedForDeletion [] e))) d.

(** ** Text *)

(** The text box is a node without a name; editing it goes through the
    document and is outside the model. *)
Definition createTextBox (pos : Point) (d : DrawingTools) : DrawingTools :=
  let '(_, d) :=
    addNode (mkNode "" (x pos) (y pos) "" 0 1%float (GText "Double click to edit")) d in
  onContentChange d.

(** ** Lasso selection *)

(** The ray-casting loop
    [for (let i = 0, j = points.length - 2; i < points.length; j = i, i += 2)],
    with [(xj, yj)] the point visited before. *)
Fixpoint rayCast (px py xj yj : R) (points : list R) (inside : bool) : bool :=
  match points with
  | xi :: yi :: rest =>
      let inside :=
        if negb (Bool.eqb (Rgtb yi py) (Rgtb yj py))
           && Rltb px ((xj - xi) * (py - yi) / (yj - yi) + xi)
        then negb inside else inside in
      rayCast px py xi yi rest inside
  | _ => inside
  end.

Definition isPointInLasso (lassoPoints : list R) (px py : R) : bool :=
  if (length lassoPoints <? 6)%nat then false
  else
    let j := (length lassoPoints - 2)%nat in
    rayCast px py (nth j lassoPoints 0) (nth (j + 1) lassoPoints 0) lassoPoints false.

(** [for (let i = 0; i < points.length; i += 2) if (isPointInLasso(points[i], points[i+1])) return true] *)
Fixpoint anyPointInLasso (lassoPoints : list R) (points : list R) : bool :=
  match points with
  | px :: py :: rest =>
      if isPointInLasso lassoPoints px py then true else anyPointInLasso lassoPoints rest
  | _ => false
  end.

(** The last case of the source takes the centre of the client rectangle
    of any other node class; only text nodes are of another class, they
    carry no name and are never tested. *)
Definition shapeIntersectsLasso (lassoPoints : list R) (shape : Node) : bool :=
  let inLasso := isPointInLasso lassoPoints in
  match nodeGeometry shape with
  | GLine points _ => anyPointInLasso lassoPoints points
  | GCircle r =>
      let cx := nodeX shape in
      let cy := nodeY shape in
      inLasso cx cy || inLasso (cx + r) cy || inLasso (cx - r) cy
      || inLasso cx (cy + r) || inLasso cx (cy - r)
  | GEllipse rx ry =>
      let cx := nodeX shape in
      let cy := nodeY shape in
      inLasso cx cy || inLasso (cx + rx) cy || inLasso (cx - rx) cy
      || inLasso cx (cy + ry) || inLasso cx (cy - ry)
  | GRect w h =>
      let sx := nodeX shape in
      let sy := nodeY shape in
      inLasso sx sy || inLasso (sx + w) sy || inLasso sx (sy + h)
      || inLasso (sx + w) (sy + h) || inLasso (sx + w / 2) (sy + h / 2)
  | GText _ => false
  end.

Fixpoint sumXs (points : list R) : R :=
  match points with
  | px :: _ :: rest => px + sumXs rest
  | [px] => px
  | [] => 0
  end.

Fixpoint sumYs (points : list R) : R :=
  match points with
  | _ :: py :: rest => py + sumYs rest
  | _ => 0
  end.

Definition calculateSelectionCenter (d : DrawingTools) : DrawingTools :=
  let points := lassoPoints (lasso d) in
  if (length points <? 2)%nat then d
  else
    let numPoints := INR (length points) / 2 in
    on_lasso
      (set_selectionCenter (mkPoint (sumXs points / numPoints) (sumYs points / numPoints))) d.

(** [requestAnimationFrame(animate)]: the frame callback only moves the dash
    offset of the outline, which is not part of the scene modelled here. *)
Definition startMarchingAnts (d : DrawingTools) : DrawingTools :=
  let f := nextFrame (host d) in
  on_lasso (set_marchingAntsAnimationId (Some f)) (on_host (set_nextFrame (Pos.succ f)) d).

Definition clearSelection (d : DrawingTools) : DrawingTools :=
  (* Stop marching ants animation *)
  let d := on_lasso (set_marchingAntsAnimationId None) d in
  (* Restore original opacity (inverse of 0.8 multiplication) *)
  let d :=
    fold_left
      (fun d shape =>
         on_layer
           (layer_update shape (fun n => set_nodeOpacity (nodeOpacity n / 0.8)%float n)) d)
      (selectedShapes (lasso d)) d in
  (* Remove lasso path *)
  let d :=
    match lassoPath (lasso d) with
    | Some p => on_lasso (set_lassoPath None) (on_layer (layer_destroy p) d)
    | None => d
    end in
  on_lasso
    (fun l =>
       set_dragStartPos None
         (set_isDraggingSelection false (set_lassoPoints [] (set_selectedShapes [] l)))) d.

Definition startSelection (pos : Point) (d : DrawingTools) : DrawingTools :=
  let startLasso (d : DrawingTools) : DrawingTools :=
    let d := on_lasso (set_lassoPoints [x pos; y pos]) d in
    let '(r, d) :=
      addNode (mkNode "lasso-drawing" 0 0 "#888888" 1.5 0.7%float
                 (GLine [x pos; y pos] false)) d in
    on_lasso (set_lassoLine (Some r)) d in
  match lassoPath (lasso d), selectedShapes (lasso d) with
  | Some _, _ :: _ =>
      (* Check if clicking inside existing selection to drag *)
      if isPointInLasso (lassoPoints (lasso d)) (x pos) (y pos) then
        on_lasso (fun l => set_dragStartPos (Some pos) (set_isDraggingSelection true l)) d
      else
        (* Clicking outside - clear selection *)
        startLasso (clearSelection d)
  | _, _ => startLasso d
  end.

Definition continueSelection (pos : Point) (d : DrawingTools) : DrawingTools :=
  match isDraggingSelection (lasso d), dragStartPos (lasso d) with
  | true, Some start =>
      let dx := x pos - x start in
      let dy := y pos - y start in
      (* Move all selected shapes *)
      let d :=
        fold_left
          (fun d shape =>
             on_layer
               (layer_update shape
                  (fun n => set_nodeY (nodeY n + dy) (set_nodeX (nodeX n + dx) n))) d)
          (selectedShapes (lasso d)) d in
      (* Move the lasso path *)
      let d :=
        match lassoPath (lasso d) with
        | Some p =>
            let points :=
              match layer_get p (layer d) with
              | Some n => nodePoints n
              | None => []
              end in
            let newPoints :=
              (fix shift (points : list R) : list R :=
                 match points with
                 | px :: py :: rest => (px + dx) :: (py + dy) :: shift rest
                 | _ => []
                 end) points in
            on_lasso (set_lassoPoints newPoints)
              (on_layer (layer_update p (set_nodePoints newPoints)) d)
        | None => d
        end in
      on_lasso (set_dragStartPos (Some pos)) d
  | _, _ =>
      (* Continue drawing lasso *)
      match lassoLine (lasso d) with
      | None => d
      | Some l =>
          let d := on_lasso (fun s => set_lassoPoints (lassoPoints s ++ [x pos; y pos]) s) d in
          on_layer (layer_update l (set_nodePoints (lassoPoints (lasso d)))) d
      end
  end.

Definition finishSelection (d : DrawingTools) : DrawingTools :=
  if isDraggingSelection (lasso d) then
    (* Handle end of drag *)
    onContentChange
      (on_lasso (fun l => set_dragStartPos None (set_isDraggingSelection false l)) d)
  else
    match lassoLine (lasso d) with
    | None => on_lasso (set_lassoPoints []) d
    | Some l =>
        if (length (lassoPoints (lasso d)) <? 6)%nat then
          (* Not enough points for a selection *)
          on_lasso (fun s => set_lassoPoints [] (set_lassoLine None s))
            (on_layer (layer_destroy l) d)
        else
          (* Close the lasso path by adding start point to end *)
          let d :=
            on_lasso
              (fun s =>
                 set_lassoPoints
                   (lassoPoints s ++ [nth 0 (lassoPoints s) 0; nth 1 (lassoPoints s) 0]) s)
              d in
          (* Remove the drawing line *)
          let d := on_lasso (set_lassoLine None) (on_layer (layer_destroy l) d) in
          (* Find all shapes that intersect with lasso *)
          let selected :=
            map fst
              (filter
                 (fun c =>
                    (String.eqb (nodeName (snd c)) "stroke"
                     || String.eqb (nodeName (snd c)) "shape")
                    && shapeIntersectsLasso (lassoPoints (lasso d)) (snd c))
                 (layer d)) in
          let d := on_lasso (set_selectedShapes selected) d in
          match selected with
          | _ :: _ =>
              (* Calculate selection center for scaling *)
              let d := calculateSelectionCenter d in
              (* Active selection - show solid colored lasso *)
              let '(r, d) :=
                addNode (mkNode "lasso-path" 0 0 "#0066ff" 2 1%float
                           (GLine (lassoPoints (lasso d)) true)) d in
              let d := on_lasso (set_lassoPath (Some r)) d in
              (* Start marching ants animation *)
              let d := startMarchingAnts d in
              (* Highlight selected shapes *)
              fold_left
                (fun d shape =>
                   on_layer
                     (layer_update shape
                        (fun n => set_nodeOpacity (nodeOpacity n * 0.8)%float n)) d)
                (selectedShapes (lasso d)) d
          | [] =>
              (* No selection - clear *)
              on_lasso (set_lassoPoints []) d
          end
    end.

(** ** Pointer handlers *)

Definition setTool (tool : ToolType) (d : DrawingTools) : DrawingTools :=
  set_currentTool tool d.

Definition handlePointerDown (stage : Stage) (now : nat) (d : DrawingTools) : DrawingTools :=
  match currentTool d with
  | Hand => d
  | _ =>
      let d := set_isDrawing true d in
      match getScaledPointerPosition stage with
      | None => d
      | Some pos =>
          match currentTool d with
          | Pen | Highlighter => startDrawing pos now d
          | Eraser => startErasing pos d
          | Text => createTextBox pos d
          | Select => startSelection pos d
          | Hand => d
          end
      end
  end.

Definition handlePointerMove (stage : Stage) (now : nat) (d : DrawingTools) : DrawingTools :=
  if negb (isDrawing d) then d
  else
    match currentTool d with
    | Hand => d
    | _ =>
        match getScaledPointerPosition stage with
        | None => d
        | Some pos =>
            match currentTool d with
            | Pen | Highlighter =>
                if isInShapeMode (hold d) then resizeShape pos d
                else checkForShapeHold pos now (continueDrawing pos d)
            | Eraser => eraseAtPosition pos d
            | Select => continueSelection pos d
            | Text | Hand => d
            end
        end
    end.

Definition handlePointerUp (stage : Stage) (d : DrawingTools) : DrawingTools :=
  if negb (isDrawing d) then d
  else
    match currentTool d with
    | Hand => d
    | _ =>
        let d := set_isDrawing false d in
        match getScaledPointerPosition stage with
        | None => d
        | Some pos =>
            (* Clear shape hold timer *)
            let d :=
              match shapeHoldTimer (hold d) with
              | Some t => on_hold (set_shapeHoldTimer None) (clearTimeout t d)
              | None => d
              end in
            let d :=
              match currentTool d with
              | Pen => if isInShapeMode (hold d) then finishShapeMode d else finishDrawing d
              | Highlighter => finishDrawing d
              | Eraser => finishErasing d
              | Select => finishSelection d
              | Text | Hand => d
              end in
            let d := set_currentLine None d in
            let d := set_currentShape None d in
            let d := on_hold (set_isInShapeMode false) d in
            let d := on_hold (set_detectedShapeType None) d in
            let d := on_hold (set_shapeAnchor None) d in
            let d := on_hold (set_shapeBounds None) d in
            let d := on_hold (set_lastMovePos None) d in
            onContentChange d
        end
    end.

(** ** Events *)

(** What can happen to the object: the three pointer handlers (with the
    clock reading [Date.now()] where the handler takes one), a tool switch,
    and the runtime calling back a timeout.  A timeout that was cleared, or
    has fired already, is not called. *)
Inductive Event : Type :=
| PointerDown (stage : Stage) (now : nat)
| PointerMove (stage : Stage) (now : nat)
| PointerUp (stage : Stage)
| SetTool (tool : ToolType)
| TimerFires (t : TimerId).

Definition timerPending (t : TimerId) (d : DrawingTools) : bool :=
  existsb (Pos.eqb t) (pendingTimers (host d)).

Definition step (d : DrawingTools) (e : Event) : DrawingTools :=
  match e with
  | PointerDown stage now => handlePointerDown stage now d
  | PointerMove stage now => handlePointerMove stage now d
  | PointerUp stage => handlePointerUp stage d
  | SetTool tool => setTool tool d
  | TimerFires t =>
      if timerPending t d then triggerShapeDetection (clearTimeout t d) else d
  end.

Definition run (d : DrawingTools) (events : list Event) : DrawingTools :=
  fold_left step events d.

(** [new DrawingTools(layer, settings, onContentChange)] *)
Definition newDrawingTools (l : Layer) (s : ToolSettings) : DrawingTools :=
  mkDrawingTools l s Pen false None None 0%nat []
    (mkHoldState None 0%nat None false None None None)
    (mkEraserSession None None [] [])
    (mkLassoState None [] [] false None None None (mkPoint 0 0))
    (mkHost (S (fold_right Nat.max 0%nat (map fst l))) 1%positive [] 1%positive 0%nat).

(** [createDefaultNotaFile]'s settings. *)
Definition defaultSettings : ToolSettings :=
  mkToolSettings
    (mkStrokeSettings "#000000" 2 1%float)
    (mkStrokeSettings "#ffff00" 20 0.3%float)
    (mkEraserSettings 20)
    (mkTextSettings 16 "Arial" "#000000").

(** ** Selection queries and scaling *)

Definition hasActiveSelection (d : DrawingTools) : bool :=
  match selectedShapes (lasso d), lassoPath (lasso d) with
  | _ :: _, Some _ => true
  | _, _ => false
  end.

Definition isPointInSelection (px py : R) (d : DrawingTools) : bool :=
  hasActiveSelection d && isPointInLasso (lassoPoints (lasso d)) px py.

(** [shape.strokeWidth(v)] *)
Definition set_nodeStrokeWidth (v : R) (n : Node) : Node :=
  mkNode (nodeName n) (nodeX n) (nodeY n) (nodeStroke n) v (nodeOpacity n)
    (nodeGeometry n).

(** The loop
    [for (i = 0; i < points.length; i += 2) newPoints.push(cx + (px - cx) * f, cy + (py - cy) * f)]
    of [scaleSelection], on an array of whole pairs. *)
Fixpoint scalePoints (cx cy scaleFactor : R) (points : list R) : list R :=
  match points with
  | px :: py :: rest =>
      (cx + (px - cx) * scaleFactor) :: (cy + (py - cy) * scaleFactor)
      :: scalePoints cx cy scaleFactor rest
  | _ => []
  end.

(** The body of [this.selectedShapes.forEach] in [scaleSelection]: a line
    has its points and stroke width scaled; any other shape its position,
    its size and its stroke width. *)
Definition scaleShape (cx cy scaleFactor : R) (shape : Node) : Node :=
  match nodeGeometry shape with
  | GLine points _ =>
      set_nodeStrokeWidth (nodeStrokeWidth shape * scaleFactor)
        (set_nodePoints (scalePoints cx cy scaleFactor points) shape)
  | g =>
      let sx := nodeX shape in
      let sy := nodeY shape in
      let shape := set_nodeY (cy + (sy - cy) * scaleFactor)
                     (set_nodeX (cx + (sx - cx) * scaleFactor) shape) in
      let shape :=
        match g with
        | GCircle r => set_radius (r * scaleFactor) shape
        | GEllipse rx ry =>
            set_radiusY (ry * scaleFactor) (set_radiusX (rx * scaleFactor) shape)
        | GRect w h => set_height (h * scaleFactor) (set_width (w * scaleFactor) shape)
        | _ => shape
        end in
      set_nodeStrokeWidth (nodeStrokeWidth shape * scaleFactor) shape
  end.

Definition scaleSelection (scaleFactor : R) (d : DrawingTools) : DrawingTools :=
  if negb (hasActiveSelection d) then d
  else
    let cx := x (selectionCenter (lasso d)) in
    let cy := y (selectionCenter (lasso d)) in
    (* Scale each selected shape around the center *)
    let d :=
      fold_left
        (fun d shape => on_layer (layer_update shape (scaleShape cx cy scaleFactor)) d)
        (selectedShapes (lasso d)) d in
    (* Scale the lasso path *)
    let d :=
      match lassoPath (lasso d) with
      | Some p =>
          let newLassoPoints := scalePoints cx cy scaleFactor (lassoPoints (lasso d)) in
          let d := on_lasso (set_lassoPoints newLassoPoints) d in
          on_layer
            (layer_update p
               (fun n =>
                  set_nodeStrokeWidth (nodeStrokeWidth n * scaleFactor)
                    (set_nodePoints newLassoPoints n))) d
      | None => d
      end in
    onContentChange d.

(** ** Serialization *)

(** ['pen' | 'highlighter'] *)
Inductive StrokeKind : Type := PenStroke | HighlighterStroke.

Record SerializedStroke : Type := mkSerializedStroke {
  strokeType : StrokeKind;
  strokePoints : list R;
  strokeColor : string;
  strokeThickness : R;
  strokeOpacity : float
}.

(** The two shapes [serializeShapes] writes: ['rectangle'] with x, y, width,
    height and ['circle'] with x, y, radius; each with color, thickness and
    opacity. *)
Inductive SerializedShape : Type :=
| SerializedRectangle (sx sy width height : R) (scolor : string) (sthickness : R)
    (sopacity : float)
| SerializedCircle (sx sy radius : R) (scolor : string) (sthickness : R)
    (sopacity : float).

(** [child.strokeWidth() || 1] *)
Definition thickness_or_1 (w : R) : R := if Reqb w 0 then 1 else w.

(** [child.opacity() || 1]: zero and NaN are falsy. *)
Definition opacity_or_1 (o : float) : float :=
  if (PrimFloat.eqb o 0 || negb (PrimFloat.eqb o o))%bool then 1%float else o.

(** The body of [children.forEach] in [serializeStrokes].  The stroke colour
    of a node is always a string here, and no line of this class is given
    the composite operation ['destination-out'], so those two tests do not
    appear. *)
Definition serializeStroke (child : Node) : list SerializedStroke :=
  match nodeGeometry child with
  | GLine points _ =>
      if negb (String.eqb (nodeName child) "lasso-drawing")
         && negb (String.eqb (nodeName child) "lasso-path")
      then
        let isHighlighter := PrimFloat.ltb (opacity_or_1 (nodeOpacity child)) 1 in
        [mkSerializedStroke (if isHighlighter then HighlighterStroke else PenStroke)
           points (nodeStroke child) (thickness_or_1 (nodeStrokeWidth child))
           (opacity_or_1 (nodeOpacity child))]
      else []
  | _ => []
  end.

Definition serializeStrokes (d : DrawingTools) : list SerializedStroke :=
  flat_map (fun c => serializeStroke (snd c)) (layer d).

(** The body of [children.forEach] in [serializeShapes]. *)
Definition serializeShape (child : Node) : list SerializedShape :=
  match nodeGeometry child with
  | GRect w h =>
      if negb (String.eqb (nodeName child) "lasso-path") then
        [SerializedRectangle (nodeX child) (nodeY child) w h (nodeStroke child)
           (thickness_or_1 (nodeStrokeWidth child)) (opacity_or_1 (nodeOpacity child))]
      else []
  | GCircle r =>
      [SerializedCircle (nodeX child) (nodeY child) r (nodeStroke child)
         (thickness_or_1 (nodeStrokeWidth child)) (opacity_or_1 (nodeOpacity child))]
  | _ => []
  end.

Definition serializeShapes (d : DrawingTools) : list SerializedShape :=
  flat_map (fun c => serializeShape (snd c)) (layer d).

(** ** Saving and loading a page (pageManager.ts) *)

(** [name.includes(sub)] *)
Definition includes (sub s : string) : bool :=
  match String.index 0 sub s with
  | Some _ => true
  | None => false
  end.

(** The strokes and shapes of a [SerializedPage]; text elements and images
    are not part of the scene modelled here. *)
Record SerializedPage : Type := mkSerializedPage {
  strokes : list SerializedStroke;
  shapes : list SerializedShape
}.

(** The body of [page.layer.getChildren().forEach] in [serializePage]: a
    background element is skipped; a line with points is pushed on
    [strokes]; a rectangle whose name does not include ['background'] and a
    circle are pushed on [shapes]; no other class of the scene is written.
    No line of the scene has the composite operation ['destination-out'],
    and the stroke colour of a node is always a string. *)
Definition serializeChild (page : SerializedPage) (child : Node) : SerializedPage :=
  if String.eqb (nodeName child) "background" then page
  else
    match nodeGeometry child with
    | GLine points _ =>
        if (0 <? length points)%nat then
          mkSerializedPage
            (strokes page ++
             [mkSerializedStroke
                (if PrimFloat.ltb (opacity_or_1 (nodeOpacity child)) 1
                 then HighlighterStroke else PenStroke)
                points (nodeStroke child) (thickness_or_1 (nodeStrokeWidth child))
                (opacity_or_1 (nodeOpacity child))])
            (shapes page)
        else page
    | GRect w h =>
        if negb (includes "background" (nodeName child)) then
          mkSerializedPage (strokes page)
            (shapes page ++
             [SerializedRectangle (nodeX child) (nodeY child) w h (nodeStroke child)
                (thickness_or_1 (nodeStrokeWidth child))
                (opacity_or_1 (nodeOpacity child))])
        else page
    | GCircle r =>
        mkSerializedPage (strokes page)
          (shapes page ++
           [SerializedCircle (nodeX child) (nodeY child) r (nodeStroke child)
              (thickness_or_1 (nodeStrokeWidth child))
              (opacity_or_1 (nodeOpacity child))])
    | _ => page
    end.

Definition serializePage (l : Layer) : SerializedPage :=
  fold_left (fun page c => serializeChild page (snd c)) l (mkSerializedPage [] []).

(** [new Konva.Line({points, stroke, strokeWidth, opacity, ..., name: 'stroke'})]
    in [loadPage]. *)
Definition loadStroke (stroke : SerializedStroke) : Node :=
  mkNode "stroke" 0 0 (strokeColor stroke) (strokeThickness stroke)
    (strokeOpacity stroke) (GLine (strokePoints stroke) false).

(** The ['rectangle'] and ['circle'] cases of [loadPage]; [shape.x || 0] is
    [shape.x] for a number. *)
Definition loadShape (shape : SerializedShape) : Node :=
  match shape with
  | SerializedRectangle sx sy w h c t o => mkNode "stroke" sx sy c t o (GRect w h)
  | SerializedCircle sx sy r c t o => mkNode "stroke" sx sy c t o (GCircle r)
  end.

(** The nodes [loadPage] adds after the background, in the order it adds
    them: the strokes, then the shapes. *)
Definition loadPage (page : SerializedPage) : list Node :=
  map loadStroke (strokes page) ++ map loadShape (shapes page).

(** ** The same tests in binary64

    Where the answer of the program is decided by a comparison at the very
    boundary, the rounding of the runtime matters.  The functions below are
    the hit test of the eraser and the classifier written over binary64
    values ([float]), operation for operation as the source computes them:
    every [+], [-], [*], [/] and [Math.sqrt] is the correctly rounded one,
    and every comparison is the one of IEEE 754 (false on [NaN]). *)

Module Binary64.

Local Open Scope float_scope.

(** [Math.min(a, b)] and [Math.max(a, b)]: NaN if an argument is NaN, and
    of the two zeros the negative one is the smaller. *)
Definition Math_min (a b : float) : float :=
  if is_nan a || is_nan b then nan
  else if a <? b then a
  else if b <? a then b
  else match classify a with
       | NZero => a
       | _ => b
       end.

Definition Math_max (a b : float) : float :=
  if is_nan a || is_nan b then nan
  else if b <? a then a
  else if a <? b then b
  else match classify a with
       | PZero => a
       | _ => b
       end.

(** [Math.min(...l)] and [Math.max(...l)]; without arguments they are
    [Infinity] and [-Infinity]. *)
Definition min_of (l : list float) : float := fold_left Math_min l infinity.
Definition max_of (l : list float) : float := fold_left Math_max l neg_infinity.

(** [for (i = 0; i < points.length; i += 2) { xs.push(points[i]); ys.push(points[i + 1]); }]
    On an array of odd length the last [ys] entry is [undefined]; it is only
    ever used as a number, which makes it [NaN]. *)
Fixpoint xs_of (points : list float) : list float :=
  match points with
  | [] => []
  | [px] => [px]
  | px :: _ :: rest => px :: xs_of rest
  end.

Fixpoint ys_of (points : list float) : list float :=
  match points with
  | [] => []
  | [_] => [nan]
  | _ :: py :: rest => py :: ys_of rest
  end.

Definition pointToSegmentDistance (px py x1 y1 x2 y2 : float) : float :=
  let dx := x2 - x1 in
  let dy := y2 - y1 in
  let lengthSquared := dx * dx + dy * dy in
  if lengthSquared =? 0 then
    (* Segment is a point *)
    PrimFloat.sqrt ((px - x1) * (px - x1) + (py - y1) * (py - y1))
  else
    (* Project point onto line segment *)
    let t := ((px - x1) * dx + (py - y1) * dy) / lengthSquared in
    let t := Math_max 0 (Math_min 1 t) in
    let nearestX := x1 + t * dx in
    let nearestY := y1 + t * dy in
    PrimFloat.sqrt ((px - nearestX) * (px - nearestX) + (py - nearestY) * (py - nearestY)).

(** What the hit test reads of a [Konva.Line]. *)
Record KonvaLine : Type := mkKonvaLine { points : list float; strokeWidth : float }.

Record Point : Type := mkPoint { x : float; y : float }.

(** [for (let i = 0; i < points.length - 2; i += 2)] over the segments
    [(points[i], points[i+1]) - (points[i+2], points[i+3])].  On an array of
    odd length the last segment has [undefined] for [y2]: its distance is
    [NaN], and the comparison is false. *)
Fixpoint segmentsTouch (points : list float) (px py threshold : float) : bool :=
  match points with
  | x1 :: y1 :: rest =>
      match rest with
      | x2 :: y2 :: _ =>
          if pointToSegmentDistance px py x1 y1 x2 y2 <=? threshold then true
          else segmentsTouch rest px py threshold
      | _ => false
      end
  | _ => false
  end.

Definition lineIntersectsEraser (line : KonvaLine) (eraserPos : Point) (radius : float)
  : bool :=
  segmentsTouch (points line) (x eraserPos) (y eraserPos)
    (radius + strokeWidth line / 2).

Definition strokeWidthOf (points : list float) : float :=
  max_of (xs_of points) - min_of (xs_of points).

Definition strokeHeightOf (points : list float) : float :=
  max_of (ys_of points) - min_of (ys_of points).

Section Classifier.

(** The corner detector measures angles with [Math.atan2], and the
    closed-stroke test squares with [**]; the rounding of both is left
    to the engine by the language, so the classifier is written for any
    corner detector and any squaring function. *)
Variable findSignificantCorners : list float -> float -> float -> list Point.
Variable square : float -> float.

Definition analyzeStrokeForShape (points : list float) : option ShapeType :=
  if (length points <? 4)%nat then None
  else
    let xs := xs_of points in
    let ys := ys_of points in
    let width := strokeWidthOf points in
    let height := strokeHeightOf points in
    (* Check if it's a line (very narrow in one dimension) *)
    if (height * 3.5 <? width) || (width * 3.5 <? height) then Some Line
    else
      let corners := findSignificantCorners points width height in
      if (length corners =? 3)%nat then Some Triangle
      else if (4 <=? length corners)%nat then Some Rectangle
      else if (length corners =? 2)%nat
              && (let startX := nth 0 xs nan in
                  let startY := nth 0 ys nan in
                  let endX := nth (length xs - 1) xs nan in
                  let endY := nth (length ys - 1) ys nan in
                  let closedThreshold := Math_max width height * 0.25 in
                  PrimFloat.sqrt (square (endX - startX) + square (endY - startY))
                  <? closedThreshold)
      then Some Triangle
      else
        (* No clear corners = circle or oval *)
        let aspectRatio := Math_max width height / Math_min width height in
        if aspectRatio <? 1.3 then Some Circle else Some Oval.

End Classifier.

End Binary64.

(** ** Vocabulary of the properties *)

(** The dimensions of a shape: a circle's radius, an ellipse's two radii, a
    rectangle's width and height, the width and height of a triangle (a
    closed line), the length of a two-point line. *)
Definition dimensions (n : Node) : list R :=
  match nodeGeometry n with
  | GCircle r => [r]
  | GEllipse rx ry => [rx; ry]
  | GRect w h => [w; h]
  | GLine points true => [strokeWidthOf points; strokeHeightOf points]
  | GLine [x1; y1; x2; y2] false =>
      [sqrt ((x2 - x1) * (x2 - x1) + (y2 - y1) * (y2 - y1))]
  | GLine _ false => []
  | GText _ => []
  end.

Definition atLeast5 (n : Node) : Prop := Forall (fun v => 5 <= v) (dimensions n).


(** A stage at scale 1 with the pointer at a position, and a stage that
    cannot tell where the pointer is. *)
Definition pointerAt (px py : R) : Stage := mkStage (Some (mkPoint px py)) 1.
Definition noPosition : Stage := mkStage None 1.

(** *** Strokes and gestures used as examples *)

(** Nine points along an L: four steps left along the x axis, a right-angle
    turn at the origin, four steps along the y axis. *)
Definition elbow : list R := [4; 0; 3; 0; 2; 0; 1; 0; 0; 0; 0; 1; 0; 2; 0; 3; 0; 4].

(** Seven points with the same turn. *)
Definition shortElbow : list R := [3; 0; 2; 0; 1; 0; 0; 0; 0; 1; 0; 2; 0; 3].

(** The stroke of the eraser scenario: one segment (0,50)-(100,50), width 2. *)
Definition scenarioStroke : Node :=
  mkNode "stroke" 0 0 "#000000" 2 1%float (GLine [0; 50; 100; 50] false).

(** A highlighter stroke held still after three samples. *)
Definition highlighterGesture : list Event :=
  [SetTool Highlighter;
   PointerDown (pointerAt 0 0) 0%nat;
   PointerMove (pointerAt 50 0) 10%nat;
   PointerMove (pointerAt 100 0) 20%nat;
   TimerFires 2%positive].

(** A pen stroke from (0,10) down to (100,0), held still. *)
Definition slantedGesture : list Event :=
  [PointerDown (pointerAt 0 10) 0%nat;
   PointerMove (pointerAt 50 5) 10%nat;
   PointerMove (pointerAt 100 0) 20%nat;
   TimerFires 2%positive].

(** The same stroke, released while the stage has no pointer position. *)
Definition penGestureLosingPointer : list Event :=
  [PointerDown (pointerAt 0 10) 0%nat;
   PointerMove (pointerAt 50 5) 10%nat;
   PointerMove (pointerAt 100 0) 20%nat;
   PointerUp noPosition].

(** Shapes being resized: the state after a snap, with the anchor at the
    centre of the shape. *)
Definition inShapeMode (kind : ShapeType) (anchor : Point) (shape : Node) : DrawingTools :=
  set_isDrawing true
    (set_currentShape (Some 1%nat)
       (on_hold
          (fun h =>
             set_shapeAnchor (Some anchor)
               (set_detectedShapeType (Some kind) (set_isInShapeMode true h)))
          (newDrawingTools [(1%nat, shape)] defaultSettings))).

Definition circleInShapeMode : DrawingTools :=
  inShapeMode Circle (mkPoint 50 50)
    (mkNode "stroke" 50 50 "#000000" 2 1%float (GCircle 50)).

Definition rectangleInShapeMode : DrawingTools :=
  inShapeMode Rectangle (mkPoint 50 50)
    (mkNode "stroke" 0 0 "#000000" 2 1%float (GRect 100 100)).

Definition triangleInShapeMode : DrawingTools :=
  inShapeMode Triangle (mkPoint 50 50)
    (mkNode "stroke" 0 0 "#000000" 2 1%float
       (GLine [50; 0; 0; 100; 100; 100; 50; 0] true)).

(** A closed square lasso, a stroke inside it drawn at opacity 0.4, and the
    gesture that lassoes the stroke and then clicks outside the lasso. *)
Definition squareLasso : list R := [0; 0; 100; 0; 100; 100; 0; 100; 0; 0].

Definition fadedStroke : Node :=
  mkNode "stroke" 0 0 "#ffff00" 20 0.4%float (GLine [50; 50; 60; 60] false).

Definition lassoGesture : list Event :=
  [SetTool Select;
   PointerDown (pointerAt 0 0) 0%nat;
   PointerMove (pointerAt 100 0) 10%nat;
   PointerMove (pointerAt 100 100) 20%nat;
   PointerMove (pointerAt 0 100) 30%nat;
   PointerUp (pointerAt 0 100)].

Definition clickOutside : Event := PointerDown (pointerAt 200 200) 40%nat.

(** *** Distances, corners, translations *)

(** The squared distance between two points. *)
Definition dist2 (px py qx qy : R) : R := (px - qx) * (px - qx) + (py - qy) * (py - qy).

(** The point of the segment (x1,y1)-(x2,y2) at parameter s. *)
Definition along (x1 y1 x2 y2 s : R) : Point :=
  mkPoint (x1 + s * (x2 - x1)) (y1 + s * (y2 - y1)).

(** A corner accepted later is at least [m] away from an earlier one. *)
Definition apart (m : R) (corner later : Point) : Prop :=
  m <= sqrt ((x later - x corner) ^ 2 + (y later - y corner) ^ 2).

(** The point stored at index [i] of a flattened array. *)
Definition vertex (points : list R) (i : nat) : Point :=
  mkPoint (nth i points 0) (nth (i + 1) points 0).

(** Index [i] of the flattened array is where the corner loop accepts a
    candidate: an even index, two steps away from both ends, where the
    stroke turns by an angle strictly between 15 and 155 degrees. *)
Definition sharpAt (points : list R) (i : nat) : Prop :=
  let step := Nat.max 4 (length points / 40) in
  Nat.even i = true
  /\ (step * 2 <= i)%nat
  /\ (i + step * 2 + 1 < length points)%nat
  /\ 15 < getAngle (vertex points (i - step * 2)) (vertex points i)
                   (vertex points (Nat.min (length points - 2) (i + step * 2)))
        < 155.

(** A flattened array moved by (dx, dy). *)
Fixpoint translatePoints (dx dy : R) (points : list R) : list R :=
  match points with
  | px :: py :: rest => (px + dx) :: (py + dy) :: translatePoints dx dy rest
  | _ => []
  end.

(** The samples of a gesture as a flattened array, read at the stage's
    scale. *)
Fixpoint flatten (scale : R) (samples : list Point) : list R :=
  match samples with
  | [] => []
  | p :: rest => (x p / scale) :: (y p / scale) :: flatten scale rest
  end.

(** *** Eraser *)

(** The hit test [checkEraserIntersections] applies to a child, by its
    class. *)
Definition intersectsEraser (child : Node) (pos : Point) (eraserRadius : R) : bool :=
  match nodeGeometry child with
  | GLine _ _ => lineIntersectsEraser child pos eraserRadius
  | GCircle _ => circleIntersectsEraser child pos eraserRadius
  | GEllipse _ _ => ellipseIntersectsEraser child pos eraserRadius
  | GRect _ _ => rectIntersectsEraser child pos eraserRadius
  | GText _ => false
  end.

(** How a stroke marked for deletion is shown until the eraser is lifted. *)
Definition greyedOut (n : Node) : Node :=
  set_nodeStroke "#888888" (set_nodeOpacity 0.3%float n).

Definition marked (r : NodeRef) (d : DrawingTools) : bool :=
  existsb (Nat.eqb r) (markedForDeletion (eraserSession d)).

Definition eraserRadiusOf (d : DrawingTools) : R :=
  eraserThickness (eraser (settings d)) / 2.

(** Only the layer and the eraser session differ. *)
Definition eraserFrame (d d' : DrawingTools) : Prop :=
  d' = set_eraserSession (eraserSession d') (set_layer (layer d') d).

(** *** Hold timer *)

(** The pending timeouts and the handle the object remembers are the same
    in two states. *)
Definition sameTimers (d d' : DrawingTools) : Prop :=
  pendingTimers (host d') = pendingTimers (host d)
  /\ shapeHoldTimer (hold d') = shapeHoldTimer (hold d).

(** No timeout is pending, or exactly one is and it is the one the object
    remembers in [shapeHoldTimer]. *)
Definition oneTimer (d : DrawingTools) : Prop :=
  pendingTimers (host d) = []
  \/ exists t, pendingTimers (host d) = [t] /\ shapeHoldTimer (hold d) = Some t.

(** *** Gestures *)

(** A stage at a given scale with the pointer at [p]. *)
Definition sample (scale : R) (p : Point) : Stage := mkStage (Some p) scale.

(** Pointer moves through the given samples, each with its clock reading. *)
Definition moves (scale : R) (samples : list (Point * nat)) : list Event :=
  map (fun m => PointerMove (sample scale (fst m)) (snd m)) samples.

(** Only the hold state and the runtime's timers differ. *)
Definition holdFrame (d d' : DrawingTools) : Prop :=
  d' = set_host (host d') (set_hold (hold d') d)
  /\ isInShapeMode (hold d') = isInShapeMode (hold d).

(** *** Saving *)

Definition isLine (n : Node) : bool :=
  match nodeGeometry n with
  | GLine _ _ => true
  | _ => false
  end.

(** A node that [serializePage] writes in full: an open line at the origin
    with at least one point, a rectangle or a circle; named ['stroke'], with
    a width and an opacity that [|| 1] leaves as they are. *)
Definition savable (n : Node) : Prop :=
  nodeName n = "stroke"%string
  /\ thickness_or_1 (nodeStrokeWidth n) = nodeStrokeWidth n
  /\ opacity_or_1 (nodeOpacity n) = nodeOpacity n
  /\ match nodeGeometry n with
     | GLine points closed =>
         points <> [] /\ closed = false /\ nodeX n = 0 /\ nodeY n = 0
     | GRect _ _ | GCircle _ => True
     | GEllipse _ _ | GText _ => False
     end.

(** The geometry [createDetectedShape] draws for each kind. *)
Definition drawnAs (kind : ShapeType) (g : Geometry) : Prop :=
  match kind, g with
  | Circle, GCircle _ => True
  | Oval, GEllipse _ _ => True
  | Rectangle, GRect _ _ => True
  | Triangle, GLine _ true => True
  | Line, GLine _ false => True
  | _, _ => False
  end.

(** *** Selections *)

(** The lasso closed by [finishSelection]: the start point is added at the
    end. *)
Definition closeLasso (points : list R) : list R :=
  points ++ [nth 0 points 0; nth 1 points 0].

(** The outline [finishSelection] draws around an active selection. *)
Definition selectionOutline (points : list R) : Node :=
  mkNode "lasso-path" 0 0 "#0066ff" 2 1%float (GLine points true).

(** The test by which [finishSelection] picks the children it selects. *)
Definition lassoed (lassoPoints : list R) (c : NodeRef * Node) : bool :=
  (String.eqb (nodeName (snd c)) "stroke" || String.eqb (nodeName (snd c)) "shape")
  && shapeIntersectsLasso lassoPoints (snd c).

(** *** Scenes used as examples *)

(** A tap of the pen: a stroke of a single point. *)
Definition dot : Node :=
  mkNode "stroke" 0 0 "#000000" 2 1%float (GLine [50; 50] false).

(** A pen stroke inside the square lasso. *)
Definition penStroke : Node :=
  mkNode "stroke" 0 0 "#000000" 2 1%float (GLine [50; 50; 60; 60] false).

(** A circle as [loadPage] or a snap leaves it. *)
Definition ring : Node :=
  mkNode "stroke" 50 50 "#000000" 2 1%float (GCircle 20).

(** Three points of an arch, twice as wide as high. *)
Definition arch : list R := [0; 0; 10; 10; 20; 0].

(** A stroke being drawn, with the given points so far. *)
Definition drawing (points : list R) : DrawingTools :=
  set_isDrawing true
    (set_currentLine (Some 1%nat)
       (newDrawingTools
          [(1%nat, mkNode "stroke" 0 0 "#000000" 2 1%float (GLine points false))]
          defaultSettings)).

(** The square lasso being drawn around [penStroke], before the pointer is
    lifted. *)
Definition lassoBeingDrawn : DrawingTools :=
  on_lasso
    (fun l => set_lassoPoints [0; 0; 100; 0; 100; 100; 0; 100] (set_lassoLine (Some 2%nat) l))
    (set_isDrawing true
       (set_currentTool Select
          (newDrawingTools
             [(1%nat, penStroke);
              (2%nat, mkNode "lasso-drawing" 0 0 "#888888" 1.5 0.7%float
                        (GLine [0; 0; 100; 0; 100; 100; 0; 100] false))]
             defaultSettings))).

(** The selection of [penStroke] by the square lasso, grabbed at (50,50). *)
Definition draggingSelection : DrawingTools :=
  on_lasso
    (fun l =>
       set_dragStartPos (Some (mkPoint 50 50))
         (set_isDraggingSelection true
            (set_lassoPath (Some 3%nat)
               (set_selectedShapes [1%nat] (set_lassoPoints squareLasso l)))))
    (set_isDrawing true
       (set_currentTool Select
          (newDrawingTools
             [(1%nat, set_nodeOpacity 0.8%float penStroke);
              (3%nat, selectionOutline squareLasso)]
             defaultSettings))).

(** The selection of [penStroke] by the square lasso, at rest. *)
Definition activeSelection : DrawingTools :=
  on_lasso
    (fun l =>
       set_lassoPath (Some 3%nat)
         (set_selectedShapes [1%nat] (set_lassoPoints squareLasso l)))
    (set_currentTool Select
       (newDrawingTools
          [(1%nat, set_nodeOpacity 0.8%float penStroke);
           (3%nat, selectionOutline squareLasso)]
          defaultSettings)).

(** A pen stroke with the pointer still down. *)
Definition penDown : list Event :=
  [PointerDown (pointerAt 0 10) 0%nat;
   PointerMove (pointerAt 50 5) 10%nat;
   PointerMove (pointerAt 100 0) 20%nat].

(** A pen stroke during which the tool is switched to the hand before the
    pointer is lifted. *)
Definition penGestureSwitchingToHand : list Event :=
  [PointerDown (pointerAt 0 10) 0%nat;
   PointerMove (pointerAt 50 5) 10%nat;
   PointerMove (pointerAt 100 0) 20%nat;
   SetTool Hand;
   PointerUp (pointerAt 100 0)].

(** * Properties *)

(** ** Comparisons *)

Lemma Rltb_true a b : a < b -> Rltb a b = true.
Proof. intros H; unfold Rltb; destruct (Rlt_dec a b); [reflexivity | contradiction]. Qed.

Lemma Rltb_false a b : b <= a -> Rltb a b = false.
Proof. intros H; unfold Rltb; destruct (Rlt_dec a b); [lra | reflexivity]. Qed.

Lemma Rltb_spec a b : Rltb a b = true <-> a < b.
Proof. unfold Rltb; destruct (Rlt_dec a b); split; intros; (assumption || reflexivity || discriminate || contradiction). Qed.

Lemma Rleb_true a b : a <= b -> Rleb a b = true.
Proof. intros H; unfold Rleb; destruct (Rle_dec a b); [reflexivity | contradiction]. Qed.

Lemma Rleb_false a b : b < a -> Rleb a b = false.
Proof. intros H; unfold Rleb; destruct (Rle_dec a b); [lra | reflexivity]. Qed.

Lemma Rgtb_true a b : a > b -> Rgtb a b = true.
Proof. intros H; apply Rltb_true; lra. Qed.

Lemma Rgtb_false a b : a <= b -> Rgtb a b = false.
Proof. intros H; apply Rltb_false; lra. Qed.

Lemma Rgtb_spec a b : Rgtb a b = true <-> a > b.
Proof. unfold Rgtb; rewrite Rltb_spec; lra. Qed.

Lemma Reqb_true a b : a = b -> Reqb a b = true.
Proof. intros H; unfold Reqb; destruct (Req_dec_T a b); [reflexivity | contradiction]. Qed.

Lemma Reqb_false a b : a <> b -> Reqb a b = false.
Proof. intros H; unfold Reqb; destruct (Req_dec_T a b); [contradiction | reflexivity]. Qed.

Lemma sqrt_eval (a b : R) : 0 <= b -> a = b * b -> sqrt a = b.
Proof. intros Hb ->. apply sqrt_square; assumption. Qed.

Lemma Rgtb_sqrt_true (a b : R) : 0 <= b -> b * b < a -> Rgtb (sqrt a) b = true.
Proof.
  intros Hb Ha. apply Rgtb_true.
  rewrite <- (sqrt_square b) by assumption.
  apply sqrt_lt_1_alt. split; [nra | assumption].
Qed.

Lemma Rgtb_sqrt_false (a b : R) : 0 <= b -> a <= b * b -> Rgtb (sqrt a) b = false.
Proof.
  intros Hb Ha. apply Rgtb_false.
  replace b with (sqrt (b * b)) at 1 by (apply sqrt_square; assumption).
  destruct (Rle_dec 0 a).
  - apply sqrt_le_1_alt; assumption.
  - rewrite sqrt_neg_0 by lra. apply sqrt_pos.
Qed.

(** ** Evaluating the model on given numbers

    The model's tests are comparisons of real numbers, which do not compute;
    these tactics unfold everything else and settle each test, minimum,
    maximum and absolute value on constants by linear arithmetic. *)

Ltac crunch :=
  cbv -[Rplus Rminus Rmult Rdiv Rinv Ropp IZR sqrt Rltb Rgtb Rleb Reqb Rmin Rmax
        Rabs atan PI INR getAngle pointToSegmentDistance isPointInLasso].

Ltac decide_R :=
  repeat match goal with
    | |- context [Rltb ?a ?b] =>
        first [rewrite (Rltb_true a b) by lra | rewrite (Rltb_false a b) by lra]
    | |- context [Rgtb ?a ?b] =>
        first [rewrite (Rgtb_true a b) by lra | rewrite (Rgtb_false a b) by lra]
    | |- context [Rleb ?a ?b] =>
        first [rewrite (Rleb_true a b) by lra | rewrite (Rleb_false a b) by lra]
    | |- context [Reqb ?a ?b] =>
        first [rewrite (Reqb_true a b) by lra | rewrite (Reqb_false a b) by lra]
    | |- context [Rmin ?a ?b] =>
        first [rewrite (Rmin_left a b) by lra | rewrite (Rmin_right a b) by lra]
    | |- context [Rmax ?a ?b] =>
        first [rewrite (Rmax_left a b) by lra | rewrite (Rmax_right a b) by lra]
    end.

Ltac decide_abs :=
  repeat match goal with
    | |- context [Rabs ?a] =>
        first [rewrite (Rabs_right a) by lra | rewrite (Rabs_left a) by lra]
    end.

Ltac decide_tests_with tac :=
  repeat (repeat match goal with
            | |- context [Rgtb (sqrt ?a) ?b] =>
                first [rewrite (Rgtb_sqrt_true a b) by lra
                      | rewrite (Rgtb_sqrt_false a b) by lra]
            end;
          tac; decide_R; crunch).

Ltac decide_tests := decide_tests_with idtac.

Lemma run_cons (d : DrawingTools) (e : Event) (es : list Event) :
  run d (e :: es) = run (step d e) es.
Proof. reflexivity. Qed.

Lemma run_nil (d : DrawingTools) : run d [] = d.
Proof. reflexivity. Qed.

(** One event at a time: the state after the event is computed in full
    before the next event is looked at. *)
Ltac eval_step_with tac :=
  match goal with
  | |- context [step ?d ?e] =>
      let E := fresh "E" in
      eassert (E : step d e = _);
      [ crunch; rewrite ?Rdiv_1_r; decide_tests_with tac; reflexivity
      | rewrite E; clear E ]
  end.

Ltac eval_run_with tac :=
  repeat (rewrite run_cons; eval_step_with tac); rewrite run_nil.

Ltac eval_step := eval_step_with idtac.
Ltac eval_run := eval_run_with idtac.

(** ** Geometry utilities *)

Lemma atan_neg1 : atan (-1) = - (PI / 4).
Proof. replace (-1) with (- (1)) by lra. rewrite atan_opp, atan_1. reflexivity. Qed.

Lemma atan2_pos_x (py px : R) : 0 < px -> atan2 py px = atan (py / px).
Proof. intros H; unfold atan2; rewrite Rltb_true by lra; reflexivity. Qed.

Lemma atan2_neg_x_nonneg_y (py px : R) :
  px < 0 -> 0 <= py -> atan2 py px = atan (py / px) + PI.
Proof.
  intros Hx Hy; unfold atan2.
  rewrite (Rltb_false 0 px) by lra. rewrite (Rltb_true px 0) by lra.
  rewrite Rleb_true by lra. reflexivity.
Qed.

Lemma atan2_neg_x_neg_y (py px : R) :
  px < 0 -> py < 0 -> atan2 py px = atan (py / px) - PI.
Proof.
  intros Hx Hy; unfold atan2.
  rewrite (Rltb_false 0 px) by lra. rewrite (Rltb_true px 0) by lra.
  rewrite Rleb_false by lra. reflexivity.
Qed.

Lemma atan2_zero_x_pos_y (py : R) : 0 < py -> atan2 py 0 = PI / 2.
Proof.
  intros Hy; unfold atan2.
  rewrite (Rltb_false 0 0) by lra. rewrite (Rltb_true 0 py) by lra. reflexivity.
Qed.

(** The bearing lies in [-PI, PI]. *)
Lemma atan2_bounds (py px : R) : - PI <= atan2 py px <= PI.
Proof.
  pose proof PI_RGT_0 as Hpi.
  unfold atan2.
  destruct (Rlt_dec 0 px) as [Hx|Hx].
  - rewrite Rltb_true by lra. pose proof (atan_bound (py / px)). lra.
  - rewrite (Rltb_false 0 px) by lra.
    destruct (Rlt_dec px 0) as [Hx'|Hx'].
    + rewrite Rltb_true by lra.
      assert (Hinv : / px < 0) by (apply Rinv_lt_0_compat; lra).
      destruct (Rle_dec 0 py) as [Hy|Hy].
      * rewrite Rleb_true by lra.
        assert (Hq : py / px <= 0) by (unfold Rdiv; nra).
        assert (Ha : atan (py / px) <= 0).
        { destruct (Req_dec (py / px) 0) as [E|E].
          - rewrite E, atan_0; lra.
          - rewrite <- atan_0. left. apply atan_increasing. lra. }
        pose proof (atan_bound (py / px)). lra.
      * rewrite Rleb_false by lra.
        assert (Hq : 0 < py / px) by (unfold Rdiv; nra).
        assert (Ha : 0 < atan (py / px)).
        { rewrite <- atan_0. apply atan_increasing. lra. }
        pose proof (atan_bound (py / px)). lra.
    + rewrite (Rltb_false px 0) by lra.
      destruct (Rlt_dec 0 py).
      * rewrite Rltb_true by lra. lra.
      * rewrite (Rltb_false 0 py) by lra.
        destruct (Rlt_dec py 0).
        -- rewrite Rltb_true by lra. lra.
        -- rewrite Rltb_false by lra. lra.
Qed.

(** X9.  What holds of every triple of points: the answer of [getAngle] lies
    within a full turn. *)
Lemma getAngle_range (p1 p2 p3 : Point) : 0 <= getAngle p1 p2 p3 <= 360.
Proof.
  pose proof PI_RGT_0 as Hpi.
  unfold getAngle.
  pose proof (atan2_bounds (y p1 - y p2) (x p1 - x p2)) as Ha.
  pose proof (atan2_bounds (y p3 - y p2) (x p3 - x p2)) as Hb.
  set (a := atan2 _ _) in *. set (b := atan2 (y p3 - y p2) _) in *.
  assert (H0 : 0 <= Rabs (a - b)) by apply Rabs_pos.
  assert (H1 : Rabs (a - b) <= 2 * PI).
  { unfold Rabs; destruct (Rcase_abs (a - b)); lra. }
  assert (Hk : 0 < 180 / PI) by (apply Rdiv_lt_0_compat; lra).
  split.
  - nra.
  - replace 360 with (2 * PI * (180 / PI)) by (field; lra).
    apply Rmult_le_compat_r; lra.
Qed.

(** C5.  The angle-at-vertex function is said to answer in degrees within
    [0, 180].  At the vertex (0,0) with arms towards (-1,-1) and (-1,1), a
    right angle whose two bearings lie on either side of the cut of
    [Math.atan2], [getAngle] answers 270: the difference of the two bearings
    is not brought back into a half turn. *)
Theorem getAngle_reflex :
  getAngle (mkPoint (-1) (-1)) (mkPoint 0 0) (mkPoint (-1) 1) = 270
  /\ ~ (0 <= getAngle (mkPoint (-1) (-1)) (mkPoint 0 0) (mkPoint (-1) 1) <= 180).
Proof.
  assert (E : getAngle (mkPoint (-1) (-1)) (mkPoint 0 0) (mkPoint (-1) 1) = 270);
    [ | rewrite E; split; [reflexivity | lra] ].
  pose proof PI_RGT_0 as Hpi.
  unfold getAngle; cbn [x y].
  rewrite atan2_neg_x_neg_y by lra.
  rewrite atan2_neg_x_nonneg_y by lra.
  replace ((-1 - 0) / (-1 - 0)) with 1 by (field; lra).
  replace ((1 - 0) / (-1 - 0)) with (-1) by (field; lra).
  rewrite atan_1, atan_neg1.
  replace (PI / 4 - PI - (- (PI / 4) + PI)) with (- (3 * PI / 2)) by lra.
  rewrite Rabs_Ropp, Rabs_right by lra.
  field; lra.
Qed.

(** ** Corner detector *)

(** The candidate loop never runs out of fuel: any two amounts of fuel that
    cover the rest of the array give the same candidates. *)
Lemma candidates_from_fuel (points : list R) (step : nat) :
  forall (fuel1 fuel2 i : nat),
    (length points <= i + 2 * fuel1)%nat ->
    (length points <= i + 2 * fuel2)%nat ->
    candidates_from fuel1 points step i = candidates_from fuel2 points step i.
Proof.
  assert (Hstop : forall fuel i, (length points <= i)%nat ->
                                 candidates_from fuel points step i = []).
  { intros [|fuel] i Hi; [reflexivity|].
    cbn [candidates_from].
    replace (i <? length points - step * 2 - 1)%nat with false
      by (symmetry; apply Nat.ltb_ge; lia).
    reflexivity. }
  induction fuel1 as [|fuel1 IH]; intros fuel2 i H1 H2.
  - rewrite (Hstop fuel2 i) by lia. reflexivity.
  - destruct fuel2 as [|fuel2].
    + rewrite (Hstop (S fuel1) i) by lia. reflexivity.
    + cbn [candidates_from].
      destruct (i <? length points - step * 2 - 1)%nat; [|reflexivity].
      f_equal. apply IH; lia.
Qed.

(** In particular the fuel [findSignificantCorners] gives the loop, the
    length of the array, is never exhausted. *)
Lemma findSignificantCorners_fuel (points : list R) (step fuel : nat) :
  (length points <= fuel)%nat ->
  candidates_from fuel points step (step * 2)
  = candidates_from (length points) points step (step * 2).
Proof. intros Hfuel. apply candidates_from_fuel; lia. Qed.

Lemma no_corners_below_18 (points : list R) (width height : R) :
  (length points < 18)%nat -> findSignificantCorners points width height = [].
Proof.
  intros Hlen. unfold findSignificantCorners.
  destruct (length points <? 12)%nat eqn:Hguard; [reflexivity|].
  apply Nat.ltb_ge in Hguard.
  rewrite (Nat.div_small (length points) 40) by lia.
  change (Nat.max 4 0) with 4%nat.
  assert (Hloop : (4 * 2 <? length points - 4 * 2 - 1)%nat = false)
    by (apply Nat.ltb_ge; lia).
  destruct (length points) as [|fuel] eqn:En at 1; [reflexivity|].
  cbn [candidates_from]. rewrite Hloop. reflexivity.
Qed.

(** C6, as amended.  A stroke of fewer than 9 points (fewer than 18 array
    entries) has no corner: below 12 entries, that is below 6 points, the
    guard returns at once, and up to 17 entries the loop has no index to
    visit. *)
Theorem findSignificantCorners_short (points : list R) (width height : R) :
  (length points / 2 < 9)%nat -> Nat.even (length points) = true ->
  findSignificantCorners points width height = [].
Proof.
  intros Hlen Heven. apply no_corners_below_18.
  apply Nat.even_spec in Heven. destruct Heven as [k Hk]. rewrite Hk in *.
  rewrite Nat.mul_comm, Nat.div_mul in Hlen by lia. lia.
Qed.

Lemma findSignificantCorners_short_witness :
  findSignificantCorners shortElbow 3 3 = [].
Proof.
  apply (findSignificantCorners_short shortElbow 3 3).
  - cbn. lia.
  - reflexivity.
Defined.

(** C6, as stated, fails: the nine-point stroke [elbow] has fewer than 12
    points and the detector finds its corner. *)
Lemma nine_point_stroke_has_a_corner :
  (length elbow / 2 < 12)%nat
  /\ findSignificantCorners elbow 4 4 = [mkPoint 0 0]
  /\ findSignificantCorners elbow 4 4 <> [].
Proof.
  assert (E : findSignificantCorners elbow 4 4 = [mkPoint 0 0]).
  { unfold findSignificantCorners, elbow.
    cbn [length Nat.ltb Nat.leb Nat.div Nat.divmod fst Nat.max Nat.mul Nat.add
         candidates_from Nat.sub Nat.min nth].
    assert (A : getAngle (mkPoint 4 0) (mkPoint 0 0) (mkPoint 0 4) = 90).
    { pose proof PI_RGT_0.
      unfold getAngle; cbn [x y].
      rewrite atan2_pos_x by lra.
      replace (4 - 0) with 4 by lra. replace (0 - 0) with 0 by lra.
      rewrite atan2_zero_x_pos_y by lra.
      replace (0 / 4) with 0 by lra. rewrite atan_0.
      replace (0 - PI / 2) with (- (PI / 2)) by lra.
      rewrite Rabs_Ropp, Rabs_right by lra. field; lra. }
    rewrite A.
    rewrite Rltb_true by lra. rewrite Rgtb_true by lra.
    cbn. reflexivity. }
  rewrite E. repeat split; [cbn; lia | discriminate].
Qed.

(** ** Shape classifier *)

Lemma analyze_line (points : list R) :
  (4 <= length points)%nat ->
  strokeWidthOf points > strokeHeightOf points * 3.5
  \/ strokeHeightOf points > strokeWidthOf points * 3.5 ->
  analyzeStrokeForShape points = Some Line.
Proof.
  intros Hlen Hratio. unfold analyzeStrokeForShape.
  replace (length points <? 4)%nat with false by (symmetry; apply Nat.ltb_ge; lia).
  destruct Hratio as [H|H].
  - rewrite (Rgtb_true _ _ H). reflexivity.
  - rewrite (Rgtb_true _ _ H), orb_true_r. reflexivity.
Qed.


(** ** Eraser hit test *)

Lemma segmentsTouch_at (n : nat) :
  forall (before : list R) (x1 y1 x2 y2 : R) (after : list R) (px py threshold : R),
    length before = (2 * n)%nat ->
    pointToSegmentDistance px py x1 y1 x2 y2 <= threshold ->
    segmentsTouch (before ++ x1 :: y1 :: x2 :: y2 :: after) px py threshold = true.
Proof.
  induction n as [|n IH]; intros before x1 y1 x2 y2 after px py threshold Hlen Hd.
  - destruct before; [|discriminate].
    cbn [app segmentsTouch]. rewrite Rleb_true by assumption. reflexivity.
  - destruct before as [|a [|b before']]; cbn [length] in Hlen; try lia.
    assert (Hlen' : length before' = (2 * n)%nat) by lia.
    specialize (IH before' x1 y1 x2 y2 after px py threshold Hlen' Hd).
    change ((a :: b :: before') ++ x1 :: y1 :: x2 :: y2 :: after)
      with (a :: b :: (before' ++ x1 :: y1 :: x2 :: y2 :: after)).
    cbn [segmentsTouch].
    destruct (before' ++ x1 :: y1 :: x2 :: y2 :: after) as [|c [|e rest]] eqn:E.
    + destruct before'; discriminate.
    + destruct before' as [|? [|? ?]]; discriminate.
    + destruct (Rleb (pointToSegmentDistance px py a b c e) threshold); [reflexivity|].
      exact IH.
Qed.

(** A segment of the stroke within reach of the eraser is found, wherever
    it lies in the stroke. *)
Lemma lineIntersectsEraser_within (line : Node) (eraserPos : Point) (radius : R)
  (before : list R) (x1 y1 x2 y2 : R) (after : list R) :
  nodePoints line = before ++ x1 :: y1 :: x2 :: y2 :: after ->
  Nat.even (length before) = true ->
  pointToSegmentDistance (x eraserPos) (y eraserPos) x1 y1 x2 y2
    <= radius + nodeStrokeWidth line / 2 ->
  lineIntersectsEraser line eraserPos radius = true.
Proof.
  intros Hpts Heven Hd.
  unfold lineIntersectsEraser. rewrite Hpts.
  apply Nat.even_spec in Heven. destruct Heven as [n Hn].
  apply (segmentsTouch_at n); assumption.
Qed.

(** ** Hold-to-snap state machine *)

(** A timer that fires when there is no live stroke, or when shape mode is
    already on, changes nothing: [triggerShapeDetection] returns the state it
    was given, and the timer event as a whole leaves the layer, the hold
    state, the live stroke and the current shape as they were (only the
    runtime forgets the timer). *)
Lemma triggerShapeDetection_guard (d : DrawingTools) :
  currentLine d = None \/ isInShapeMode (hold d) = true ->
  triggerShapeDetection d = d
  /\ forall t : TimerId,
       let d' := step d (TimerFires t) in
       layer d' = layer d /\ hold d' = hold d
       /\ currentLine d' = currentLine d /\ currentShape d' = currentShape d.
Proof.
  intros H.
  assert (E : forall d0, currentLine d0 = None \/ isInShapeMode (hold d0) = true ->
                         triggerShapeDetection d0 = d0).
  { intros d0 [H0|H0]; unfold triggerShapeDetection.
    - rewrite H0. reflexivity.
    - rewrite H0. destruct (currentLine d0); reflexivity. }
  split; [apply E; exact H|].
  intros t. cbn [step]. destruct (timerPending t d); [|repeat split].
  rewrite E by exact H. repeat split.
Qed.

(** Snapping does not depend on the tool in hand: neither
    [triggerShapeDetection] nor [createDetectedShape] reads [currentTool]. *)
Lemma createDetectedShape_ignores_tool (tool : ToolType) (d : DrawingTools) :
  createDetectedShape (setTool tool d) = setTool tool (createDetectedShape d).
Proof.
  unfold createDetectedShape, setTool.
  destruct d as [ly st tl drawing cl cs t0 sp [lp lt timer mode ty an bo] es ls hs].
  cbn.
  destruct bo as [b|]; [|reflexivity].
  destruct ty as [[| | | |]|]; try reflexivity.
Qed.

(** X15.  Snapping does not depend on the tool in hand: switching the tool
    before or after [triggerShapeDetection] gives the same state. *)
Lemma triggerShapeDetection_ignores_tool (tool : ToolType) (d : DrawingTools) :
  triggerShapeDetection (setTool tool d) = setTool tool (triggerShapeDetection d).
Proof.
  unfold triggerShapeDetection.
  destruct d as [ly st tl drawing cl cs t0 sp [lp lt timer mode ty an bo] es ls hs].
  cbn [setTool set_currentTool currentLine hold isInShapeMode layer].
  destruct cl as [l|]; [|reflexivity].
  destruct mode; [reflexivity|].
  destruct (length _ <? 6)%nat; [reflexivity|].
  destruct (analyzeStrokeForShape _) as [kind|]; [|reflexivity].
  destruct kind; reflexivity.
Qed.

(** X14.  Where the anchor is put when a held stroke snaps: at the centre of
    the bounds for every kind but the line, and for a line at the corner
    (minX, minY) of the bounds, because the stroke has already been let go
    of when [createDetectedShape] asks it for its first point. *)
Lemma triggerShapeDetection_anchor (d : DrawingTools) (l : NodeRef) (n : Node)
  (kind : ShapeType) :
  currentLine d = Some l ->
  isInShapeMode (hold d) = false ->
  layer_get l (layer d) = Some n ->
  (6 <= length (nodePoints n))%nat ->
  analyzeStrokeForShape (nodePoints n) = Some kind ->
  let xs := xs_of (nodePoints n) in
  let ys := ys_of (nodePoints n) in
  shapeAnchor (hold (triggerShapeDetection d))
  = Some (match kind with
          | Line => mkPoint (list_min xs) (list_min ys)
          | _ => mkPoint ((list_min xs + list_max xs) / 2)
                         ((list_min ys + list_max ys) / 2)
          end).
Proof.
  intros Hline Hmode Hnode Hlen Hkind xs ys.
  unfold triggerShapeDetection. rewrite Hline, Hmode, Hnode.
  replace (length (nodePoints n) <? 6)%nat with false
    by (symmetry; apply Nat.ltb_ge; exact Hlen).
  rewrite Hkind.
  destruct kind; reflexivity.
Qed.

(** C2.  With the highlighter, the hold timer snaps the stroke all the same:
    after three samples and the timer, the highlighter stroke (node 1) is
    gone, shape mode is on, a line shape in the pen's colour has taken its
    place, and the next pointer-move resizes that shape. *)
Theorem highlighter_hold_snaps :
  let d := run (newDrawingTools [] defaultSettings) highlighterGesture in
  currentTool d = Highlighter
  /\ isInShapeMode (hold d) = true
  /\ detectedShapeType (hold d) = Some Line
  /\ currentLine d = None
  /\ layer_get 1%nat (layer d) = None
  /\ layer d
     = [(2%nat, mkNode "stroke" 0 0 "#000000" 2 1%float (GLine [0; 0; 100; 0] false))]
  /\ layer (step d (PointerMove (pointerAt 100 60) 30%nat))
     = [(2%nat, mkNode "stroke" 0 0 "#000000" 2 1%float (GLine [0; 0; 100; 60] false))].
Proof.
  eassert (Hd : run (newDrawingTools [] defaultSettings) highlighterGesture = _).
  { unfold highlighterGesture. eval_run. reflexivity. }
  cbv zeta. rewrite Hd. clear Hd.
  crunch.
  repeat split; repeat f_equal; lra.
Qed.

(** C3.  The pen stroke from (0,10) to (100,0) snaps to a line whose anchor
    is (0,0), the corner of the bounds, and not the first captured point
    (0,10); the line itself runs from (0,0) to (100,10). *)
Theorem line_anchor_is_bounds_corner :
  let d := run (newDrawingTools [] defaultSettings) slantedGesture in
  detectedShapeType (hold d) = Some Line
  /\ shapeStartPoints d = [0; 10]
  /\ shapeAnchor (hold d) = Some (mkPoint 0 0)
  /\ shapeAnchor (hold d) <> Some (mkPoint 0 10)
  /\ layer d
     = [(2%nat, mkNode "stroke" 0 0 "#000000" 2 1%float (GLine [0; 0; 100; 10] false))].
Proof.
  eassert (Hd : run (newDrawingTools [] defaultSettings) slantedGesture = _).
  { unfold slantedGesture. eval_run. reflexivity. }
  cbv zeta. rewrite Hd. clear Hd.
  crunch.
  repeat split; try (repeat f_equal; lra).
  intros H. injection H. lra.
Qed.

(** *** Pointer-up *)



(** C7.  Pointer-up is said to cancel the timer and clear the hold state
    also when the pointer position is unavailable.  Released without a
    position, the pen gesture is over ([isDrawing] is false) but the live
    stroke, the last move position and the armed timer are all still there;
    when that timer then fires, the finished stroke is destroyed and
    replaced by a line shape. *)
Theorem pointer_up_without_position_keeps_hold_state :
  let d := run (newDrawingTools [] defaultSettings) penGestureLosingPointer in
  isDrawing d = false
  /\ currentLine d = Some 1%nat
  /\ lastMovePos (hold d) = Some (mkPoint 100 0)
  /\ shapeHoldTimer (hold d) = Some 2%positive
  /\ timerPending 2%positive d = true
  /\ layer (step d (TimerFires 2%positive))
     = [(2%nat, mkNode "stroke" 0 0 "#000000" 2 1%float (GLine [0; 0; 100; 10] false))].
Proof.
  eassert (Hd : run (newDrawingTools [] defaultSettings) penGestureLosingPointer = _).
  { unfold penGestureLosingPointer. eval_run. reflexivity. }
  cbv zeta. rewrite Hd. clear Hd.
  eval_step.
  crunch.
  repeat split; repeat f_equal; lra.
Qed.

(** ** Live shape resizer *)

Lemma layer_get_update (r : NodeRef) (f : Node -> Node) (l : Layer) :
  layer_get r (layer_update r f l) = option_map f (layer_get r l).
Proof.
  unfold layer_get, layer_update.
  induction l as [|[k n] l IH]; [reflexivity|].
  cbn [map find fst snd].
  destruct (k =? r)%nat eqn:E; cbn [fst snd find]; rewrite E; [reflexivity | exact IH].
Qed.

Section ResizeInShapeMode.

Variables (d : DrawingTools) (shape : NodeRef) (anchor : Point) (node : Node).
Hypothesis current : currentShape d = Some shape.
Hypothesis anchored : shapeAnchor (hold d) = Some anchor.
Hypothesis onLayer : layer_get shape (layer d) = Some node.

(** C4, as amended.  While a circle or an oval is being resized, its radius,
    respectively its two radii, are at least 5 after every resize, wherever
    the pointer is. *)
Theorem resize_keeps_radii_at_least_5 (pos : Point) :
  (detectedShapeType (hold d) = Some Circle /\ exists r, nodeGeometry node = GCircle r)
  \/ (detectedShapeType (hold d) = Some Oval
      /\ exists rx ry, nodeGeometry node = GEllipse rx ry) ->
  exists node',
    layer_get shape (layer (resizeShape pos d)) = Some node' /\ atLeast5 node'.
Proof.
  intros Hkind.
  unfold resizeShape. rewrite current, anchored.
  destruct Hkind as [[Hty [r Hg]] | [Hty [rx [ry Hg]]]]; rewrite Hty.
  - eexists. split.
    + cbn [on_layer set_layer layer]. rewrite layer_get_update, onLayer. reflexivity.
    + unfold atLeast5, dimensions, set_radius. rewrite Hg. cbn.
      constructor; [apply Rmax_l | constructor].
  - eexists. split.
    + cbn [on_layer set_layer layer]. rewrite layer_get_update, onLayer. reflexivity.
    + unfold atLeast5, dimensions, set_radiusX, set_radiusY. rewrite Hg. cbn.
      constructor; [apply Rmax_l | constructor; [apply Rmax_l | constructor]].
Qed.

End ResizeInShapeMode.

Lemma resize_keeps_radii_witness :
  exists node',
    layer_get 1%nat (layer (resizeShape (mkPoint 51 50) circleInShapeMode)) = Some node'
    /\ atLeast5 node'.
Proof.
  apply (resize_keeps_radii_at_least_5 circleInShapeMode 1%nat (mkPoint 50 50)
           (mkNode "stroke" 50 50 "#000000" 2 1%float (GCircle 50))).
  - reflexivity.
  - reflexivity.
  - reflexivity.
  - left. split; [reflexivity | exists 50; reflexivity].
Defined.

(** C4, as stated, fails: a rectangle resized with the pointer at (52,51),
    next to its anchor (50,50), becomes 4 wide and 2 high, and so does a
    triangle; and the line of [slantedGesture], dragged back to (3,0), is 3
    long. *)
Lemma resize_below_5 :
  layer (resizeShape (mkPoint 52 51) rectangleInShapeMode)
  = [(1%nat, mkNode "stroke" 48 49 "#000000" 2 1%float (GRect 4 2))]
  /\ ~ atLeast5 (mkNode "stroke" 48 49 "#000000" 2 1%float (GRect 4 2))
  /\ layer (resizeShape (mkPoint 52 51) triangleInShapeMode)
     = [(1%nat, mkNode "stroke" 0 0 "#000000" 2 1%float
                  (GLine [50; 49; 48; 51; 52; 51; 50; 49] true))]
  /\ dimensions (mkNode "stroke" 0 0 "#000000" 2 1%float
                   (GLine [50; 49; 48; 51; 52; 51; 50; 49] true)) = [4; 2]
  /\ layer (run (newDrawingTools [] defaultSettings)
              (slantedGesture ++ [PointerMove (pointerAt 3 0) 30%nat]))
     = [(2%nat, mkNode "stroke" 0 0 "#000000" 2 1%float (GLine [0; 0; 3; 0] false))]
  /\ ~ atLeast5 (mkNode "stroke" 0 0 "#000000" 2 1%float (GLine [0; 0; 3; 0] false)).
Proof.
  split; [|split; [|split; [|split; [|split]]]].
  - crunch. decide_R. decide_abs. crunch. repeat f_equal; lra.
  - unfold atLeast5, dimensions; cbn. intros H.
    apply Forall_inv in H. lra.
  - crunch. decide_abs. repeat f_equal; lra.
  - crunch. decide_R. repeat f_equal; lra.
  - unfold slantedGesture. cbn [app]. eval_run. crunch. repeat f_equal; lra.
  - unfold atLeast5, dimensions; cbn. intros H.
    apply Forall_inv in H.
    rewrite (sqrt_eval _ 3) in H by lra. lra.
Qed.

(** ** Lasso selection *)

Lemma in_square_50_50 : isPointInLasso squareLasso 50 50 = true.
Proof.
  unfold isPointInLasso, squareLasso. crunch. decide_tests. reflexivity.
Qed.

Lemma out_square_200_200 : isPointInLasso squareLasso 200 200 = false.
Proof.
  unfold isPointInLasso, squareLasso. crunch. decide_tests. reflexivity.
Qed.

Ltac lasso_tests :=
  fold squareLasso; rewrite ?in_square_50_50, ?out_square_200_200.

Lemma set_layer_same (d : DrawingTools) : set_layer (layer d) d = d.
Proof. destruct d; reflexivity. Qed.

Lemma fold_on_layer (f : Node -> Node) (refs : list NodeRef) :
  forall d : DrawingTools,
    fold_left (fun d s => on_layer (layer_update s f) d) refs d
    = set_layer (fold_left (fun l s => layer_update s f l) refs (layer d)) d.
Proof.
  induction refs as [|s refs IH]; intros d; cbn [fold_left].
  - symmetry. apply set_layer_same.
  - rewrite IH. destruct d; reflexivity.
Qed.

Lemma layer_get_update_other (r s : NodeRef) (f : Node -> Node) (l : Layer) :
  r <> s -> layer_get r (layer_update s f l) = layer_get r l.
Proof.
  intros Hne. unfold layer_get, layer_update.
  induction l as [|[k n] l IH]; [reflexivity|].
  cbn [map find fst snd].
  destruct (k =? s)%nat eqn:Es; cbn [fst snd find].
  - apply Nat.eqb_eq in Es. subst k.
    replace (s =? r)%nat with false by (symmetry; apply Nat.eqb_neq; congruence).
    exact IH.
  - destruct (k =? r)%nat; [reflexivity | exact IH].
Qed.

Lemma layer_get_fold_notin (f : Node -> Node) (r : NodeRef) (refs : list NodeRef) :
  forall l : Layer,
    ~ In r refs ->
    layer_get r (fold_left (fun l s => layer_update s f l) refs l) = layer_get r l.
Proof.
  induction refs as [|s refs IH]; intros l Hnot; cbn [fold_left]; [reflexivity|].
  rewrite IH by (intros H; apply Hnot; right; exact H).
  apply layer_get_update_other. intros ->. apply Hnot. left. reflexivity.
Qed.

Lemma layer_get_fold_in (f : Node -> Node) (r : NodeRef) (refs : list NodeRef) :
  forall l : Layer,
    NoDup refs -> In r refs ->
    layer_get r (fold_left (fun l s => layer_update s f l) refs l)
    = option_map f (layer_get r l).
Proof.
  induction refs as [|s refs IH]; intros l Hnd Hin; [contradiction|].
  cbn [fold_left]. inversion Hnd as [|? ? Hs Hnd']; subst.
  destruct (Nat.eq_dec r s) as [->|Hne].
  - rewrite layer_get_fold_notin by exact Hs. apply layer_get_update.
  - destruct Hin as [->|Hin]; [congruence|].
    rewrite IH by assumption. rewrite layer_get_update_other by exact Hne. reflexivity.
Qed.

Lemma layer_get_destroy_other (r s : NodeRef) (l : Layer) :
  r <> s -> layer_get r (layer_destroy s l) = layer_get r l.
Proof.
  intros Hne. unfold layer_get, layer_destroy.
  induction l as [|[k n] l IH]; [reflexivity|].
  cbn [filter find fst].
  destruct (k =? s)%nat eqn:Es; cbn [negb find fst].
  - apply Nat.eqb_eq in Es. subst k.
    replace (s =? r)%nat with false by (symmetry; apply Nat.eqb_neq; congruence).
    exact IH.
  - destruct (k =? r)%nat; [reflexivity | exact IH].
Qed.

Lemma layer_get_app (r : NodeRef) (n : Node) (l l' : Layer) :
  layer_get r l = Some n -> layer_get r (l ++ l') = Some n.
Proof.
  unfold layer_get. induction l as [|[k m] l IH]; [discriminate|].
  cbn [app find fst]. destruct (k =? r)%nat; [trivial | exact IH].
Qed.

Lemma layer_get_in (r : NodeRef) (l : Layer) :
  In r (map fst l) -> exists n, layer_get r l = Some n.
Proof.
  unfold layer_get. induction l as [|[k m] l IH]; [contradiction|].
  cbn [map fst find]. intros [->|Hin].
  - rewrite Nat.eqb_refl. eexists; reflexivity.
  - destruct (k =? r)%nat; [eexists; reflexivity | apply IH; exact Hin].
Qed.

Lemma NoDup_map_fst_filter (P : NodeRef * Node -> bool) (l : Layer) :
  NoDup (map fst l) -> NoDup (map fst (filter P l)).
Proof.
  induction l as [|c l IH]; cbn [map filter]; intros Hnd; [constructor|].
  inversion Hnd as [|? ? Hc Hnd']; subst.
  destruct (P c); [|apply IH; exact Hnd'].
  cbn [map]. constructor; [|apply IH; exact Hnd'].
  intros Hin. apply Hc.
  apply in_map_iff in Hin. destruct Hin as [c' [E Hin]].
  apply filter_In in Hin. apply in_map_iff. exists c'. tauto.
Qed.

Lemma in_map_fst_filter (P : NodeRef * Node -> bool) (r : NodeRef) (l : Layer) :
  In r (map fst (filter P l)) -> In r (map fst l).
Proof.
  intros Hin. apply in_map_iff in Hin. destruct Hin as [c [E Hin]].
  apply filter_In in Hin. apply in_map_iff. exists c. tauto.
Qed.

Lemma in_layer_destroy (r s : NodeRef) (l : Layer) :
  In r (map fst (layer_destroy s l)) -> r <> s /\ In r (map fst l).
Proof.
  intros Hin. apply in_map_iff in Hin. destruct Hin as [c [E Hin]].
  unfold layer_destroy in Hin. apply filter_In in Hin. destruct Hin as [Hin Hne].
  split.
  - intros ->. rewrite <- E in Hne. rewrite Nat.eqb_refl in Hne. discriminate.
  - apply in_map_iff. exists c. tauto.
Qed.

(** A lasso is being drawn (at least three points), the nodes of the layer
    are distinct objects, and [nextRef] is the next fresh identity. *)
Section SelectThenClear.

Variables (d : DrawingTools) (lassoNode : NodeRef).
Hypothesis notDragging : isDraggingSelection (lasso d) = false.
Hypothesis drawingLasso : lassoLine (lasso d) = Some lassoNode.
Hypothesis enoughPoints : (6 <= length (lassoPoints (lasso d)))%nat.
Hypothesis distinct : NoDup (map fst (layer d)).
Hypothesis allocated : forall r, In r (map fst (layer d)) -> (r < nextRef (host d))%nat.

(** X24.  What select-then-clear does to every shape the lasso has selected:
    its opacity [o] comes back as [(o * 0.8) / 0.8], computed in binary64. *)
Lemma select_then_clear_opacity (r : NodeRef) (n : Node) :
  layer_get r (layer d) = Some n ->
  In r (selectedShapes (lasso (finishSelection d))) ->
  layer_get r (layer (clearSelection (finishSelection d)))
  = Some (set_nodeOpacity (nodeOpacity n * 0.8 / 0.8)%float n).
Proof.
  intros Hn Hsel.
  unfold finishSelection in *. rewrite notDragging, drawingLasso in *.
  replace (length (lassoPoints (lasso d)) <? 6)%nat with false in *
    by (symmetry; apply Nat.ltb_ge; exact enoughPoints).
  cbv zeta in *.
  set (closed := on_lasso _ d) in *.
  set (d1 := on_lasso (set_lassoLine None) (on_layer (layer_destroy lassoNode) closed)) in *.
  set (selected := map fst (filter _ (layer d1))) in *.
  assert (Hlayer1 : layer d1 = layer_destroy lassoNode (layer d)) by reflexivity.
  assert (Hsub : forall s, In s selected -> s <> lassoNode /\ In s (map fst (layer d))).
  { intros s Hs. apply in_layer_destroy. rewrite <- Hlayer1.
    unfold selected in Hs. apply in_map_fst_filter in Hs. exact Hs. }
  assert (Hnd : NoDup selected).
  { unfold selected. apply NoDup_map_fst_filter. rewrite Hlayer1.
    apply NoDup_map_fst_filter. exact distinct. }
  clearbody selected.
  destruct selected as [|s0 rest].
  - cbn in Hsel. contradiction.
  - unfold calculateSelectionCenter, startMarchingAnts, addNode in *.
    destruct (length _ <? 2)%nat.
    all: cbn [fst snd] in *.
    all: rewrite fold_on_layer in *.
    all: cbn -[layer_destroy layer_update layer_add layer_get fold_left] in Hsel.
    all: unfold clearSelection.
    all: cbn -[layer_destroy layer_update layer_add layer_get fold_left].
    all: rewrite fold_on_layer.
    all: cbn -[layer_destroy layer_update layer_add layer_get fold_left].
    all: rewrite layer_get_destroy_other
      by (destruct (Hsub r Hsel) as [_ Hin]; apply allocated in Hin; lia).
    all: rewrite !layer_get_fold_in by assumption.
    all: unfold layer_add.
    all: erewrite layer_get_app
      by (rewrite layer_get_destroy_other by (apply Hsub; exact Hsel); exact Hn).
    all: reflexivity.
Qed.

End SelectThenClear.

(** The opacities the settings start with come back as they were. *)
Lemma default_opacities_round_trip :
  (1 * 0.8 / 0.8 =? 1)%float = true /\ (0.3 * 0.8 / 0.8 =? 0.3)%float = true.
Proof. split; vm_compute; reflexivity. Qed.

(** C9.  Select-then-clear is said to restore a shape's opacity exactly.  A
    stroke of opacity 0.4 is lassoed (its opacity becomes 0.4 * 0.8) and the
    selection is cleared by a click outside (the opacity is divided by 0.8):
    the stroke ends at 0.4000000000000001, one unit in the last place above
    the opacity it had. *)
Theorem select_then_clear_changes_opacity :
  let d1 := run (newDrawingTools [(1%nat, fadedStroke)] defaultSettings) lassoGesture in
  let d2 := step d1 clickOutside in
  selectedShapes (lasso d1) = [1%nat]
  /\ option_map nodeOpacity (layer_get 1%nat (layer d1)) = Some 0.32000000000000006%float
  /\ selectedShapes (lasso d2) = []
  /\ option_map nodeOpacity (layer_get 1%nat (layer d2)) = Some 0.4000000000000001%float
  /\ (0.4000000000000001 =? nodeOpacity fadedStroke)%float = false.
Proof.
  eassert (Hd1 : run (newDrawingTools [(1%nat, fadedStroke)] defaultSettings)
                   lassoGesture = _).
  { unfold lassoGesture. eval_run_with lasso_tests. reflexivity. }
  cbv zeta. rewrite Hd1. clear Hd1.
  unfold clickOutside. eval_step_with lasso_tests.
  crunch. repeat split.
Qed.

(** ** The eraser's hit test in binary64 *)

(** Two numbers that are equal are also less than or equal. *)
Lemma leb_of_eqb (a b : float) :
  PrimFloat.eqb a b = true -> PrimFloat.leb a b = true.
Proof.
  rewrite FloatAxioms.eqb_spec, FloatAxioms.leb_spec.
  unfold SpecFloat.SFeqb, SpecFloat.SFleb.
  destruct (SpecFloat.SFcompare _ _) as [[| |]|]; intros H; try discriminate; reflexivity.
Qed.

Lemma segmentsTouch64_at (n : nat) :
  forall (before : list float) (x1 y1 x2 y2 : float) (after : list float)
         (px py threshold : float),
    length before = (2 * n)%nat ->
    PrimFloat.leb (Binary64.pointToSegmentDistance px py x1 y1 x2 y2) threshold = true ->
    Binary64.segmentsTouch (before ++ x1 :: y1 :: x2 :: y2 :: after) px py threshold = true.
Proof.
  induction n as [|n IH]; intros before x1 y1 x2 y2 after px py threshold Hlen Hd.
  - destruct before; [|discriminate]. cbn [app Binary64.segmentsTouch]. rewrite Hd. reflexivity.
  - destruct before as [|a [|b before]]; try (cbn in Hlen; lia).
    assert (Hlen' : length before = (2 * n)%nat) by (cbn in Hlen; lia).
    specialize (IH before x1 y1 x2 y2 after px py threshold Hlen' Hd).
    cbn [app Binary64.segmentsTouch].
    destruct (before ++ x1 :: y1 :: x2 :: y2 :: after) as [|c [|e rest]] eqn:E.
    + destruct before; discriminate.
    + destruct before as [|? [|? ?]]; discriminate.
    + destruct (PrimFloat.leb (Binary64.pointToSegmentDistance px py a b c e) threshold);
        [reflexivity | exact IH].
Qed.

Lemma segmentsTouch64_inv (n : nat) :
  forall (points : list float) (px py threshold : float),
    (length points <= n)%nat ->
    Binary64.segmentsTouch points px py threshold = true ->
    exists before x1 y1 x2 y2 after,
      points = before ++ x1 :: y1 :: x2 :: y2 :: after
      /\ Nat.even (length before) = true
      /\ PrimFloat.leb (Binary64.pointToSegmentDistance px py x1 y1 x2 y2) threshold = true.
Proof.
  induction n as [|n IH]; intros points px py threshold Hlen H.
  - destruct points; [discriminate | cbn in Hlen; lia].
  - destruct points as [|x1 [|y1 [|x2 [|y2 rest]]]]; try discriminate.
    cbn [Binary64.segmentsTouch] in H.
    destruct (PrimFloat.leb (Binary64.pointToSegmentDistance px py x1 y1 x2 y2) threshold)
      eqn:Hd.
    + exists [], x1, y1, x2, y2, rest. repeat split; assumption.
    + destruct (IH (x2 :: y2 :: rest) px py threshold) as
        (before & a1 & b1 & a2 & b2 & after & E & Heven & Hle).
      * cbn [length] in *. lia.
      * exact H.
      * exists (x1 :: y1 :: before), a1, b1, a2, b2, after.
        cbn [app]. rewrite E. repeat split; assumption.
Qed.

Lemma even_double_length {A : Type} (l : list A) :
  Nat.even (length l) = true -> exists n, length l = (2 * n)%nat.
Proof. intros H. apply Nat.even_spec in H. destruct H as [n ->]. exists n. reflexivity. Qed.

(** A segment whose computed distance is within the threshold makes the
    test answer true. *)
Lemma lineIntersectsEraser64_within (line : Binary64.KonvaLine) (eraserPos : Binary64.Point)
  (radius : float) (before : list float) (x1 y1 x2 y2 : float) (after : list float) :
  Binary64.points line = before ++ x1 :: y1 :: x2 :: y2 :: after ->
  Nat.even (length before) = true ->
  PrimFloat.leb
    (Binary64.pointToSegmentDistance (Binary64.x eraserPos) (Binary64.y eraserPos) x1 y1 x2 y2)
    (radius + Binary64.strokeWidth line / 2)%float = true ->
  Binary64.lineIntersectsEraser line eraserPos radius = true.
Proof.
  intros Hp Heven Hd. unfold Binary64.lineIntersectsEraser. rewrite Hp.
  destruct (even_double_length before Heven) as [n Hn].
  apply (segmentsTouch64_at n); assumption.
Qed.

(** C8, as amended.  The hit test is inclusive at the boundary of the
    distance it computes: when the binary64 value that
    [pointToSegmentDistance] returns for a segment of the stroke equals
    [radius + strokeWidth / 2], or is below it, the answer is true.  In
    particular an eraser centred at (50,50) with radius 10 hits the segment
    (0,50)-(100,50) of width 2.  An eraser whose exact distance to the stroke
    is the threshold can still miss it: see [exact_boundary_is_missed]. *)
Theorem erase_hit_test_boundary_inclusive :
  (forall (line : Binary64.KonvaLine) (eraserPos : Binary64.Point) (radius : float)
          (before : list float) (x1 y1 x2 y2 : float) (after : list float),
      Binary64.points line = before ++ x1 :: y1 :: x2 :: y2 :: after ->
      Nat.even (length before) = true ->
      let distance :=
        Binary64.pointToSegmentDistance (Binary64.x eraserPos) (Binary64.y eraserPos)
          x1 y1 x2 y2 in
      let threshold := (radius + Binary64.strokeWidth line / 2)%float in
      PrimFloat.eqb distance threshold = true \/ PrimFloat.ltb distance threshold = true ->
      Binary64.lineIntersectsEraser line eraserPos radius = true)
  /\ Binary64.lineIntersectsEraser (Binary64.mkKonvaLine [0; 50; 100; 50]%float 2)
       (Binary64.mkPoint 50 50) 10 = true.
Proof.
  split; [|reflexivity].
  intros line eraserPos radius before x1 y1 x2 y2 after Hp Heven distance threshold Hd.
  apply (lineIntersectsEraser64_within line eraserPos radius before x1 y1 x2 y2 after Hp Heven).
  fold distance threshold.
  destruct Hd as [Heq | Hlt].
  - apply leb_of_eqb. exact Heq.
  - revert Hlt. rewrite FloatAxioms.ltb_spec, FloatAxioms.leb_spec.
    unfold SpecFloat.SFltb, SpecFloat.SFleb.
    destruct (SpecFloat.SFcompare _ _) as [[| |]|]; intros H; try discriminate; reflexivity.
Qed.

(** An eraser of radius 10 at (50,39), over the segment (0,50)-(100,50) of
    width 2: the computed distance is 11, the threshold. *)
Lemma erase_hit_test_boundary_witness :
  Binary64.lineIntersectsEraser (Binary64.mkKonvaLine [0; 50; 100; 50]%float 2)
    (Binary64.mkPoint 50 39) 10 = true.
Proof.
  apply (proj1 erase_hit_test_boundary_inclusive
           (Binary64.mkKonvaLine [0; 50; 100; 50]%float 2) (Binary64.mkPoint 50 39) 10%float
           [] 0%float 50%float 100%float 50%float []).
  - reflexivity.
  - reflexivity.
  - left. reflexivity.
Defined.

(** The exact distance from (114,105) to the segment (100,100)-(105,112). *)
Lemma distance_114_105 : pointToSegmentDistance 114 105 100 100 105 112 = 11.
Proof.
  unfold pointToSegmentDistance. cbv zeta.
  rewrite Reqb_false by lra.
  replace ((((114 - 100) * (105 - 100) + (105 - 100) * (112 - 100))
            / ((105 - 100) * (105 - 100) + (112 - 100) * (112 - 100))))
    with (130 / 169) by field.
  rewrite (Rmin_right 1 (130 / 169)) by lra.
  rewrite (Rmax_right 0 (130 / 169)) by lra.
  apply sqrt_eval; [lra | field].
Qed.

(** C8, the claim as written.  The eraser of radius 10 at (114,105) is at
    distance exactly 11 = 10 + 2/2 from the segment (100,100)-(105,112) of
    width 2 (the nearest point of the segment is (1350/13, 1420/13)).
    [pointToSegmentDistance] computes 11.000000000000005 in
    binary64, the test [<=] fails, and the stroke is not hit. *)
Lemma exact_boundary_is_missed :
  pointToSegmentDistance 114 105 100 100 105 112 = 10 + 2 / 2
  /\ (Binary64.pointToSegmentDistance 114 105 100 100 105 112 = 11.000000000000005)%float
  /\ (PrimFloat.leb 11.000000000000005 (10 + 2 / 2) = false)%float
  /\ Binary64.lineIntersectsEraser (Binary64.mkKonvaLine [100; 100; 105; 112]%float 2)
       (Binary64.mkPoint 114 105) 10 = false.
Proof.
  rewrite distance_114_105. repeat split; try reflexivity. lra.
Qed.

(** X2.  In binary64, [lineIntersectsEraser] answers true exactly when, for
    some segment between two consecutive points of the stroke, the value
    [pointToSegmentDistance] computes passes the test [<=] against the
    computed [radius + strokeWidth / 2]. *)
Theorem lineIntersectsEraser_iff (line : Binary64.KonvaLine) (eraserPos : Binary64.Point)
  (radius : float) :
  Binary64.lineIntersectsEraser line eraserPos radius = true
  <-> exists before x1 y1 x2 y2 after,
        Binary64.points line = before ++ x1 :: y1 :: x2 :: y2 :: after
        /\ Nat.even (length before) = true
        /\ PrimFloat.leb
             (Binary64.pointToSegmentDistance (Binary64.x eraserPos) (Binary64.y eraserPos)
                x1 y1 x2 y2)
             (radius + Binary64.strokeWidth line / 2)%float = true.
Proof.
  split.
  - unfold Binary64.lineIntersectsEraser. intros H.
    apply (segmentsTouch64_inv (length (Binary64.points line))); [lia | exact H].
  - intros (before & x1 & y1 & x2 & y2 & after & Hp & Heven & Hd).
    apply (lineIntersectsEraser64_within line eraserPos radius before x1 y1 x2 y2 after);
      assumption.
Qed.

(** ** The classifier's line test in binary64 *)

(** C1, as amended.  A stroke of at least two points for which the
    comparison of the source holds as the runtime evaluates it,
    [width > height * 3.5] or [height > width * 3.5] with the product rounded
    to binary64, is classified as a line, whatever the corner detector would
    say of it. *)
Theorem elongated_stroke_is_line
  (findSignificantCorners : list float -> float -> float -> list Binary64.Point)
  (square : float -> float) (points : list float) :
  (4 <= length points)%nat ->
  let width := Binary64.strokeWidthOf points in
  let height := Binary64.strokeHeightOf points in
  PrimFloat.ltb (height * 3.5) width = true \/ PrimFloat.ltb (width * 3.5) height = true ->
  Binary64.analyzeStrokeForShape findSignificantCorners square points = Some Line.
Proof.
  intros Hlen width height Hratio. unfold Binary64.analyzeStrokeForShape.
  replace (length points <? 4)%nat with false by (symmetry; apply Nat.ltb_ge; lia).
  cbv zeta. fold width height.
  destruct Hratio as [-> | ->]; [|rewrite orb_true_r]; reflexivity.
Qed.

(** The stroke (0,0), (300,10). *)
Lemma elongated_stroke_is_line_witness :
  Binary64.analyzeStrokeForShape (fun _ _ _ => []) (fun v => (v * v)%float)
    [0; 0; 300; 10]%float = Some Line.
Proof.
  apply (elongated_stroke_is_line (fun _ _ _ => []) (fun v => (v * v)%float)
           [0; 0; 300; 10]%float).
  - cbn. lia.
  - left. reflexivity.
Defined.

Lemma not_a_line (findSignificantCorners : list float -> float -> float -> list Binary64.Point)
  (square : float -> float) (points : list float) :
  (4 <= length points)%nat ->
  PrimFloat.ltb (Binary64.strokeHeightOf points * 3.5) (Binary64.strokeWidthOf points) = false ->
  PrimFloat.ltb (Binary64.strokeWidthOf points * 3.5) (Binary64.strokeHeightOf points) = false ->
  Binary64.analyzeStrokeForShape findSignificantCorners square points <> Some Line
  /\ (findSignificantCorners points (Binary64.strokeWidthOf points)
        (Binary64.strokeHeightOf points) = [] ->
      PrimFloat.ltb
        (Binary64.Math_max (Binary64.strokeWidthOf points) (Binary64.strokeHeightOf points)
         / Binary64.Math_min (Binary64.strokeWidthOf points) (Binary64.strokeHeightOf points))
        1.3 = false ->
      Binary64.analyzeStrokeForShape findSignificantCorners square points = Some Oval).
Proof.
  intros Hlen H1 H2. unfold Binary64.analyzeStrokeForShape.
  replace (length points <? 4)%nat with false by (symmetry; apply Nat.ltb_ge; lia).
  cbv zeta. rewrite H1, H2. cbn [orb]. split.
  - repeat match goal with
           | |- (if ?c then _ else _) <> _ => destruct c
           end; discriminate.
  - intros -> ->. reflexivity.
Qed.

(** C1, the claim as written.  The stroke (0,0), (7,2) has a bounding box of
    7 by 2, a ratio of exactly 3.5 to 1; no corner detector makes it a line,
    and with the corner detector of the source (which finds nothing in a
    stroke this short) it is an oval.  Nor is a ratio above 3.5 enough: the
    box of (0,0), (3.5 + 2^-50, 1 + 2^-52) is more than 3.5 times as wide as
    high (the two numbers are given by their mantissa and exponent), but the
    product [height * 3.5] rounds up to the width, and the stroke is not a
    line. *)
Lemma ratio_exactly_3_5_is_not_line :
  (Binary64.strokeWidthOf [0; 0; 7; 2]%float = 7
   /\ Binary64.strokeHeightOf [0; 0; 7; 2]%float = 2
   /\ PrimFloat.eqb 7 (2 * 3.5) = true)%float
  /\ (forall findSignificantCorners square,
        Binary64.analyzeStrokeForShape findSignificantCorners square [0; 0; 7; 2]%float
        <> Some Line)
  /\ (forall findSignificantCorners square,
        findSignificantCorners [0; 0; 7; 2]%float 7%float 2%float = [] ->
        Binary64.analyzeStrokeForShape findSignificantCorners square [0; 0; 7; 2]%float
        = Some Oval)
  /\ Prim2SF 0x1.c000000000002p+1 = SpecFloat.S754_finite false 7881299347898370 (-51)
  /\ Prim2SF 0x1.0000000000001p+0 = SpecFloat.S754_finite false 4503599627370497 (-52)
  /\ 7881299347898370 / 2 ^ 51 > 3.5 * (4503599627370497 / 2 ^ 52)
  /\ (forall findSignificantCorners square,
        Binary64.analyzeStrokeForShape findSignificantCorners square
          [0; 0; 0x1.c000000000002p+1; 0x1.0000000000001p+0]%float
        <> Some Line).
Proof.
  split; [repeat split|].
  split; [|split; [|split; [|split; [|split]]]].
  - intros corners square.
    apply (not_a_line corners square [0; 0; 7; 2]%float); [cbn; lia | reflexivity | reflexivity].
  - intros corners square Hc.
    apply (not_a_line corners square [0; 0; 7; 2]%float);
      [cbn; lia | reflexivity | reflexivity | exact Hc | reflexivity].
  - reflexivity.
  - reflexivity.
  - lra.
  - intros corners square.
    apply (not_a_line corners square
             [0; 0; 0x1.c000000000002p+1; 0x1.0000000000001p+0]%float);
      [cbn; lia | reflexivity | reflexivity].
Qed.

(** * Further properties of the code *)

Lemma clamp_cases (t : R) :
  (t <= 0 /\ Rmax 0 (Rmin 1 t) = 0)
  \/ (1 <= t /\ Rmax 0 (Rmin 1 t) = 1)
  \/ (0 <= t <= 1 /\ Rmax 0 (Rmin 1 t) = t).
Proof.
  destruct (Rle_dec t 0) as [H0|H0].
  - left. split; [assumption|]. rewrite Rmin_right by lra. apply Rmax_left; lra.
  - destruct (Rle_dec 1 t) as [H1|H1].
    + right; left. split; [assumption|]. rewrite Rmin_left by lra. apply Rmax_right; lra.
    + right; right. split; [lra|]. rewrite Rmin_right by lra. apply Rmax_right; lra.
Qed.

Lemma pointToSegmentDistance_bounds (px py x1 y1 x2 y2 : R) :
  0 <= pointToSegmentDistance px py x1 y1 x2 y2
  /\ pointToSegmentDistance px py x1 y1 x2 y2 <= sqrt (dist2 px py x1 y1)
  /\ pointToSegmentDistance px py x1 y1 x2 y2 <= sqrt (dist2 px py x2 y2).
Proof.
  unfold pointToSegmentDistance, dist2. cbv zeta.
  destruct (Req_dec ((x2 - x1) * (x2 - x1) + (y2 - y1) * (y2 - y1)) 0) as [E|E].
  - rewrite Reqb_true by exact E.
    destruct (Rplus_sqr_eq_0 (x2 - x1) (y2 - y1) E) as [Hx Hy].
    replace x2 with x1 by lra. replace y2 with y1 by lra.
    repeat split; try apply Rle_refl. apply sqrt_pos.
  - rewrite Reqb_false by exact E.
    set (u := x2 - x1) in *. set (v := y2 - y1) in *.
    set (a := px - x1). set (b := py - y1).
    set (L := u * u + v * v) in *.
    assert (HL0 : 0 <= L).
    { unfold L. pose proof (Rle_0_sqr u) as Ha. pose proof (Rle_0_sqr v) as Hb.
      unfold Rsqr in Ha, Hb. lra. }
    assert (HL : 0 < L) by (destruct HL0 as [H|H]; [exact H | congruence]).
    set (dot := a * u + b * v).
    assert (Ht : dot = dot / L * L) by (field; lra).
    set (t := dot / L) in *.
    assert (Hexp : forall s,
      (px - (x1 + s * u)) * (px - (x1 + s * u)) + (py - (y1 + s * v)) * (py - (y1 + s * v))
      = a * a + b * b - 2 * s * dot + s * s * L)
      by (intros s; unfold dot, L, a, b; ring).
    assert (H2 : (px - x2) * (px - x2) + (py - y2) * (py - y2)
                 = a * a + b * b - 2 * dot + L)
      by (unfold dot, L, a, b, u, v; ring).
    rewrite H2. fold a b. rewrite Hexp.
    assert (Hsq : 0 <= (1 - t) * (1 - t)) by (apply Rle_0_sqr).
    assert (Ht2 : 0 <= t * t) by (apply Rle_0_sqr).
    split; [apply sqrt_pos|].
    destruct (clamp_cases t) as [[H0 ->] | [[H1 ->] | [H01 ->]]].
    + split; apply sqrt_le_1_alt; rewrite Ht; nra.
    + split; apply sqrt_le_1_alt; rewrite Ht; nra.
    + split; apply sqrt_le_1_alt; rewrite Ht; nra.
Qed.

Lemma clamp_in_unit (t : R) : 0 <= Rmax 0 (Rmin 1 t) <= 1.
Proof. destruct (clamp_cases t) as [[H ->] | [[H ->] | [H ->]]]; lra. Qed.

(** X1.  The answer of [pointToSegmentDistance] is the distance from the point to
    the nearest point of the segment: no point of the segment is nearer, and
    some point of the segment is exactly that far.  A segment of length zero
    is included. *)
Theorem pointToSegmentDistance_is_least (px py x1 y1 x2 y2 : R) :
  (forall s, 0 <= s <= 1 ->
     pointToSegmentDistance px py x1 y1 x2 y2
     <= sqrt (dist2 px py (x (along x1 y1 x2 y2 s)) (y (along x1 y1 x2 y2 s))))
  /\ exists s, 0 <= s <= 1
       /\ pointToSegmentDistance px py x1 y1 x2 y2
          = sqrt (dist2 px py (x (along x1 y1 x2 y2 s)) (y (along x1 y1 x2 y2 s))).
Proof.
  unfold pointToSegmentDistance, dist2, along. cbn [x y]. cbv zeta.
  destruct (Req_dec ((x2 - x1) * (x2 - x1) + (y2 - y1) * (y2 - y1)) 0) as [E|E].
  - rewrite Reqb_true by exact E.
    destruct (Rplus_sqr_eq_0 (x2 - x1) (y2 - y1) E) as [Hx Hy].
    rewrite Hx, Hy. split.
    + intros s _. right. f_equal. ring.
    + exists 0. split; [lra|]. f_equal. ring.
  - rewrite Reqb_false by exact E.
    set (u := x2 - x1) in *. set (v := y2 - y1) in *.
    set (a := px - x1). set (b := py - y1).
    set (L := u * u + v * v) in *.
    assert (HL0 : 0 <= L).
    { unfold L. pose proof (Rle_0_sqr u) as Ha. pose proof (Rle_0_sqr v) as Hb.
      unfold Rsqr in Ha, Hb. lra. }
    assert (HL : 0 < L) by (destruct HL0 as [H|H]; [exact H | congruence]).
    set (dot := a * u + b * v).
    assert (Ht : dot = dot / L * L) by (field; lra).
    set (t := dot / L) in *.
    assert (Hexp : forall s,
      (px - (x1 + s * u)) * (px - (x1 + s * u)) + (py - (y1 + s * v)) * (py - (y1 + s * v))
      = a * a + b * b - 2 * s * dot + s * s * L)
      by (intros s; unfold dot, L, a, b; ring).
    fold a b. split.
    + intros s Hs. rewrite !Hexp. apply sqrt_le_1_alt. rewrite Ht.
      assert (Hdiff : forall c,
        (a * a + b * b - 2 * s * (t * L) + s * s * L)
        - (a * a + b * b - 2 * c * (t * L) + c * c * L)
        = L * ((s - t) * (s - t) - (c - t) * (c - t))) by (intros c; ring).
      assert (Hnear : 0 <= (s - t) * (s - t)
                           - (Rmax 0 (Rmin 1 t) - t) * (Rmax 0 (Rmin 1 t) - t)).
      { destruct (clamp_cases t) as [[H0 ->] | [[H1 ->] | [H01 ->]]].
        - replace ((s - t) * (s - t) - (0 - t) * (0 - t)) with (s * (s - 2 * t)) by ring.
          apply Rmult_le_pos; lra.
        - replace ((s - t) * (s - t) - (1 - t) * (1 - t))
            with ((1 - s) * (2 * t - s - 1)) by ring.
          apply Rmult_le_pos; lra.
        - replace ((s - t) * (s - t) - (t - t) * (t - t)) with ((s - t) * (s - t)) by ring.
          apply Rle_0_sqr. }
      pose proof (Rmult_le_pos L _ HL0 Hnear) as Hprod.
      rewrite <- Hdiff in Hprod. lra.
    + exists (Rmax 0 (Rmin 1 t)). split; [apply clamp_in_unit | reflexivity].
Qed.

(** Eraser: the loop over the segments *)

(** X3.  A stroke of a single point (a tap of the pen) has no segment, so
    the eraser's hit test never finds it, wherever the eraser is and however
    large it is. *)
Theorem single_point_stroke_is_never_erased (line : Node) (eraserPos : Point) (radius : R) :
  (length (nodePoints line) < 4)%nat ->
  lineIntersectsEraser line eraserPos radius = false.
Proof.
  intros Hlen. unfold lineIntersectsEraser.
  destruct (nodePoints line) as [|a [|b [|c [|e rest]]]]; try reflexivity.
  cbn [length] in Hlen. lia.
Qed.

Lemma even_list_last_pair (l : list R) :
  Nat.even (length l) = true -> l <> [] ->
  exists l' a b, l = l' ++ [a; b] /\ Nat.even (length l') = true.
Proof.
  remember (length l) as n eqn:Hn. revert l Hn.
  induction n as [n IH] using (well_founded_induction lt_wf).
  intros l Hn Heven Hne.
  destruct l as [|a [|b rest]]; [contradiction | subst; discriminate |].
  destruct rest as [|c rest'].
  - exists [], a, b. split; reflexivity.
  - destruct (IH (length (c :: rest'))) with (l := c :: rest')
      as (l' & a' & b' & Heq & Hev); try reflexivity.
    + subst n. cbn [length]. lia.
    + subst n. cbn [length Nat.even] in Heven |- *. exact Heven.
    + discriminate.
    + exists (a :: b :: l'), a', b'. split.
      * cbn [app]. rewrite <- Heq. reflexivity.
      * cbn [length Nat.even]. exact Hev.
Qed.

(** X4.  With numbers idealised as reals (distances exact, no rounding): an
    eraser that reaches a point of a stroke of at least two points hits the
    stroke.  In binary64 the computed distance can exceed the exact one by a
    rounding error, so a point exactly at the threshold distance can be
    missed. *)
Theorem eraser_reaching_a_vertex_hits (line : Node) (eraserPos : Point) (radius : R)
  (before : list R) (vx vy : R) (after : list R) :
  nodePoints line = before ++ vx :: vy :: after ->
  Nat.even (length before) = true ->
  Nat.even (length after) = true ->
  (4 <= length (nodePoints line))%nat ->
  sqrt (dist2 (x eraserPos) (y eraserPos) vx vy) <= radius + nodeStrokeWidth line / 2 ->
  lineIntersectsEraser line eraserPos radius = true.
Proof.
  intros Hpts Hbefore Hafter Hlen Hreach.
  destruct after as [|x2 [|y2 after']]; [ | discriminate | ].
  - assert (Hne : before <> []).
    { intros ->. rewrite Hpts in Hlen. cbn in Hlen. lia. }
    destruct (even_list_last_pair before Hbefore Hne) as (l' & x1 & y1 & Heq & Hev).
    apply (lineIntersectsEraser_within line eraserPos radius l' x1 y1 vx vy []).
    + rewrite Hpts, Heq, <- app_assoc. reflexivity.
    + exact Hev.
    + destruct (pointToSegmentDistance_bounds (x eraserPos) (y eraserPos) x1 y1 vx vy)
        as (_ & _ & H2). lra.
  - apply (lineIntersectsEraser_within line eraserPos radius before vx vy x2 y2 after').
    + exact Hpts.
    + exact Hbefore.
    + destruct (pointToSegmentDistance_bounds (x eraserPos) (y eraserPos) vx vy x2 y2)
        as (_ & H1 & _). lra.
Qed.

(** Classifier *)

(** X12.  A stroke of two to eight points is classified as a line, a circle or
    an oval, whatever its shape, and never as a rectangle or a triangle: it
    is too short for the corner detector. *)
Theorem short_stroke_is_never_angular (points : list R) :
  (4 <= length points < 18)%nat ->
  analyzeStrokeForShape points = Some Line
  \/ analyzeStrokeForShape points = Some Circle
  \/ analyzeStrokeForShape points = Some Oval.
Proof.
  intros [Hlo Hhi]. unfold analyzeStrokeForShape.
  replace (length points <? 4)%nat with false by (symmetry; apply Nat.ltb_ge; lia).
  cbv zeta.
  destruct (Rgtb _ _ || Rgtb _ _); [left; reflexivity|].
  rewrite no_corners_below_18 by exact Hhi.
  cbn [length Nat.eqb Nat.leb andb].
  destruct (Reqb _ 0); [right; right; reflexivity|].
  destruct (Rltb _ _); [right; left | right; right]; reflexivity.
Qed.

Lemma analyze_some (points : list R) :
  (4 <= length points)%nat -> exists kind, analyzeStrokeForShape points = Some kind.
Proof.
  intros Hlen. unfold analyzeStrokeForShape.
  replace (length points <? 4)%nat with false by (symmetry; apply Nat.ltb_ge; lia).
  cbv zeta.
  repeat match goal with
         | |- exists _, (if ?c then _ else _) = _ => destruct c
         end; eexists; reflexivity.
Qed.

(** What the snap leaves behind: the stroke is gone and a shape of the
    detected kind, drawn with the pen's colour and thickness at opacity 1,
    is the last child of the layer. *)
Lemma triggerShapeDetection_snaps (d : DrawingTools) (l : NodeRef) (n : Node)
  (kind : ShapeType) :
  currentLine d = Some l ->
  isInShapeMode (hold d) = false ->
  layer_get l (layer d) = Some n ->
  (6 <= length (nodePoints n))%nat ->
  analyzeStrokeForShape (nodePoints n) = Some kind ->
  let d' := triggerShapeDetection d in
  isInShapeMode (hold d') = true
  /\ detectedShapeType (hold d') = Some kind
  /\ currentLine d' = None
  /\ currentShape d' = Some (nextRef (host d))
  /\ exists shape,
       layer d' = layer_destroy l (layer d) ++ [(nextRef (host d), shape)]
       /\ nodeName shape = "stroke"%string
       /\ nodeStroke shape = color (pen (settings d))
       /\ nodeStrokeWidth shape = thickness (pen (settings d))
       /\ nodeOpacity shape = 1%float
       /\ drawnAs kind (nodeGeometry shape).
Proof.
  intros Hline Hmode Hnode Hlen Hkind d'. subst d'.
  unfold triggerShapeDetection. rewrite Hline, Hmode, Hnode.
  replace (length (nodePoints n) <? 6)%nat with false
    by (symmetry; apply Nat.ltb_ge; exact Hlen).
  rewrite Hkind.
  destruct d as [ly st tool dr cl cs t0 sp [lp lt timer mode ty an bo] es ls
                   [nr nt pt nf cc]].
  destruct kind.
  all: cbv beta iota zeta delta
         [createDetectedShape addNode on_hold on_layer on_host hold layer host settings
          set_hold set_layer set_host set_currentLine set_currentShape
          set_detectedShapeType set_isInShapeMode set_shapeBounds set_shapeAnchor
          set_nextRef shapeBounds detectedShapeType currentLine currentShape isInShapeMode
          nextRef layer_add detectedNode fst snd
          lastMovePos lastMoveTime shapeHoldTimer shapeAnchor
          currentTool isDrawing shapeStartTime shapeStartPoints eraserSession lasso
          nextTimer pendingTimers nextFrame contentChanges].
  all: repeat split; eexists; repeat split.
Qed.

(** X13.  Once the hold timer fires on a live stroke of at least three
    points, the stroke is always replaced by a shape of the kind the
    classifier returns: the classifier never declines.  The shape becomes
    the last child, named 'stroke', in the pen's colour and thickness, at
    opacity 1, and its geometry is the one of that kind (a circle, an
    ellipse, a rectangle, a closed line for a triangle, an open line for a
    line). *)
Theorem hold_always_snaps (d : DrawingTools) (l : NodeRef) (n : Node) :
  currentLine d = Some l ->
  isInShapeMode (hold d) = false ->
  layer_get l (layer d) = Some n ->
  (6 <= length (nodePoints n))%nat ->
  let d' := triggerShapeDetection d in
  exists kind shape,
    analyzeStrokeForShape (nodePoints n) = Some kind
    /\ isInShapeMode (hold d') = true
    /\ detectedShapeType (hold d') = Some kind
    /\ currentLine d' = None
    /\ currentShape d' = Some (nextRef (host d))
    /\ layer d' = layer_destroy l (layer d) ++ [(nextRef (host d), shape)]
    /\ nodeName shape = "stroke"%string
    /\ nodeStroke shape = color (pen (settings d))
    /\ nodeStrokeWidth shape = thickness (pen (settings d))
    /\ nodeOpacity shape = 1%float
    /\ drawnAs kind (nodeGeometry shape).
Proof.
  intros Hline Hmode Hnode Hlen.
  destruct (analyze_some (nodePoints n)) as [kind Hkind]; [lia|].
  destruct (triggerShapeDetection_snaps d l n kind Hline Hmode Hnode Hlen Hkind)
    as (H1 & H2 & H3 & H4 & shape & H5 & H6 & H7 & H8 & H9 & H10).
  cbv zeta. exists kind, shape. repeat split; assumption.
Qed.

(** Corner detector *)

Lemma tooClose_false (m : R) (corners : list Point) (p : Point) :
  tooClose m corners p = false -> Forall (fun corner => apart m corner p) corners.
Proof.
  unfold tooClose. induction corners as [|c cs IH]; cbn [existsb]; intros H.
  - constructor.
  - apply orb_false_iff in H. destruct H as [Hc Hcs].
    constructor; [|apply IH; exact Hcs].
    unfold apart. unfold Rltb in Hc. destruct (Rlt_dec _ _); [discriminate | lra].
Qed.

Lemma ForallOrdPairs_snoc {A : Type} (R : A -> A -> Prop) (l : list A) (a : A) :
  ForallOrdPairs R l -> Forall (fun b => R b a) l -> ForallOrdPairs R (l ++ [a]).
Proof.
  induction 1 as [|b l Hb Hl IH]; intros Hall; cbn [app].
  - constructor; constructor.
  - inversion Hall; subst. constructor.
    + apply Forall_app. split; [exact Hb | constructor; [assumption | constructor]].
    + apply IH. assumption.
Qed.

Lemma pick_corners_from (m : R) (candidates : list Candidate) :
  forall acc,
    ForallOrdPairs (apart m) acc ->
    ForallOrdPairs (apart m)
      (fold_left
         (fun corners candidate =>
            if tooClose m corners (point candidate) then corners
            else corners ++ [point candidate])
         candidates acc).
Proof.
  induction candidates as [|c cs IH]; intros acc Hacc; cbn [fold_left]; [exact Hacc|].
  apply IH. destruct (tooClose m acc (point c)) eqn:E; [exact Hacc|].
  apply ForallOrdPairs_snoc; [exact Hacc | apply tooClose_false; exact E].
Qed.

(** X10.  Any two corners [findSignificantCorners] returns are at least 15% of
    the smaller side of the bounding box apart. *)
Theorem corners_are_apart (points : list R) (width height : R) :
  ForallOrdPairs (apart (Rmin width height * 0.15))
    (findSignificantCorners points width height).
Proof.
  unfold findSignificantCorners. cbv zeta.
  destruct (length points <? 12)%nat; [constructor|].
  apply pick_corners_from. constructor.
Qed.

Lemma candidates_from_sound (points : list R) (step : nat) :
  forall (fuel i : nat) (c : Candidate),
    In c (candidates_from fuel points step i) ->
    exists m,
      let k := (i + 2 * m)%nat in
      point c = vertex points k
      /\ (k + step * 2 + 1 < length points)%nat
      /\ 15 < getAngle (vertex points (k - step * 2)) (vertex points k)
                       (vertex points (Nat.min (length points - 2) (k + step * 2)))
            < 155.
Proof.
  induction fuel as [|fuel IH]; intros i c Hin; [contradiction|].
  cbn [candidates_from] in Hin.
  destruct (i <? length points - step * 2 - 1)%nat eqn:Hi; [|contradiction].
  apply Nat.ltb_lt in Hi.
  apply in_app_or in Hin. destruct Hin as [Hin|Hin].
  - cbv zeta in Hin.
    destruct (Rltb _ _ && Rgtb _ _) eqn:Hangle; [|contradiction].
    destruct Hin as [<-|[]].
    apply andb_true_iff in Hangle. destruct Hangle as [Hlt Hgt].
    apply Rltb_spec in Hlt. apply Rgtb_spec in Hgt.
    exists 0%nat. cbv zeta. replace (i + 2 * 0)%nat with i by lia.
    cbn [point]. repeat split; try lia.
    + unfold vertex. cbn [Nat.max] in Hgt. exact Hgt.
    + unfold vertex. cbn [Nat.max] in Hlt. lra.
  - destruct (IH (i + 2)%nat c Hin) as [m Hm]. cbv zeta in Hm.
    exists (S m). cbv zeta. replace (i + 2 * S m)%nat with (i + 2 + 2 * m)%nat by lia.
    exact Hm.
Qed.

Lemma in_insert_by_angle (a c : Candidate) (l : list Candidate) :
  In c (insert_by_angle a l) -> c = a \/ In c l.
Proof.
  induction l as [|d l IH]; cbn [insert_by_angle]; intros H.
  - destruct H as [<-|[]]. left; reflexivity.
  - destruct (Rltb (angle d) (angle a)).
    + destruct H as [<-|H]; [right; left; reflexivity|].
      destruct (IH H) as [->|H']; [left; reflexivity | right; right; exact H'].
    + destruct H as [<-|H]; [left; reflexivity | right; exact H].
Qed.

Lemma in_sort_by_angle (c : Candidate) (l : list Candidate) :
  In c (sort_by_angle l) -> In c l.
Proof.
  unfold sort_by_angle. induction l as [|a l IH]; cbn [fold_right]; intros H.
  - contradiction.
  - apply in_insert_by_angle in H. destruct H as [->|H]; [left; reflexivity|].
    right. apply IH. exact H.
Qed.

Lemma in_pick_corners (m : R) (candidates : list Candidate) (p : Point) :
  forall acc,
    In p (fold_left
            (fun corners candidate =>
               if tooClose m corners (point candidate) then corners
               else corners ++ [point candidate])
            candidates acc) ->
    In p acc \/ exists c, In c candidates /\ p = point c.
Proof.
  induction candidates as [|c cs IH]; intros acc H; cbn [fold_left] in H.
  - left; exact H.
  - apply IH in H. destruct H as [H|[c' [Hc' ->]]].
    + destruct (tooClose m acc (point c)); [left; exact H|].
      apply in_app_or in H. destruct H as [H|[<-|[]]]; [left; exact H|].
      right. exists c. split; [left; reflexivity | reflexivity].
    + right. exists c'. split; [right; exact Hc' | reflexivity].
Qed.

(** X11.  Every corner [findSignificantCorners] returns is a captured point of
    the stroke, at least two steps away from both ends, where the stroke
    turns by an angle strictly between 15 and 155 degrees. *)
Theorem corners_are_sharp_vertices (points : list R) (width height : R) (p : Point) :
  In p (findSignificantCorners points width height) ->
  exists i, sharpAt points i /\ p = vertex points i.
Proof.
  unfold findSignificantCorners. cbv zeta.
  destruct (length points <? 12)%nat; [contradiction|].
  intros H. apply in_pick_corners in H. destruct H as [[]|[c [Hc ->]]].
  apply in_sort_by_angle in Hc.
  apply candidates_from_sound in Hc. destruct Hc as [m (Hp & Hend & Hangle)].
  set (step := Nat.max 4 (length points / 40)) in *.
  exists (step * 2 + 2 * m)%nat. split; [|exact Hp].
  unfold sharpAt. fold step. repeat split; try lia; try apply Hangle.
  rewrite Nat.even_add, Nat.even_mul, Nat.even_mul. cbn. rewrite orb_true_r. reflexivity.
Qed.

(** Resizer *)

Section ResizeRectangle.

Variables (d : DrawingTools) (shape : NodeRef) (anchor : Point) (node : Node) (w h : R).
Hypothesis current : currentShape d = Some shape.
Hypothesis anchored : shapeAnchor (hold d) = Some anchor.
Hypothesis onLayer : layer_get shape (layer d) = Some node.
Hypothesis detected : detectedShapeType (hold d) = Some Rectangle.
Hypothesis isRect : nodeGeometry node = GRect w h.

(** X16.  A rectangle being resized stays centred on its anchor, with a width
    and height that are not negative, and has a corner under the pointer. *)
Theorem resized_rectangle_is_centred_on_anchor (pos : Point) :
  exists node' w' h',
    layer_get shape (layer (resizeShape pos d)) = Some node'
    /\ nodeGeometry node' = GRect w' h'
    /\ 0 <= w' /\ 0 <= h'
    /\ nodeX node' + w' / 2 = x anchor
    /\ nodeY node' + h' / 2 = y anchor
    /\ (x pos = nodeX node' \/ x pos = nodeX node' + w')
    /\ (y pos = nodeY node' \/ y pos = nodeY node' + h').
Proof.
  unfold resizeShape. rewrite current, anchored, detected.
  cbn [on_layer set_layer layer]. rewrite layer_get_update, onLayer. cbn [option_map].
  do 3 eexists. split; [reflexivity|].
  split.
  { unfold set_height, set_width. cbn. rewrite isRect. cbn. reflexivity. }
  pose proof (Rabs_pos (x pos - x anchor)) as Hax.
  pose proof (Rabs_pos (y pos - y anchor)) as Hay.
  unfold set_height, set_width. cbn. rewrite isRect. cbn.
  unfold Rltb.
  destruct (Rlt_dec (x pos - x anchor) 0), (Rlt_dec (y pos - y anchor) 0).
  all: repeat split; try lra.
  all: try (rewrite ?(Rabs_left (x pos - x anchor)), ?(Rabs_left (y pos - y anchor)) by lra;
            rewrite ?(Rabs_right (x pos - x anchor)), ?(Rabs_right (y pos - y anchor)) by lra;
            lra).
Qed.

End ResizeRectangle.

(** ** Eraser: marking and deleting *)

Lemma map_fst_layer_update (r : NodeRef) (f : Node -> Node) (l : Layer) :
  map fst (layer_update r f l) = map fst l.
Proof.
  unfold layer_update. rewrite map_map. apply map_ext.
  intros [k n]. cbn. destruct (k =? r)%nat; reflexivity.
Qed.

Lemma eraseChild_cases (pos : Point) (radius : R) (d : DrawingTools) (c : NodeRef * Node) :
  (eraseChild pos radius d c = d
   /\ forall child, layer_get (fst c) (layer d) = Some child ->
        nodeName child = "stroke"%string -> marked (fst c) d = false ->
        intersectsEraser child pos radius = false)
  \/ (exists child,
        layer_get (fst c) (layer d) = Some child
        /\ nodeName child = "stroke"%string
        /\ marked (fst c) d = false
        /\ intersectsEraser child pos radius = true
        /\ eraseChild pos radius d c
           = on_layer (layer_update (fst c) greyedOut)
               (on_eraser
                  (fun e =>
                     set_originalOpacities
                       (map_set (fst c) (nodeOpacity child) (originalOpacities e))
                       (set_markedForDeletion (markedForDeletion e ++ [fst c]) e)) d)).
Proof.
  unfold eraseChild, marked. cbv zeta.
  destruct (layer_get (fst c) (layer d)) as [child|] eqn:Hget.
  - destruct (String.eqb (nodeName child) "stroke") eqn:Hname; cbn [andb].
    + destruct (existsb _ _) eqn:Hm; cbn [negb].
      * left. split; [reflexivity|]. intros ch _ _ Hc. discriminate.
      * fold (intersectsEraser child pos radius).
        destruct (intersectsEraser child pos radius) eqn:Hhit.
        -- right. exists child. apply String.eqb_eq in Hname.
           repeat split; try assumption; reflexivity.
        -- left. split; [reflexivity|]. intros ch E _ _. injection E as <-. exact Hhit.
    + left. split; [reflexivity|]. intros ch E Hn _. injection E as <-.
      apply String.eqb_eq in Hn. rewrite Hn in Hname. discriminate.
  - left. split; [reflexivity|]. intros ch E. discriminate.
Qed.

Lemma existsb_eqb_app (r s : NodeRef) (l : list NodeRef) :
  existsb (Nat.eqb r) (l ++ [s]) = existsb (Nat.eqb r) l || (r =? s)%nat.
Proof. rewrite existsb_app. cbn. rewrite orb_false_r. reflexivity. Qed.

(** One child's turn changes nothing for a node that is not that child. *)
Lemma eraseChild_other (pos : Point) (radius : R) (d : DrawingTools) (c : NodeRef * Node)
  (r : NodeRef) :
  fst c <> r ->
  layer_get r (layer (eraseChild pos radius d c)) = layer_get r (layer d)
  /\ marked r (eraseChild pos radius d c) = marked r d.
Proof.
  intros Hne.
  destruct (eraseChild_cases pos radius d c) as [[-> _] | [child (_ & _ & _ & _ & ->)]].
  - split; reflexivity.
  - unfold marked. destruct d as [ly st tool dr cl cs t0 sp h [lep tr mk oo] ls hs].
    cbn [on_layer on_eraser layer set_layer set_eraserSession eraserSession
         markedForDeletion set_markedForDeletion set_originalOpacities originalOpacities].
    split.
    + apply layer_get_update_other. congruence.
    + rewrite existsb_eqb_app.
      replace (r =? fst c)%nat with false by (symmetry; apply Nat.eqb_neq; congruence).
      apply orb_false_r.
Qed.

(** Nothing changes for a node that is already marked. *)
Lemma eraseChild_marked (pos : Point) (radius : R) (d : DrawingTools) (c : NodeRef * Node)
  (r : NodeRef) :
  marked r d = true ->
  layer_get r (layer (eraseChild pos radius d c)) = layer_get r (layer d)
  /\ marked r (eraseChild pos radius d c) = true.
Proof.
  intros Hm. destruct (Nat.eq_dec (fst c) r) as [E|Hne].
  - destruct (eraseChild_cases pos radius d c) as [[-> _] | [child (_ & _ & Hf & _)]].
    + split; [reflexivity | exact Hm].
    + rewrite E in Hf. congruence.
  - destruct (eraseChild_other pos radius d c r Hne) as [-> ->]. split; [reflexivity | exact Hm].
Qed.

Lemma fold_eraseChild_marked (pos : Point) (radius : R) (r : NodeRef)
  (children : list (NodeRef * Node)) :
  forall d,
    marked r d = true ->
    layer_get r (layer (fold_left (eraseChild pos radius) children d)) = layer_get r (layer d)
    /\ marked r (fold_left (eraseChild pos radius) children d) = true.
Proof.
  induction children as [|c cs IH]; intros d Hm; cbn [fold_left].
  - split; [reflexivity | exact Hm].
  - destruct (eraseChild_marked pos radius d c r Hm) as [Hl Hm'].
    destruct (IH _ Hm') as [Hl' Hm'']. split; [congruence | exact Hm''].
Qed.

(** A node that the eraser misses, or that is not a stroke, is left alone by
    one child's turn. *)
Lemma eraseChild_missed (pos : Point) (radius : R) (d : DrawingTools) (c : NodeRef * Node)
  (r : NodeRef) (n : Node) :
  layer_get r (layer d) = Some n ->
  intersectsEraser n pos radius = false \/ nodeName n <> "stroke"%string ->
  layer_get r (layer (eraseChild pos radius d c)) = Some n
  /\ marked r (eraseChild pos radius d c) = marked r d.
Proof.
  intros Hn Hmiss. destruct (Nat.eq_dec (fst c) r) as [E|Hne].
  - destruct (eraseChild_cases pos radius d c) as [[-> _] | [child (Hc & Hname & _ & Hhit & _)]].
    + split; [exact Hn | reflexivity].
    + rewrite E, Hn in Hc. injection Hc as <-. destruct Hmiss; congruence.
  - destruct (eraseChild_other pos radius d c r Hne) as [-> ->]. split; [exact Hn | reflexivity].
Qed.

Lemma fold_eraseChild_missed (pos : Point) (radius : R) (r : NodeRef) (n : Node)
  (children : list (NodeRef * Node)) :
  intersectsEraser n pos radius = false \/ nodeName n <> "stroke"%string ->
  forall d,
    layer_get r (layer d) = Some n ->
    layer_get r (layer (fold_left (eraseChild pos radius) children d)) = Some n
    /\ marked r (fold_left (eraseChild pos radius) children d) = marked r d.
Proof.
  intros Hmiss. induction children as [|c cs IH]; intros d Hn; cbn [fold_left].
  - split; [exact Hn | reflexivity].
  - destruct (eraseChild_missed pos radius d c r n Hn Hmiss) as [Hl Hm].
    destruct (IH _ Hl) as [Hl' Hm']. split; [exact Hl' | congruence].
Qed.

Lemma layer_get_split (r : NodeRef) (n : Node) (l : Layer) :
  layer_get r l = Some n ->
  exists before after, l = before ++ (r, n) :: after /\ ~ In r (map fst before).
Proof.
  unfold layer_get. induction l as [|[k m] l IH]; cbn [find fst]; intros H.
  - discriminate.
  - destruct (k =? r)%nat eqn:E.
    + apply Nat.eqb_eq in E. subst k. cbn in H. injection H as ->.
      exists [], l. split; [reflexivity | intros []].
    + destruct (IH H) as [b [a [-> Hb]]]. exists ((k, m) :: b), a. split; [reflexivity|].
      cbn. intros [->|Hin]; [rewrite Nat.eqb_refl in E; discriminate | exact (Hb Hin)].
Qed.

Lemma fold_eraseChild_before (pos : Point) (radius : R) (r : NodeRef)
  (children : list (NodeRef * Node)) :
  ~ In r (map fst children) ->
  forall d,
    layer_get r (layer (fold_left (eraseChild pos radius) children d)) = layer_get r (layer d)
    /\ marked r (fold_left (eraseChild pos radius) children d) = marked r d.
Proof.
  induction children as [|c cs IH]; intros Hnotin d; cbn [fold_left].
  - split; reflexivity.
  - cbn in Hnotin.
    destruct (eraseChild_other pos radius d c r) as [Hl Hm]; [tauto|].
    destruct (IH (fun H => Hnotin (or_intror H)) (eraseChild pos radius d c)) as [Hl' Hm'].
    split; congruence.
Qed.

(** A stroke under the eraser is greyed out and marked. *)
Lemma checkEraser_hit (pos : Point) (d : DrawingTools) (r : NodeRef) (n : Node) :
  layer_get r (layer d) = Some n ->
  nodeName n = "stroke"%string ->
  marked r d = false ->
  intersectsEraser n pos (eraserRadiusOf d) = true ->
  layer_get r (layer (checkEraserIntersections pos d)) = Some (greyedOut n)
  /\ marked r (checkEraserIntersections pos d) = true.
Proof.
  intros Hn Hname Hm Hhit. unfold checkEraserIntersections. cbv zeta.
  fold (eraserRadiusOf d). set (radius := eraserRadiusOf d) in *. clearbody radius.
  destruct (layer_get_split r n (layer d) Hn) as [before [after [-> Hbefore]]].
  rewrite fold_left_app. cbn [fold_left].
  destruct (fold_eraseChild_before pos radius r before Hbefore d) as [Hl0 Hm0].
  set (d0 := fold_left (eraseChild pos radius) before d) in *. clearbody d0.
  rewrite Hn in Hl0. rewrite Hm in Hm0.
  destruct (eraseChild_cases pos radius d0 (r, n)) as [[_ Hno] | [child (Hc & _ & _ & _ & E)]].
  - cbn [fst] in Hno. rewrite (Hno n Hl0 Hname Hm0) in Hhit. discriminate.
  - cbn [fst] in Hc, E. rewrite Hl0 in Hc. injection Hc as <-.
    set (d1 := eraseChild pos radius d0 (r, n)) in *.
    assert (Hl1 : layer_get r (layer d1) = Some (greyedOut n)).
    { rewrite E. destruct d0 as [ly st tool dr cl cs t0 sp h es ls hs].
      cbn [on_layer on_eraser layer set_layer set_eraserSession] in *.
      rewrite layer_get_update, Hl0. reflexivity. }
    assert (Hm1 : marked r d1 = true).
    { rewrite E. unfold marked. destruct d0 as [ly st tool dr cl cs t0 sp h [lep tr mk oo] ls hs].
      cbn. rewrite existsb_eqb_app, Nat.eqb_refl. apply orb_true_r. }
    clearbody d1.
    destruct (fold_eraseChild_marked pos radius r after d1 Hm1) as [-> ->].
    split; [exact Hl1 | reflexivity].
Qed.

(** A node the eraser misses, and any node that is not a stroke, is left
    as it is. *)
Lemma checkEraser_missed (pos : Point) (d : DrawingTools) (r : NodeRef) (n : Node) :
  layer_get r (layer d) = Some n ->
  intersectsEraser n pos (eraserRadiusOf d) = false \/ nodeName n <> "stroke"%string ->
  layer_get r (layer (checkEraserIntersections pos d)) = Some n
  /\ marked r (checkEraserIntersections pos d) = marked r d.
Proof.
  intros Hn Hmiss. unfold checkEraserIntersections. cbv zeta.
  apply fold_eraseChild_missed; assumption.
Qed.

Lemma eraseChild_refs (pos : Point) (radius : R) (d : DrawingTools) (c : NodeRef * Node) :
  map fst (layer (eraseChild pos radius d c)) = map fst (layer d).
Proof.
  destruct (eraseChild_cases pos radius d c) as [[-> _] | [child (_ & _ & _ & _ & ->)]].
  - reflexivity.
  - destruct d as [ly st tool dr cl cs t0 sp h es ls hs].
    cbn [on_layer on_eraser layer set_layer set_eraserSession].
    apply map_fst_layer_update.
Qed.

Lemma checkEraserIntersections_refs (pos : Point) (d : DrawingTools) :
  map fst (layer (checkEraserIntersections pos d)) = map fst (layer d).
Proof.
  unfold checkEraserIntersections. cbv zeta.
  generalize (eraserThickness (eraser (settings d)) / 2). intros radius.
  generalize (layer d) at 1. intros children. revert d.
  induction children as [|c cs IH]; intros d; cbn [fold_left]; [reflexivity|].
  rewrite IH. apply eraseChild_refs.
Qed.

(** X6.  While the eraser is down no node leaves the layer: pressing adds
    the trail as the last child, moving adds and removes nothing. *)
Theorem erasing_removes_nothing_until_release (pos : Point) (d : DrawingTools) :
  map fst (layer (startErasing pos d)) = map fst (layer d) ++ [nextRef (host d)]
  /\ map fst (layer (eraseAtPosition pos d)) = map fst (layer d).
Proof.
  split.
  - unfold startErasing, addNode. cbv zeta. cbn [fst snd].
    rewrite checkEraserIntersections_refs.
    destruct d as [ly st tool dr cl cs t0 sp h es ls hs]. cbn.
    unfold layer_add. rewrite map_app. reflexivity.
  - unfold eraseAtPosition. cbv zeta.
    destruct (eraserTrail (eraserSession d)) as [trail|].
    + destruct d as [ly st tool dr cl cs t0 sp h es ls hs].
      cbn [on_eraser layer set_eraserSession].
      rewrite checkEraserIntersections_refs. cbn -[layer_update]. apply map_fst_layer_update.
    + destruct d as [ly st tool dr cl cs t0 sp h es ls hs].
      cbn [on_eraser layer set_eraserSession].
      apply checkEraserIntersections_refs.
Qed.

Lemma fold_on_layer_gen (g : NodeRef -> Layer -> Layer) (refs : list NodeRef) :
  forall d : DrawingTools,
    fold_left (fun d s => on_layer (g s) d) refs d
    = set_layer (fold_left (fun l s => g s l) refs (layer d)) d.
Proof.
  induction refs as [|s refs IH]; intros d; cbn [fold_left].
  - symmetry. apply set_layer_same.
  - rewrite IH. destruct d; reflexivity.
Qed.

Lemma fold_layer_destroy (refs : list NodeRef) :
  forall l : Layer,
    fold_left (fun l s => layer_destroy s l) refs l
    = filter (fun c => negb (existsb (Nat.eqb (fst c)) refs)) l.
Proof.
  induction refs as [|s refs IH]; intros l; cbn [fold_left].
  - cbn. rewrite forallb_filter_id; [reflexivity|].
    apply forallb_forall. reflexivity.
  - rewrite IH. unfold layer_destroy.
    induction l as [|[k n] l IHl]; [reflexivity|].
    cbn [filter fst existsb]. destruct (k =? s)%nat eqn:E; cbn [negb orb filter fst].
    + exact IHl.
    + destruct (existsb (Nat.eqb k) refs); cbn [negb]; [exact IHl | f_equal; exact IHl].
Qed.

(** X7.  Lifting the eraser removes the trail and exactly the marked nodes,
    keeps the others in their order, and ends the session. *)
Theorem finishErasing_removes_the_marked (d : DrawingTools) :
  layer (finishErasing d)
  = filter (fun c => negb (marked (fst c) d))
      (match eraserTrail (eraserSession d) with
       | Some trail => layer_destroy trail (layer d)
       | None => layer d
       end)
  /\ markedForDeletion (eraserSession (finishErasing d)) = []
  /\ eraserTrail (eraserSession (finishErasing d)) = None
  /\ lastEraserPos (eraserSession (finishErasing d)) = None.
Proof.
  unfold finishErasing, marked. cbv zeta.
  rewrite fold_on_layer_gen.
  destruct d as [ly st tool dr cl cs t0 sp h [lep tr mk oo] ls hs].
  destruct tr as [trail|]; cbn -[layer_destroy filter existsb fold_left].
  all: rewrite fold_layer_destroy; repeat split.
Qed.

(** X5.  What one pass of the eraser does to a node that is not yet marked:
    a node named 'stroke' that the eraser touches is greyed out (colour
    #888888, opacity 0.3) and marked for deletion; any other node is left as
    it is and stays unmarked. *)
Theorem eraser_marks_exactly_the_hit_strokes (pos : Point) (d : DrawingTools)
  (r : NodeRef) (n : Node) :
  layer_get r (layer d) = Some n ->
  marked r d = false ->
  let hit := String.eqb (nodeName n) "stroke"
             && intersectsEraser n pos (eraserRadiusOf d) in
  layer_get r (layer (checkEraserIntersections pos d))
  = Some (if hit then greyedOut n else n)
  /\ marked r (checkEraserIntersections pos d) = hit.
Proof.
  intros Hn Hm hit. subst hit.
  destruct (String.eqb (nodeName n) "stroke") eqn:Hname; cbn [andb].
  - apply String.eqb_eq in Hname.
    destruct (intersectsEraser n pos (eraserRadiusOf d)) eqn:Hhit.
    + apply checkEraser_hit; assumption.
    + rewrite <- Hm. apply checkEraser_missed; [assumption | left; assumption].
  - rewrite <- Hm. apply checkEraser_missed; [assumption|].
    right. intros E. rewrite E in Hname. discriminate.
Qed.

Lemma eraserFrame_refl (d : DrawingTools) : eraserFrame d d.
Proof. unfold eraserFrame. destruct d; reflexivity. Qed.

Lemma eraserFrame_trans (a b c : DrawingTools) :
  eraserFrame a b -> eraserFrame b c -> eraserFrame a c.
Proof.
  unfold eraserFrame. intros Hab Hbc. rewrite Hbc at 1. rewrite Hab at 1.
  destruct a; reflexivity.
Qed.

Lemma eraseChild_frame (pos : Point) (radius : R) (d : DrawingTools) (c : NodeRef * Node) :
  eraserFrame d (eraseChild pos radius d c).
Proof.
  destruct (eraseChild_cases pos radius d c) as [[-> _] | [child (_ & _ & _ & _ & ->)]].
  - apply eraserFrame_refl.
  - unfold eraserFrame. destruct d; reflexivity.
Qed.

Lemma checkEraserIntersections_frame (pos : Point) (d : DrawingTools) :
  eraserFrame d (checkEraserIntersections pos d).
Proof.
  unfold checkEraserIntersections. cbv zeta.
  generalize (eraserThickness (eraser (settings d)) / 2). intros radius.
  generalize (layer d) at 1. intros children. revert d.
  induction children as [|c cs IH]; intros d; cbn [fold_left].
  - apply eraserFrame_refl.
  - eapply eraserFrame_trans; [apply eraseChild_frame | apply IH].
Qed.

Lemma eraseChild_trail (pos : Point) (radius : R) (d : DrawingTools) (c : NodeRef * Node) :
  eraserTrail (eraserSession (eraseChild pos radius d c)) = eraserTrail (eraserSession d).
Proof.
  destruct (eraseChild_cases pos radius d c) as [[-> _] | [child (_ & _ & _ & _ & ->)]].
  - reflexivity.
  - destruct d as [ly st tool dr cl cs t0 sp h [lep tr mk oo] ls hs]. reflexivity.
Qed.

Lemma checkEraserIntersections_trail (pos : Point) (d : DrawingTools) :
  eraserTrail (eraserSession (checkEraserIntersections pos d))
  = eraserTrail (eraserSession d).
Proof.
  unfold checkEraserIntersections. cbv zeta.
  generalize (eraserThickness (eraser (settings d)) / 2). intros radius.
  generalize (layer d) at 1. intros children. revert d.
  induction children as [|c cs IH]; intros d; cbn [fold_left]; [reflexivity|].
  rewrite IH. apply eraseChild_trail.
Qed.

Lemma layer_get_filter_refs (P : NodeRef -> bool) (r : NodeRef) (l : Layer) :
  layer_get r (filter (fun c => P (fst c)) l) = if P r then layer_get r l else None.
Proof.
  unfold layer_get. induction l as [|[k n] l IH]; simpl.
  - destruct (P r); reflexivity.
  - destruct (k =? r)%nat eqn:E.
    + apply Nat.eqb_eq in E. subst k. destruct (P r) eqn:HP.
      * simpl. rewrite Nat.eqb_refl. reflexivity.
      * exact IH.
    + destruct (P k); [simpl; rewrite E|]; exact IH.
Qed.

(** X8.  A tap of the eraser (press and release at one place) removes the
    strokes under it and leaves every other node of the layer as it was. *)
Theorem eraser_tap_removes_exactly_the_hit_strokes (stage : Stage) (now : nat)
  (pos : Point) (d : DrawingTools) (r : NodeRef) (n : Node) :
  currentTool d = Eraser ->
  getScaledPointerPosition stage = Some pos ->
  layer_get r (layer d) = Some n ->
  r <> nextRef (host d) ->
  layer_get r (layer (handlePointerUp stage (handlePointerDown stage now d)))
  = if String.eqb (nodeName n) "stroke" && intersectsEraser n pos (eraserRadiusOf d)
    then None else Some n.
Proof.
  intros Htool Hpos Hn Hfresh.
  unfold handlePointerDown. rewrite Htool, Hpos.
  replace (currentTool (set_isDrawing true d)) with Eraser
    by (destruct d; cbn in *; congruence).
  unfold startErasing, addNode. cbv zeta. cbn [fst snd].
  set (d1 := on_eraser (set_eraserTrail _) _).
  assert (Hl1 : layer_get r (layer d1) = Some n).
  { subst d1. destruct d as [ly st tool dr cl cs t0 sp h es ls hs].
    cbn -[layer_get]. unfold layer_add. apply layer_get_app. exact Hn. }
  assert (Hm1 : marked r d1 = false).
  { subst d1. destruct d as [ly st tool dr cl cs t0 sp h [lep tr mk oo] ls hs]. reflexivity. }
  assert (Hrad : eraserRadiusOf d1 = eraserRadiusOf d).
  { subst d1. destruct d as [ly st tool dr cl cs t0 sp h [lep tr mk oo] ls hs]. reflexivity. }
  assert (Htrail : eraserTrail (eraserSession d1) = Some (nextRef (host d))).
  { subst d1. destruct d as [ly st tool dr cl cs t0 sp h [lep tr mk oo] ls hs]. reflexivity. }
  assert (Hdraw1 : isDrawing d1 = true /\ currentTool d1 = Eraser).
  { subst d1. destruct d as [ly st tool dr cl cs t0 sp h [lep tr mk oo] ls hs].
    cbn in *. split; congruence. }
  clearbody d1.
  pose proof (checkEraserIntersections_frame pos d1) as Hframe.
  assert (Htrail2 : eraserTrail (eraserSession (checkEraserIntersections pos d1))
                    = Some (nextRef (host d))).
  { rewrite checkEraserIntersections_trail. exact Htrail. }
  assert (Hhit :
    layer_get r (layer (checkEraserIntersections pos d1))
    = Some (if String.eqb (nodeName n) "stroke"
               && intersectsEraser n pos (eraserRadiusOf d) then greyedOut n else n)
    /\ marked r (checkEraserIntersections pos d1)
       = String.eqb (nodeName n) "stroke" && intersectsEraser n pos (eraserRadiusOf d)).
  { rewrite <- Hrad.
    destruct (String.eqb (nodeName n) "stroke") eqn:Hname; cbn [andb].
    - apply String.eqb_eq in Hname.
      destruct (intersectsEraser n pos (eraserRadiusOf d1)) eqn:Hh.
      + apply checkEraser_hit; assumption.
      + rewrite <- Hm1. apply checkEraser_missed; [assumption | left; assumption].
    - rewrite <- Hm1. apply checkEraser_missed; [assumption|].
      right. intros E. rewrite E in Hname. discriminate. }
  set (d2 := checkEraserIntersections pos d1) in *.
  destruct Hhit as [Hl2 Hm2].
  assert (Hdraw2 : isDrawing d2 = true /\ currentTool d2 = Eraser).
  { rewrite Hframe. destruct d1; exact Hdraw1. }
  clearbody d2. clear Hframe.
  unfold handlePointerUp. destruct Hdraw2 as [Hdr Htl]. rewrite Hdr, Htl, Hpos. cbn [negb].
  replace (currentTool _) with Eraser
    by (destruct d2 as [ly st tool dr cl cs t0 sp [lp lt timer mode ty an bo] es ls hs];
        cbn in Htl |- *; destruct timer; cbn; congruence).
  assert (Hfin : forall d3,
            layer d3 = layer d2 -> eraserSession d3 = eraserSession d2 ->
            layer_get r (layer (finishErasing d3))
            = if String.eqb (nodeName n) "stroke"
                 && intersectsEraser n pos (eraserRadiusOf d)
              then None else Some n).
  { intros d3 El Ee. unfold finishErasing. cbv zeta. rewrite fold_on_layer_gen.
    rewrite Ee, Htrail2.
    destruct d3 as [ly st tool dr cl cs t0 sp h es ls hs]. cbn in El, Ee. subst ly es.
    cbn -[layer_get layer_destroy fold_left].
    rewrite fold_layer_destroy.
    rewrite (layer_get_filter_refs
               (fun k => negb (existsb (Nat.eqb k) (markedForDeletion (eraserSession d2))))).
    fold (marked r d2). rewrite Hm2, layer_get_destroy_other, Hl2 by exact Hfresh.
    destruct (String.eqb (nodeName n) "stroke" && _); reflexivity. }
  destruct d2 as [ly st tool dr cl cs t0 sp [lp lt timer mode ty an bo] es ls hs].
  destruct timer as [t|].
  all: cbn -[finishErasing layer_get].
  all: apply Hfin; reflexivity.
Qed.

(** ** The hold timer *)

Lemma sameTimers_refl (d : DrawingTools) : sameTimers d d.
Proof. split; reflexivity. Qed.

Lemma sameTimers_trans (a b c : DrawingTools) :
  sameTimers a b -> sameTimers b c -> sameTimers a c.
Proof. unfold sameTimers. intros [H1 H2] [H3 H4]. split; congruence. Qed.

Lemma sameTimers_fold {A : Type} (f : DrawingTools -> A -> DrawingTools) (l : list A) :
  (forall d a, sameTimers d (f d a)) ->
  forall d, sameTimers d (fold_left f l d).
Proof.
  intros Hf. induction l as [|a l IH]; intros d; cbn [fold_left].
  - apply sameTimers_refl.
  - eapply sameTimers_trans; [apply Hf | apply IH].
Qed.

Lemma sameTimers_on_layer (f : Layer -> Layer) (d : DrawingTools) :
  sameTimers d (on_layer f d).
Proof. destruct d; split; reflexivity. Qed.

Lemma sameTimers_on_lasso (f : LassoState -> LassoState) (d : DrawingTools) :
  sameTimers d (on_lasso f d).
Proof. destruct d; split; reflexivity. Qed.

Lemma sameTimers_on_eraser (f : EraserSession -> EraserSession) (d : DrawingTools) :
  sameTimers d (on_eraser f d).
Proof. destruct d; split; reflexivity. Qed.

Lemma sameTimers_addNode (n : Node) (d : DrawingTools) :
  sameTimers d (snd (addNode n d)).
Proof. destruct d as [ly st tool dr cl cs t0 sp h es ls [nr nt pt nf cc]]; split; reflexivity. Qed.

Lemma sameTimers_onContentChange (d : DrawingTools) : sameTimers d (onContentChange d).
Proof. destruct d as [ly st tool dr cl cs t0 sp h es ls [nr nt pt nf cc]]; split; reflexivity. Qed.

Lemma sameTimers_eraserFrame (d d' : DrawingTools) : eraserFrame d d' -> sameTimers d d'.
Proof. unfold eraserFrame. intros ->. destruct d; split; reflexivity. Qed.

Opaque sameTimers.

Ltac chain :=
  repeat first
    [ apply sameTimers_refl
    | apply sameTimers_on_layer
    | apply sameTimers_on_lasso
    | apply sameTimers_on_eraser
    | apply sameTimers_onContentChange
    | apply sameTimers_fold; intros
    | eapply sameTimers_trans; [| solve [ apply sameTimers_on_layer
                                        | apply sameTimers_on_lasso
                                        | apply sameTimers_on_eraser
                                        | apply sameTimers_onContentChange
                                        | apply sameTimers_fold; intros;
                                          apply sameTimers_on_layer ] ] ].

Lemma sameTimers_startDrawing (pos : Point) (now : nat) (d : DrawingTools) :
  sameTimers d (startDrawing pos now d).
Proof.
  unfold startDrawing. cbv zeta.
  destruct d as [ly st tool dr cl cs t0 sp h es ls [nr nt pt nf cc]]; split; reflexivity.
Qed.

Lemma sameTimers_continueDrawing (pos : Point) (d : DrawingTools) :
  sameTimers d (continueDrawing pos d).
Proof. unfold continueDrawing. destruct (currentLine d); chain. Qed.

Lemma sameTimers_resizeShape (pos : Point) (d : DrawingTools) :
  sameTimers d (resizeShape pos d).
Proof.
  unfold resizeShape.
  destruct (currentShape d), (shapeAnchor (hold d)); try apply sameTimers_refl.
  cbv zeta. destruct (detectedShapeType (hold d)) as [[]|]; chain.
Qed.

Lemma sameTimers_triggerShapeDetection (d : DrawingTools) :
  sameTimers d (triggerShapeDetection d).
Proof.
  unfold triggerShapeDetection.
  destruct (currentLine d); [|apply sameTimers_refl].
  destruct (isInShapeMode (hold d)); [apply sameTimers_refl|].
  cbv zeta. destruct (length _ <? 6)%nat; [apply sameTimers_refl|].
  destruct (analyzeStrokeForShape _) as [kind|]; [|apply sameTimers_refl].
  destruct d as [ly st tool dr cl cs t0 sp [lp lt timer mode ty an bo] es ls [nr nt pt nf cc]].
  destruct kind; split; reflexivity.
Qed.

Lemma sameTimers_startErasing (pos : Point) (d : DrawingTools) :
  sameTimers d (startErasing pos d).
Proof.
  unfold startErasing. cbv zeta.
  destruct (addNode _ _) as [r d1] eqn:E.
  eapply sameTimers_trans;
    [| apply sameTimers_eraserFrame, checkEraserIntersections_frame].
  replace d1 with (snd (addNode
     (mkNode "eraser-trail" 0 0 "#ffffff"
        (eraserThickness (eraser (settings
           (on_eraser (fun e => set_originalOpacities []
              (set_markedForDeletion [] (set_lastEraserPos (Some pos) e))) d))))
        1%float (GLine [x pos; y pos] false))
     (on_eraser (fun e => set_originalOpacities []
              (set_markedForDeletion [] (set_lastEraserPos (Some pos) e))) d)))
    by (rewrite E; reflexivity).
  eapply sameTimers_trans; [| apply sameTimers_on_eraser].
  eapply sameTimers_trans; [| apply sameTimers_addNode].
  apply sameTimers_on_eraser.
Qed.

Lemma sameTimers_eraseAtPosition (pos : Point) (d : DrawingTools) :
  sameTimers d (eraseAtPosition pos d).
Proof.
  unfold eraseAtPosition. cbv zeta.
  eapply sameTimers_trans; [| apply sameTimers_on_eraser].
  eapply sameTimers_trans;
    [| apply sameTimers_eraserFrame, checkEraserIntersections_frame].
  destruct (eraserTrail (eraserSession d)); chain.
Qed.

Lemma sameTimers_finishErasing (d : DrawingTools) : sameTimers d (finishErasing d).
Proof.
  unfold finishErasing. cbv zeta.
  eapply sameTimers_trans; [| apply sameTimers_on_eraser].
  eapply sameTimers_trans; [| apply sameTimers_fold; intros; apply sameTimers_on_layer].
  destruct (eraserTrail (eraserSession d)); chain.
Qed.

Lemma sameTimers_createTextBox (pos : Point) (d : DrawingTools) :
  sameTimers d (createTextBox pos d).
Proof.
  destruct d as [ly st tool dr cl cs t0 sp h es ls [nr nt pt nf cc]]; split; reflexivity.
Qed.

Lemma sameTimers_clearSelection (d : DrawingTools) : sameTimers d (clearSelection d).
Proof.
  unfold clearSelection. cbv zeta.
  eapply sameTimers_trans; [| apply sameTimers_on_lasso].
  match goal with
  | |- sameTimers _ (match lassoPath (lasso ?e) with _ => _ end) =>
      destruct (lassoPath (lasso e))
  end; chain.
Qed.

Lemma sameTimers_startSelection (pos : Point) (d : DrawingTools) :
  sameTimers d (startSelection pos d).
Proof.
  assert (Hstart : forall d0,
    sameTimers d0
      (let d1 := on_lasso (set_lassoPoints [x pos; y pos]) d0 in
       let '(r, d2) :=
         addNode (mkNode "lasso-drawing" 0 0 "#888888" 1.5 0.7%float
                    (GLine [x pos; y pos] false)) d1 in
       on_lasso (set_lassoLine (Some r)) d2)).
  { intros d0.
    destruct d0 as [ly st tool dr cl cs t0 sp h es ls [nr nt pt nf cc]]; split; reflexivity. }
  unfold startSelection. cbv zeta in Hstart |- *.
  destruct (lassoPath (lasso d)); [destruct (selectedShapes (lasso d))|].
  - apply Hstart.
  - destruct (isPointInLasso _ _ _); [chain|].
    eapply sameTimers_trans; [apply sameTimers_clearSelection | apply Hstart].
  - apply Hstart.
Qed.

Lemma sameTimers_continueSelection (pos : Point) (d : DrawingTools) :
  sameTimers d (continueSelection pos d).
Proof.
  unfold continueSelection.
  assert (Hdraw : sameTimers d
    match lassoLine (lasso d) with
    | None => d
    | Some l =>
        let d0 := on_lasso (fun s => set_lassoPoints (lassoPoints s ++ [x pos; y pos]) s) d in
        on_layer (layer_update l (set_nodePoints (lassoPoints (lasso d0)))) d0
    end).
  { destruct (lassoLine (lasso d)); chain. }
  destruct (isDraggingSelection (lasso d)); [|exact Hdraw].
  destruct (dragStartPos (lasso d)); [|exact Hdraw].
  cbv zeta.
  eapply sameTimers_trans; [| apply sameTimers_on_lasso].
  match goal with
  | |- sameTimers _ (match lassoPath (lasso ?e) with _ => _ end) =>
      destruct (lassoPath (lasso e))
  end; chain.
Qed.

Lemma sameTimers_finishSelection (d : DrawingTools) : sameTimers d (finishSelection d).
Proof.
  unfold finishSelection.
  destruct (isDraggingSelection (lasso d)); [chain|].
  destruct (lassoLine (lasso d)) as [l|]; [|chain].
  destruct (length (lassoPoints (lasso d)) <? 6)%nat; [chain|].
  cbv zeta.
  match goal with
  | |- sameTimers _ (match ?sel with [] => _ | _ :: _ => _ end) =>
      destruct sel as [|s0 rest]
  end.
  - chain.
  - destruct (addNode _ _) as [r d3] eqn:E.
    eapply sameTimers_trans; [| apply sameTimers_fold; intros; apply sameTimers_on_layer].
    unfold startMarchingAnts.
    eapply sameTimers_trans; [| apply sameTimers_on_lasso].
    match goal with
    | |- sameTimers _ (on_host ?f ?e) =>
        apply (sameTimers_trans _ e);
        [| destruct e as [? ? ? ? ? ? ? ? ? ? ? []]; split; reflexivity]
    end.
    eapply sameTimers_trans; [| apply sameTimers_on_lasso].
    match type of E with
    | addNode ?n ?e = _ =>
        replace d3 with (snd (addNode n e)) by (rewrite E; reflexivity);
        apply (sameTimers_trans _ e); [| apply sameTimers_addNode]
    end.
    unfold calculateSelectionCenter. cbv zeta.
    match goal with
    | |- sameTimers _ (if ?c then _ else _) => destruct c
    end; chain.
Qed.

Transparent sameTimers.

Lemma oneTimer_same (d d' : DrawingTools) : sameTimers d d' -> oneTimer d -> oneTimer d'.
Proof. unfold sameTimers, oneTimer. intros [-> ->]. trivial. Qed.

Lemma oneTimer_clear (d : DrawingTools) (t : TimerId) :
  oneTimer d ->
  shapeHoldTimer (hold d) = Some t ->
  pendingTimers (host (on_hold (set_shapeHoldTimer None) (clearTimeout t d))) = [].
Proof.
  intros [Hnone | [u [Hone Hu]]] Ht.
  - destruct d as [ly st tool dr cl cs t0 sp h es ls [nr nt pt nf cc]]. cbn in *.
    subst pt. reflexivity.
  - destruct d as [ly st tool dr cl cs t0 sp h es ls [nr nt pt nf cc]]. cbn in *.
    subst pt. assert (u = t) by congruence. subst u. cbn. rewrite Pos.eqb_refl. reflexivity.
Qed.

Lemma oneTimer_checkForShapeHold (pos : Point) (now : nat) (d : DrawingTools) :
  oneTimer d -> oneTimer (checkForShapeHold pos now d).
Proof.
  intros Hinv. unfold checkForShapeHold. cbv zeta.
  match goal with
  | |- oneTimer (match shapeHoldTimer (hold (on_hold _ ?e)) with _ => _ end) =>
      set (d1 := e)
  end.
  assert (H1 : oneTimer d1 /\ currentLine d1 = currentLine d).
  { subst d1. destruct (lastMovePos (hold d)) as [last|].
    - destruct (Rgtb _ _).
      + destruct (shapeHoldTimer (hold (on_hold (set_lastMoveTime now) d))) as [t|] eqn:Et.
        * split.
          -- left. apply oneTimer_clear; [|exact Et].
             eapply oneTimer_same; [|exact Hinv].
             destruct d as [ly st tool dr cl cs t0 sp [lp lt timer mode ty an bo] es ls hs].
             split; reflexivity.
          -- destruct d as [ly st tool dr cl cs t0 sp [lp lt timer mode ty an bo] es ls hs].
             reflexivity.
        * split.
          -- eapply oneTimer_same; [|exact Hinv].
             destruct d as [ly st tool dr cl cs t0 sp [lp lt timer mode ty an bo] es ls hs].
             split; reflexivity.
          -- destruct d as [ly st tool dr cl cs t0 sp [lp lt timer mode ty an bo] es ls hs].
             reflexivity.
      + split; [exact Hinv | reflexivity].
    - split.
      + eapply oneTimer_same; [|exact Hinv].
        destruct d as [ly st tool dr cl cs t0 sp [lp lt timer mode ty an bo] es ls hs].
        split; reflexivity.
      + destruct d as [ly st tool dr cl cs t0 sp [lp lt timer mode ty an bo] es ls hs].
        reflexivity. }
  clearbody d1. destruct H1 as [H1 _].
  destruct d1 as [ly st tool dr cl cs t0 sp [lp lt timer mode ty an bo] es ls
                    [nr nt pt nf cc]].
  unfold oneTimer in *. cbn in *.
  destruct timer as [t|].
  - exact H1.
  - destruct cl as [l|]; cbn.
    + destruct H1 as [-> | [u [_ Hu]]]; [|discriminate].
      right. exists nt. split; reflexivity.
    + exact H1.
Qed.

Lemma oneTimer_handlePointerDown (stage : Stage) (now : nat) (d : DrawingTools) :
  oneTimer d -> oneTimer (handlePointerDown stage now d).
Proof.
  intros Hinv. apply (oneTimer_same d); [|exact Hinv].
  unfold handlePointerDown.
  assert (Hd : sameTimers d (set_isDrawing true d)) by (destruct d; split; reflexivity).
  assert (Ht : currentTool (set_isDrawing true d) = currentTool d) by (destruct d; reflexivity).
  cbv zeta. rewrite Ht.
  destruct (currentTool d); try apply sameTimers_refl.
  all: destruct (getScaledPointerPosition stage) as [pos|]; [|exact Hd].
  all: eapply sameTimers_trans; [exact Hd|].
  - apply sameTimers_startDrawing.
  - apply sameTimers_startDrawing.
  - apply sameTimers_startErasing.
  - apply sameTimers_createTextBox.
  - apply sameTimers_startSelection.
Qed.

Lemma oneTimer_handlePointerMove (stage : Stage) (now : nat) (d : DrawingTools) :
  oneTimer d -> oneTimer (handlePointerMove stage now d).
Proof.
  intros Hinv. unfold handlePointerMove.
  destruct (negb (isDrawing d)); [exact Hinv|].
  destruct (currentTool d); try exact Hinv.
  all: destruct (getScaledPointerPosition stage) as [pos|]; [|exact Hinv].
  all: try exact Hinv.
  - destruct (isInShapeMode (hold d)).
    + eapply oneTimer_same; [apply sameTimers_resizeShape | exact Hinv].
    + apply oneTimer_checkForShapeHold.
      eapply oneTimer_same; [apply sameTimers_continueDrawing | exact Hinv].
  - destruct (isInShapeMode (hold d)).
    + eapply oneTimer_same; [apply sameTimers_resizeShape | exact Hinv].
    + apply oneTimer_checkForShapeHold.
      eapply oneTimer_same; [apply sameTimers_continueDrawing | exact Hinv].
  - eapply oneTimer_same; [apply sameTimers_eraseAtPosition | exact Hinv].
  - eapply oneTimer_same; [apply sameTimers_continueSelection | exact Hinv].
Qed.

Lemma oneTimer_set (d d' : DrawingTools) :
  pendingTimers (host d') = pendingTimers (host d) ->
  oneTimer d -> shapeHoldTimer (hold d) = shapeHoldTimer (hold d') \/ pendingTimers (host d) = [] ->
  oneTimer d'.
Proof.
  unfold oneTimer. intros -> Hinv [E | E].
  - rewrite <- E. exact Hinv.
  - left. exact E.
Qed.

Lemma oneTimer_handlePointerUp (stage : Stage) (d : DrawingTools) :
  oneTimer d -> oneTimer (handlePointerUp stage d).
Proof.
  intros Hinv. unfold handlePointerUp.
  destruct (negb (isDrawing d)); [exact Hinv|].
  assert (Hd : sameTimers d (set_isDrawing false d)) by (destruct d; split; reflexivity).
  assert (Ht : currentTool (set_isDrawing false d) = currentTool d) by (destruct d; reflexivity).
  pose proof (oneTimer_same _ _ Hd Hinv) as Hinv0.
  set (d0 := set_isDrawing false d) in *. clearbody d0.
  cbv zeta.
  destruct (currentTool d) eqn:Htool; try exact Hinv.
  all: destruct (getScaledPointerPosition stage) as [pos|]; [|exact Hinv0].
  all: set (d1 := match shapeHoldTimer (hold d0) with
                  | Some t => on_hold (set_shapeHoldTimer None) (clearTimeout t d0)
                  | None => d0
                  end).
  all: assert (H1 : pendingTimers (host d1) = [] \/ (oneTimer d1 /\ d1 = d0))
    by (subst d1; destruct (shapeHoldTimer (hold d0)) as [t|] eqn:Et;
        [ left; apply oneTimer_clear; assumption | right; split; [exact Hinv0 | reflexivity] ]).
  all: assert (Htool1 : currentTool d1 = currentTool d0)
    by (subst d1; destruct (shapeHoldTimer (hold d0));
        [destruct d0 as [? ? ? ? ? ? ? ? ? ? ? []]|]; reflexivity).
  all: assert (H1' : oneTimer d1) by (destruct H1 as [H1 | [H1 _]]; [left; exact H1 | exact H1]).
  all: clearbody d1; rewrite Htool1, Ht.
  all: cbv iota.
  all: match goal with
       | |- oneTimer
              (onContentChange
                 (on_hold _ (on_hold _ (on_hold _ (on_hold _ (on_hold _
                    (set_currentShape None (set_currentLine None ?e)))))))) =>
           set (d2 := e)
       end.
  all: assert (H2 : sameTimers d1 d2)
    by (subst d2;
        first [ apply sameTimers_refl
              | destruct (isInShapeMode (hold d1));
                [destruct d1; split; reflexivity | apply sameTimers_refl]
              | apply sameTimers_finishErasing
              | apply sameTimers_finishSelection ]).
  all: pose proof (oneTimer_same _ _ H2 H1') as Hinv2; clearbody d2.
  all: eapply oneTimer_same; [|exact Hinv2].
  all: destruct d2 as [ly st tl dr cl cs t0 sp [lp lt timer mode ty an bo] es ls
                         [nr nt pt nf cc]]; split; reflexivity.
Qed.

Lemma oneTimer_step (d : DrawingTools) (e : Event) : oneTimer d -> oneTimer (step d e).
Proof.
  intros Hinv. destruct e as [stage now | stage now | stage | tool | t]; cbn [step].
  - apply oneTimer_handlePointerDown; exact Hinv.
  - apply oneTimer_handlePointerMove; exact Hinv.
  - apply oneTimer_handlePointerUp; exact Hinv.
  - eapply oneTimer_same; [|exact Hinv]. destruct d; split; reflexivity.
  - destruct (timerPending t d) eqn:Hp; [|exact Hinv].
    left.
    destruct (sameTimers_triggerShapeDetection (clearTimeout t d)) as [-> _].
    destruct Hinv as [Hnone | [u [Hone Hu]]].
    + unfold timerPending in Hp. rewrite Hnone in Hp. discriminate.
    + unfold timerPending in Hp. rewrite Hone in Hp. cbn in Hp.
      rewrite orb_false_r in Hp. apply Pos.eqb_eq in Hp. subst u.
      destruct d as [ly st tl dr cl cs t0 sp h es ls [nr nt pt nf cc]]. cbn in *.
      subst pt. cbn. rewrite Pos.eqb_refl. reflexivity.
Qed.

(** X18.  Whatever the user does, at most one hold timer is pending, and it
    is the one the object remembers in [shapeHoldTimer]. *)
Theorem at_most_one_hold_timer (l : Layer) (s : ToolSettings) (events : list Event) :
  oneTimer (run (newDrawingTools l s) events).
Proof.
  assert (Hinit : oneTimer (newDrawingTools l s)) by (left; reflexivity).
  generalize dependent (newDrawingTools l s).
  unfold run. induction events as [|e es IH]; intros d Hinv; cbn [fold_left].
  - exact Hinv.
  - apply IH, oneTimer_step, Hinv.
Qed.

(** ** Timers that fire late *)

Lemma oneTimer_reachable (l : Layer) (s : ToolSettings) (events : list Event) :
  oneTimer (run (newDrawingTools l s) events).
Proof.
  assert (Hinit : oneTimer (newDrawingTools l s)) by (left; reflexivity).
  generalize dependent (newDrawingTools l s).
  unfold run. induction events as [|e es IH]; intros d Hinv; cbn [fold_left].
  - exact Hinv.
  - apply IH, oneTimer_step, Hinv.
Qed.

(** A pointer-up that the handler runs to its end leaves no timer pending
    and no live stroke. *)
Lemma handlePointerUp_completed (stage : Stage) (pos : Point) (d : DrawingTools) :
  oneTimer d ->
  isDrawing d = true ->
  currentTool d <> Hand ->
  getScaledPointerPosition stage = Some pos ->
  pendingTimers (host (handlePointerUp stage d)) = []
  /\ currentLine (handlePointerUp stage d) = None
  /\ isInShapeMode (hold (handlePointerUp stage d)) = false.
Proof.
  intros Hinv Hdraw Htool Hpos. unfold handlePointerUp. rewrite Hdraw, Hpos. cbn [negb].
  assert (Hd : sameTimers d (set_isDrawing false d)) by (destruct d; split; reflexivity).
  assert (Ht : currentTool (set_isDrawing false d) = currentTool d) by (destruct d; reflexivity).
  pose proof (oneTimer_same _ _ Hd Hinv) as Hinv0.
  set (d0 := set_isDrawing false d) in *. clearbody d0.
  cbv zeta.
  destruct (currentTool d) eqn:Htl; [congruence| | | | |].
  all: set (d1 := match shapeHoldTimer (hold d0) with
                  | Some t => on_hold (set_shapeHoldTimer None) (clearTimeout t d0)
                  | None => d0
                  end).
  all: assert (H1 : pendingTimers (host d1) = [])
    by (subst d1; destruct (shapeHoldTimer (hold d0)) as [t|] eqn:Et;
        [ apply oneTimer_clear; assumption
        | destruct Hinv0 as [E | [u [_ Hu]]]; [exact E | congruence] ]).
  all: assert (Htool1 : currentTool d1 = currentTool d0)
    by (subst d1; destruct (shapeHoldTimer (hold d0));
        [destruct d0 as [? ? ? ? ? ? ? ? ? ? ? []]|]; reflexivity).
  all: clearbody d1; rewrite Htool1, Ht.
  all: cbv iota.
  all: match goal with
       | |- pendingTimers
              (host
                 (onContentChange
                    (on_hold _ (on_hold _ (on_hold _ (on_hold _ (on_hold _
                       (set_currentShape None (set_currentLine None ?e))))))))) = _ /\ _ =>
           set (d2 := e)
       end.
  all: assert (H2 : sameTimers d1 d2)
    by (subst d2;
        first [ apply sameTimers_refl
              | destruct (isInShapeMode (hold d1));
                [destruct d1; split; reflexivity | apply sameTimers_refl]
              | apply sameTimers_finishErasing
              | apply sameTimers_finishSelection ]).
  all: destruct H2 as [H2 _]; rewrite H1 in H2; clearbody d2.
  all: destruct d2 as [ly st tl dr cl cs t0 sp [lp lt timer mode ty an bo] es ls
                         [nr nt pt nf cc]]; cbn in H2 |- *; subst pt; repeat split.
Qed.

(** A firing that changes the layer is a snap: afterwards there is no live
    stroke and shape mode is on. *)
Lemma firing_that_changes_the_layer (d : DrawingTools) (t : TimerId) :
  layer (step d (TimerFires t)) <> layer d ->
  currentLine (step d (TimerFires t)) = None
  /\ isInShapeMode (hold (step d (TimerFires t))) = true.
Proof.
  cbn [step]. destruct (timerPending t d); [|congruence].
  assert (Hl : layer (clearTimeout t d) = layer d) by (destruct d; reflexivity).
  rewrite <- Hl. generalize (clearTimeout t d). clear. intros d.
  unfold triggerShapeDetection.
  destruct (currentLine d) as [l|]; [|congruence].
  destruct (isInShapeMode (hold d)); [congruence|].
  cbv zeta. destruct (length _ <? 6)%nat; [congruence|].
  destruct (analyzeStrokeForShape _) as [kind|]; [|congruence].
  intros _.
  destruct d as [ly st tool dr cl cs t0 sp [lp lt timer mode ty an bo] es ls
                   [nr nt pt nf cc]].
  destruct kind; split; reflexivity.
Qed.

(** C10, as amended.  A timer that fires when there is no live stroke, or
    when shape mode is already on, changes nothing: [triggerShapeDetection]
    returns the state it was given, and the timer event leaves the layer, the
    hold state, the live stroke and the current shape as they were.  Two
    consequences hold.  After a snap (a firing that changed the layer) shape
    mode is on, so a further firing adds no second shape.  And in every state
    the handlers can reach from a new object, a pointer-up that runs to its
    end (a gesture is in progress, the tool is not the hand, the stage knows
    the pointer position) leaves no live stroke and no pending timer, so
    neither [triggerShapeDetection] nor any timer event after it changes
    anything in the state.  The claim as
    written, for every pointer-up, does not hold: see
    [timer_after_early_pointer_up_snaps]. *)
Theorem stale_timer_changes_nothing :
  (forall d : DrawingTools,
      currentLine d = None \/ isInShapeMode (hold d) = true ->
      triggerShapeDetection d = d
      /\ forall t : TimerId,
           let d' := step d (TimerFires t) in
           layer d' = layer d /\ hold d' = hold d
           /\ currentLine d' = currentLine d /\ currentShape d' = currentShape d)
  /\ (forall (d : DrawingTools) (t t' : TimerId),
        let snapped := step d (TimerFires t) in
        layer snapped <> layer d ->
        let d' := step snapped (TimerFires t') in
        layer d' = layer snapped /\ hold d' = hold snapped
        /\ currentLine d' = currentLine snapped /\ currentShape d' = currentShape snapped)
  /\ (forall (l : Layer) (s : ToolSettings) (events : list Event)
             (stage : Stage) (pos : Point) (t : TimerId),
        let d := run (newDrawingTools l s) events in
        isDrawing d = true ->
        currentTool d <> Hand ->
        getScaledPointerPosition stage = Some pos ->
        let released := step d (PointerUp stage) in
        currentLine released = None
        /\ pendingTimers (host released) = []
        /\ triggerShapeDetection released = released
        /\ step released (TimerFires t) = released).
Proof.
  split; [|split].
  - exact triggerShapeDetection_guard.
  - intros d t t' snapped Hchanged.
    destruct (firing_that_changes_the_layer d t Hchanged) as [_ Hmode].
    apply (proj2 (triggerShapeDetection_guard snapped (or_intror Hmode))).
  - intros l s events stage pos t d Hdraw Htool Hpos released.
    destruct (handlePointerUp_completed stage pos d (oneTimer_reachable l s events)
                Hdraw Htool Hpos) as (Hpending & Hline & _).
    subst released. cbn [step]. repeat split; try assumption.
    + apply triggerShapeDetection_guard. left. exact Hline.
    + unfold timerPending. rewrite Hpending. reflexivity.
Qed.

Lemma penDown_is_drawing :
  isDrawing (run (newDrawingTools [] defaultSettings) penDown) = true
  /\ currentTool (run (newDrawingTools [] defaultSettings) penDown) = Pen.
Proof.
  eassert (Hd : run (newDrawingTools [] defaultSettings) penDown = _).
  { unfold penDown. eval_run. reflexivity. }
  rewrite Hd. clear Hd. split; reflexivity.
Qed.

(** The pen stroke from (0,10) to (100,0), lifted with the pen in hand at
    (100,0): timer 2, armed by the last move, is cancelled, and its firing
    changes nothing. *)
Lemma stale_timer_witness :
  let released := step (run (newDrawingTools [] defaultSettings) penDown)
                       (PointerUp (pointerAt 100 0)) in
  currentLine released = None
  /\ pendingTimers (host released) = []
  /\ triggerShapeDetection released = released
  /\ step released (TimerFires 2%positive) = released.
Proof.
  apply (proj2 (proj2 stale_timer_changes_nothing) [] defaultSettings penDown
           (pointerAt 100 0) (mkPoint (100 / 1) (0 / 1)) 2%positive).
  - apply penDown_is_drawing.
  - rewrite (proj2 penDown_is_drawing). discriminate.
  - reflexivity.
Defined.

(** C10, the claim as written.  The pen stroke from (0,10) to (100,0) is
    drawn, the tool is switched to the hand and the pointer is lifted:
    [handlePointerUp] returns at its first line, so the live stroke is still
    recorded and timer 2 is still pending.  When that timer fires after the
    pointer-up, the stroke on the layer is destroyed and a line shape is put
    in its place, and shape mode is switched on with no gesture in
    progress. *)
Lemma timer_after_early_pointer_up_snaps :
  let d := run (newDrawingTools [] defaultSettings) penGestureSwitchingToHand in
  currentLine d = Some 1%nat
  /\ timerPending 2%positive d = true
  /\ layer d = [(1%nat, mkNode "stroke" 0 0 "#000000" 2 1%float
                          (GLine [0; 10; 50; 5; 100; 0] false))]
  /\ isInShapeMode (hold (step d (TimerFires 2%positive))) = true
  /\ layer (step d (TimerFires 2%positive))
     = [(2%nat, mkNode "stroke" 0 0 "#000000" 2 1%float (GLine [0; 0; 100; 10] false))].
Proof.
  eassert (Hd : run (newDrawingTools [] defaultSettings) penGestureSwitchingToHand = _).
  { unfold penGestureSwitchingToHand. eval_run. reflexivity. }
  cbv zeta. rewrite Hd. clear Hd.
  eval_step.
  crunch.
  repeat split; repeat f_equal; lra.
Qed.

(** ** Capturing a stroke *)

Lemma checkForShapeHold_frame (pos : Point) (now : nat) (d : DrawingTools) :
  holdFrame d (checkForShapeHold pos now d).
Proof.
  unfold checkForShapeHold, holdFrame. cbv zeta.
  destruct d as [ly st tool dr cl cs t0 sp [lp lt timer mode ty an bo] es ls
                   [nr nt pt nf cc]].
  cbn [hold lastMovePos].
  destruct lp as [last|]; [destruct (Rgtb _ _)|].
  all: destruct timer as [t|], cl as [l|]; split; reflexivity.
Qed.

Lemma set_nodePoints_twice (p q : list R) (n : Node) :
  set_nodePoints q (set_nodePoints p n) = set_nodePoints q n.
Proof. unfold set_nodePoints. destruct n as [nm nx ny st sw op []]; reflexivity. Qed.

Lemma nodePoints_set (p q : list R) (c : bool) (n : Node) :
  nodeGeometry n = GLine q c -> nodePoints (set_nodePoints p n) = p.
Proof.
  unfold nodePoints, set_nodePoints. destruct n as [nm nx ny st sw op g]. cbn.
  intros ->. reflexivity.
Qed.

Lemma moves_extend_the_stroke (scale : R) (samples : list (Point * nat)) :
  forall (d : DrawingTools) (r : NodeRef) (n : Node) (points : list R) (c : bool),
    isDrawing d = true ->
    currentTool d = Pen \/ currentTool d = Highlighter ->
    isInShapeMode (hold d) = false ->
    currentLine d = Some r ->
    layer_get r (layer d) = Some n ->
    nodeGeometry n = GLine points c ->
    let d' := run d (moves scale samples) in
    currentLine d' = Some r
    /\ layer_get r (layer d')
       = Some (set_nodePoints (points ++ flatten scale (map fst samples)) n).
Proof.
  induction samples as [|[p t] rest IH]; intros d r n points c Hdraw Htool Hmode Hline Hn Hg.
  - cbn. split; [exact Hline|]. rewrite app_nil_r, Hn. f_equal.
    unfold set_nodePoints. rewrite Hg. destruct n; cbn in *. subst. reflexivity.
  - unfold moves. cbn [map fst snd]. rewrite run_cons. fold (moves scale rest).
    set (pos := mkPoint (x p / scale) (y p / scale)).
    assert (Hstep : step d (PointerMove (sample scale p) t)
                    = checkForShapeHold pos t (continueDrawing pos d)).
    { cbn [step]. unfold handlePointerMove. rewrite Hdraw. cbn [negb].
      unfold getScaledPointerPosition, sample. cbn [pointerPosition scaleX].
      fold pos.
      destruct Htool as [-> | ->]; rewrite Hmode; reflexivity. }
    rewrite Hstep. clear Hstep.
    set (d1 := continueDrawing pos d).
    assert (H1 : d1 = on_layer
                        (layer_update r
                           (fun n => set_nodePoints (nodePoints n ++ [x pos; y pos]) n)) d).
    { subst d1. unfold continueDrawing. rewrite Hline. reflexivity. }
    destruct (checkForShapeHold_frame pos t d1) as [Hf Hm].
    set (d2 := checkForShapeHold pos t d1) in *. clearbody d2.
    assert (Hn2 : layer_get r (layer d2)
                  = Some (set_nodePoints (points ++ [x pos; y pos]) n)).
    { rewrite Hf, H1. destruct d as [ly st tool dr cl cs t0 sp h es ls hs].
      cbn -[layer_get layer_update]. cbn -[layer_get layer_update] in Hn.
      rewrite layer_get_update, Hn. cbn [option_map]. f_equal.
      unfold nodePoints. rewrite Hg. reflexivity. }
    assert (Hrest : isDrawing d2 = true
                    /\ (currentTool d2 = Pen \/ currentTool d2 = Highlighter)
                    /\ isInShapeMode (hold d2) = false
                    /\ currentLine d2 = Some r).
    { rewrite Hm. rewrite Hf, H1. destruct d as [ly st tool dr cl cs t0 sp h es ls hs].
      cbn in *. auto. }
    destruct Hrest as (Hdraw2 & Htool2 & Hmode2 & Hline2).
    assert (Hg2 : nodeGeometry (set_nodePoints (points ++ [x pos; y pos]) n)
                  = GLine (points ++ [x pos; y pos]) c).
    { unfold set_nodePoints. rewrite Hg. destruct n; reflexivity. }
    destruct (IH d2 r _ _ c Hdraw2 Htool2 Hmode2 Hline2 Hn2 Hg2) as [Hl' Hn'].
    cbv zeta. split; [exact Hl'|].
    rewrite Hn'. rewrite set_nodePoints_twice. cbn [flatten map fst].
    rewrite <- app_assoc. reflexivity.
Qed.

(** X17.  Every sample of a pen or highlighter gesture ends up in the
    stroke, in order, read at the stage's scale; the stroke is named
    'stroke' and drawn in the style of the tool in hand. *)
Theorem stroke_records_every_sample (scale : R) (p0 : Point) (t0 : nat)
  (samples : list (Point * nat)) (d : DrawingTools) :
  currentTool d = Pen \/ currentTool d = Highlighter ->
  isInShapeMode (hold d) = false ->
  ~ In (nextRef (host d)) (map fst (layer d)) ->
  let d' := run d (PointerDown (sample scale p0) t0 :: moves scale samples) in
  let style := match currentTool d with
               | Pen => pen (settings d)
               | _ => highlighter (settings d)
               end in
  currentLine d' = Some (nextRef (host d))
  /\ layer_get (nextRef (host d)) (layer d')
     = Some (mkNode "stroke" 0 0 (color style) (thickness style) (opacity style)
               (GLine (flatten scale (p0 :: map fst samples)) false)).
Proof.
  intros Htool Hmode Hfresh. cbv zeta. rewrite run_cons.
  set (pos := mkPoint (x p0 / scale) (y p0 / scale)).
  set (style := match currentTool d with
                | Pen => pen (settings d)
                | _ => highlighter (settings d)
                end).
  set (n := mkNode "stroke" 0 0 (color style) (thickness style) (opacity style)
              (GLine [x pos; y pos] false)).
  assert (Hstep : step d (PointerDown (sample scale p0) t0)
                  = startDrawing pos t0 (set_isDrawing true d)).
  { cbn [step]. unfold handlePointerDown.
    unfold getScaledPointerPosition, sample. cbn [pointerPosition scaleX]. fold pos.
    replace (currentTool (set_isDrawing true d)) with (currentTool d) by (destruct d; reflexivity).
    destruct Htool as [-> | ->]; reflexivity. }
  rewrite Hstep. clear Hstep.
  set (d1 := startDrawing pos t0 (set_isDrawing true d)).
  assert (H1 : isDrawing d1 = true
               /\ (currentTool d1 = Pen \/ currentTool d1 = Highlighter)
               /\ isInShapeMode (hold d1) = false
               /\ currentLine d1 = Some (nextRef (host d))
               /\ layer d1 = layer d ++ [(nextRef (host d), n)]).
  { subst d1 n style. unfold startDrawing, addNode. cbv zeta.
    destruct d as [ly st tool dr cl cs tt sp h es ls [nr nt pt nf cc]].
    cbn in Htool, Hmode |- *.
    destruct Htool as [-> | ->]; repeat split; auto. }
  clearbody d1. destruct H1 as (Hdraw1 & Htool1 & Hmode1 & Hline1 & Hlayer1).
  assert (Hn1 : layer_get (nextRef (host d)) (layer d1) = Some n).
  { rewrite Hlayer1. clear -Hfresh. unfold layer_get.
    induction (layer d) as [|[k m] l IH]; cbn [app find fst map In] in *.
    - rewrite Nat.eqb_refl. reflexivity.
    - destruct (k =? nextRef (host d))%nat eqn:E.
      + apply Nat.eqb_eq in E. tauto.
      + apply IH. tauto. }
  destruct (moves_extend_the_stroke scale samples d1 (nextRef (host d)) n [x pos; y pos]
              false Hdraw1 Htool1 Hmode1 Hline1 Hn1 eq_refl) as [Hl Hn].
  split; [exact Hl|]. rewrite Hn. reflexivity.
Qed.

(** ** Dragging a selection *)

Lemma list_pair_ind {A : Type} (P : list A -> Prop) :
  P [] -> (forall a, P [a]) -> (forall a b l, P l -> P (a :: b :: l)) ->
  forall l, P l.
Proof.
  intros H0 H1 H2.
  assert (H : forall l, P l /\ forall a, P (a :: l)).
  { induction l as [|b l [IH IH']]; split; auto. }
  intros l. apply H.
Qed.

Lemma shift_is_translatePoints (dx dy : R) (points : list R) :
  (fix shift (points : list R) : list R :=
     match points with
     | px :: py :: rest => (px + dx) :: (py + dy) :: shift rest
     | _ => []
     end) points
  = translatePoints dx dy points.
Proof.
  induction points as [| a | a b l IH] using list_pair_ind; try reflexivity.
  cbn [translatePoints]. rewrite <- IH. reflexivity.
Qed.

Lemma rayCast_translate (dx dy px py : R) (points : list R) :
  forall xj yj inside,
    rayCast (px + dx) (py + dy) (xj + dx) (yj + dy) (translatePoints dx dy points) inside
    = rayCast px py xj yj points inside.
Proof.
  induction points as [| a | xi yi l IH] using list_pair_ind; intros xj yj inside;
    try reflexivity.
  cbn [translatePoints rayCast]. cbv zeta. rewrite IH. f_equal.
  replace (Rgtb (yi + dy) (py + dy)) with (Rgtb yi py)
    by (unfold Rgtb, Rltb; destruct (Rlt_dec py yi), (Rlt_dec (py + dy) (yi + dy));
        try reflexivity; lra).
  replace (Rgtb (yj + dy) (py + dy)) with (Rgtb yj py)
    by (unfold Rgtb, Rltb; destruct (Rlt_dec py yj), (Rlt_dec (py + dy) (yj + dy));
        try reflexivity; lra).
  replace (xj + dx - (xi + dx)) with (xj - xi) by ring.
  replace (py + dy - (yi + dy)) with (py - yi) by ring.
  replace (yj + dy - (yi + dy)) with (yj - yi) by ring.
  set (A := (xj - xi) * (py - yi) / (yj - yi)).
  replace (Rltb (px + dx) (A + (xi + dx))) with (Rltb px (A + xi))
    by (unfold Rltb; destruct (Rlt_dec px (A + xi)), (Rlt_dec (px + dx) (A + (xi + dx)));
        try reflexivity; lra).
  reflexivity.
Qed.

Lemma translatePoints_length (dx dy : R) (points : list R) :
  Nat.even (length points) = true ->
  length (translatePoints dx dy points) = length points.
Proof.
  induction points as [| a | a b l IH] using list_pair_ind; intros He.
  - reflexivity.
  - discriminate.
  - cbn [translatePoints length]. rewrite IH; [reflexivity|]. exact He.
Qed.

Lemma translatePoints_nth (dx dy : R) (points : list R) :
  Nat.even (length points) = true ->
  forall k, (2 * k + 1 < length points)%nat ->
    nth (2 * k) (translatePoints dx dy points) 0 = nth (2 * k) points 0 + dx
    /\ nth (2 * k + 1) (translatePoints dx dy points) 0 = nth (2 * k + 1) points 0 + dy.
Proof.
  induction points as [| a | a b l IH] using list_pair_ind; intros He k Hk.
  - cbn in Hk. lia.
  - discriminate.
  - destruct k as [|k].
    + split; reflexivity.
    + replace (2 * S k)%nat with (S (S (2 * k))) by lia.
      cbn [translatePoints nth Nat.add]. apply IH; [exact He | cbn [length] in Hk; lia].
Qed.

Lemma even_half (n : nat) : Nat.even n = true -> exists k, n = (2 * k)%nat.
Proof. intros H. apply Nat.even_spec in H. destruct H as [k ->]. exists k. reflexivity. Qed.

(** Moving a lasso and a point by the same offset does not change whether
    the point is inside. *)
Lemma isPointInLasso_translate (dx dy px py : R) (points : list R) :
  Nat.even (length points) = true ->
  isPointInLasso (translatePoints dx dy points) (px + dx) (py + dy)
  = isPointInLasso points px py.
Proof.
  intros He. unfold isPointInLasso. rewrite translatePoints_length by exact He.
  destruct (length points <? 6)%nat eqn:Hlen; [reflexivity|].
  apply Nat.ltb_ge in Hlen. cbv zeta.
  destruct (even_half _ He) as [k Hk].
  assert (Hj : (length points - 2 = 2 * (k - 1))%nat) by lia.
  rewrite Hj.
  destruct (translatePoints_nth dx dy points He (k - 1)) as [-> ->]; [lia|].
  apply rayCast_translate.
Qed.

Section Dragging.

Variables (d : DrawingTools) (start : Point) (path : NodeRef) (outline : Node).
Hypothesis dragging : isDraggingSelection (lasso d) = true.
Hypothesis grabbed : dragStartPos (lasso d) = Some start.
Hypothesis hasPath : lassoPath (lasso d) = Some path.
Hypothesis pathOnLayer : layer_get path (layer d) = Some outline.
Hypothesis pathNotSelected : ~ In path (selectedShapes (lasso d)).

Lemma continueSelection_dragging (pos : Point) :
  let dx := x pos - x start in
  let dy := y pos - y start in
  let move := fun n => set_nodeY (nodeY n + dy) (set_nodeX (nodeX n + dx) n) in
  let newPoints := translatePoints dx dy (nodePoints outline) in
  lassoPoints (lasso (continueSelection pos d)) = newPoints
  /\ dragStartPos (lasso (continueSelection pos d)) = Some pos
  /\ layer (continueSelection pos d)
     = layer_update path (set_nodePoints newPoints)
         (fold_left (fun l s => layer_update s move l) (selectedShapes (lasso d)) (layer d)).
Proof.
  cbv zeta. unfold continueSelection. rewrite dragging, grabbed. cbv zeta.
  rewrite fold_on_layer.
  assert (Hp : layer_get path
                 (fold_left
                    (fun l s =>
                       layer_update s
                         (fun n => set_nodeY (nodeY n + (y pos - y start))
                                     (set_nodeX (nodeX n + (x pos - x start)) n)) l)
                    (selectedShapes (lasso d)) (layer d)) = Some outline).
  { rewrite layer_get_fold_notin by exact pathNotSelected. exact pathOnLayer. }
  destruct d as [ly st tool dr cl cs t0 sp h es [ll lpts sel drag ds lpath ants ctr] hs].
  cbn [lasso layer set_layer selectedShapes lassoPath] in *.
  subst lpath. cbn [lasso layer set_layer selectedShapes lassoPath].
  rewrite Hp. rewrite shift_is_translatePoints.
  repeat split.
Qed.

(** X21.  With numbers idealised as reals (the displacement is added without
    rounding): while a selection is dragged the lasso moves with the
    pointer, and the pointer is inside the moved lasso exactly if the grab
    point was inside the lasso.  In binary64 the moved lasso points are
    rounded, so for a pointer on the very edge of the lasso the two tests
    can differ. *)
Theorem drag_keeps_the_pointer_inside (pos : Point) :
  nodePoints outline = lassoPoints (lasso d) ->
  Nat.even (length (lassoPoints (lasso d))) = true ->
  isPointInLasso (lassoPoints (lasso (continueSelection pos d))) (x pos) (y pos)
  = isPointInLasso (lassoPoints (lasso d)) (x start) (y start).
Proof.
  intros Hshown He.
  destruct (continueSelection_dragging pos) as [-> _]. rewrite Hshown.
  replace (x pos) with (x start + (x pos - x start)) at 2 by ring.
  replace (y pos) with (y start + (y pos - y start)) at 2 by ring.
  apply isPointInLasso_translate. exact He.
Qed.

(** X22.  A drag moves the position of a selected stroke, never its points:
    what [serializePage] writes for the stroke and where the eraser hits it
    are as before the drag. *)
Theorem drag_leaves_the_points_of_a_stroke (pos : Point) (r : NodeRef) (n : Node)
  (points : list R) (closed : bool) :
  NoDup (selectedShapes (lasso d)) ->
  In r (selectedShapes (lasso d)) ->
  layer_get r (layer d) = Some n ->
  nodeGeometry n = GLine points closed ->
  exists n',
    layer_get r (layer (continueSelection pos d)) = Some n'
    /\ nodeX n' = nodeX n + (x pos - x start)
    /\ nodeY n' = nodeY n + (y pos - y start)
    /\ nodePoints n' = points
    /\ (forall page, serializeChild page n' = serializeChild page n)
    /\ (forall eraserPos radius,
          lineIntersectsEraser n' eraserPos radius = lineIntersectsEraser n eraserPos radius).
Proof.
  intros Hnd Hin Hn Hg.
  destruct (continueSelection_dragging pos) as (_ & _ & ->).
  assert (Hne : r <> path) by (intros ->; exact (pathNotSelected Hin)).
  rewrite layer_get_update_other by exact Hne.
  rewrite layer_get_fold_in by assumption. rewrite Hn. cbn [option_map].
  eexists. split; [reflexivity|].
  destruct n as [nm nx ny st sw op g]. cbn in Hg. subst g.
  repeat split.
Qed.

End Dragging.

(** X20.  A press with the select tool grabs the selection exactly where a
    wheel turn would scale it, inside the lasso of an active selection;
    anywhere else it starts a new lasso. *)
Theorem press_grabs_exactly_inside_the_selection (pos : Point) (d : DrawingTools) :
  isDraggingSelection (lasso d) = false ->
  isDraggingSelection (lasso (startSelection pos d)) = isPointInSelection (x pos) (y pos) d
  /\ (isPointInSelection (x pos) (y pos) d = true ->
      layer (startSelection pos d) = layer d
      /\ selectedShapes (lasso (startSelection pos d)) = selectedShapes (lasso d)
      /\ dragStartPos (lasso (startSelection pos d)) = Some pos)
  /\ (isPointInSelection (x pos) (y pos) d = false ->
      lassoLine (lasso (startSelection pos d)) = Some (nextRef (host d))
      /\ lassoPoints (lasso (startSelection pos d)) = [x pos; y pos]).
Proof.
  intros Hdrag. unfold startSelection, isPointInSelection, hasActiveSelection.
  destruct (lassoPath (lasso d)) as [p|] eqn:Hp;
    destruct (selectedShapes (lasso d)) as [|s0 rest] eqn:Hs; cbn [andb].
  2: destruct (isPointInLasso (lassoPoints (lasso d)) (x pos) (y pos)) eqn:Hin.
  all: unfold addNode; cbv zeta; cbn [fst snd].
  - destruct d as [ly st tool dr cl cs t0 sp h es [ll lpts sel drag ds lpath ants ctr] hs].
    cbn in *. subst. repeat split; try discriminate; reflexivity.
  - destruct d as [ly st tool dr cl cs t0 sp h es [ll lpts sel drag ds lpath ants ctr] hs].
    cbn in *. subst. repeat split; try discriminate; reflexivity.
  - unfold clearSelection. cbv zeta. rewrite !fold_on_layer.
    destruct d as [ly st tool dr cl cs t0 sp h es [ll lpts sel drag ds lpath ants ctr] hs].
    cbn [lasso lassoPath selectedShapes isDraggingSelection lassoPoints] in *. subst.
    cbn -[fold_left layer_update layer_destroy].
    repeat split; try discriminate; reflexivity.
  - destruct d as [ly st tool dr cl cs t0 sp h es [ll lpts sel drag ds lpath ants ctr] hs].
    cbn in *. subst. repeat split; try discriminate; reflexivity.
  - destruct d as [ly st tool dr cl cs t0 sp h es [ll lpts sel drag ds lpath ants ctr] hs].
    cbn in *. subst. repeat split; try discriminate; reflexivity.
Qed.

(** ** Scaling a selection *)

Lemma scalePoints_compose (cx cy a b : R) (points : list R) :
  scalePoints cx cy b (scalePoints cx cy a points) = scalePoints cx cy (a * b) points.
Proof.
  induction points as [| p | px py l IH] using list_pair_ind; try reflexivity.
  cbn [scalePoints]. rewrite IH. f_equal; [ring|]. f_equal. ring.
Qed.

Lemma scaleShape_compose (cx cy a b : R) (n : Node) :
  scaleShape cx cy b (scaleShape cx cy a n) = scaleShape cx cy (a * b) n.
Proof.
  destruct n as [nm nx ny st sw op g].
  destruct g as [points closed | r | rx ry | w h | content].
  all: unfold scaleShape.
  all: cbv beta iota zeta delta
         [nodeGeometry nodeX nodeY nodeStrokeWidth nodeName nodeStroke nodeOpacity
          set_nodeStrokeWidth set_nodePoints set_radius set_radiusX set_radiusY
          set_width set_height set_nodeX set_nodeY set_nodeGeometry].
  all: rewrite ?scalePoints_compose.
  all: f_equal; try ring.
  all: f_equal; ring.
Qed.

(** Updating each of a list of distinct nodes is one pass over the layer. *)
Lemma fold_update_map (f : Node -> Node) (refs : list NodeRef) :
  NoDup refs ->
  forall l : Layer,
    fold_left (fun l s => layer_update s f l) refs l
    = map (fun c => if existsb (Nat.eqb (fst c)) refs then (fst c, f (snd c)) else c) l.
Proof.
  induction 1 as [|s refs Hs Hnd IH]; intros l; cbn [fold_left].
  - cbn. symmetry. apply map_id.
  - rewrite IH. unfold layer_update. rewrite map_map. apply map_ext.
    intros [k n]. cbn [fst snd existsb].
    destruct (k =? s)%nat eqn:E; cbn [fst snd orb].
    + apply Nat.eqb_eq in E. subst k.
      replace (existsb (Nat.eqb s) refs) with false; [reflexivity|].
      symmetry. apply not_true_is_false. intros Hex.
      apply existsb_exists in Hex. destruct Hex as [u [Hu E]].
      apply Nat.eqb_eq in E. subst u. exact (Hs Hu).
    + reflexivity.
Qed.

Lemma existsb_notin (r : NodeRef) (refs : list NodeRef) :
  ~ In r refs -> existsb (Nat.eqb r) refs = false.
Proof.
  intros Hnot. apply not_true_is_false. intros Hex.
  apply existsb_exists in Hex. destruct Hex as [u [Hu E]].
  apply Nat.eqb_eq in E. subst u. exact (Hnot Hu).
Qed.

(** X23.  Scaling a selection by [a] and then by [b] gives the layer and the
    lasso of one scaling by [a * b]. *)
Theorem scaleSelection_composes (a b : R) (d : DrawingTools) :
  NoDup (selectedShapes (lasso d)) ->
  (forall p, lassoPath (lasso d) = Some p -> ~ In p (selectedShapes (lasso d))) ->
  layer (scaleSelection b (scaleSelection a d)) = layer (scaleSelection (a * b) d)
  /\ lasso (scaleSelection b (scaleSelection a d)) = lasso (scaleSelection (a * b) d).
Proof.
  intros Hnd Hpath. unfold scaleSelection, hasActiveSelection.
  destruct d as [ly st tool dr cl cs t0 sp h es [ll lpts sel drag ds lpath ants ctr] hs].
  cbn [lasso selectedShapes lassoPath] in *.
  destruct sel as [|s0 rest]; [split; reflexivity|].
  destruct lpath as [p|]; [|split; reflexivity].
  specialize (Hpath p eq_refl).
  cbn [negb]. cbv zeta.
  do 3 (rewrite ?fold_on_layer;
        cbn -[fold_left layer_update scalePoints scaleShape existsb Rmult Rplus Rminus]).
  rewrite scalePoints_compose. split; [|reflexivity].

  rewrite !fold_update_map by exact Hnd.
  unfold layer_update. rewrite !map_map. apply map_ext.
  intros [k n]. cbn [fst snd].
  destruct (k =? p)%nat eqn:Ep.
  - apply Nat.eqb_eq in Ep. subst k. rewrite (existsb_notin p _ Hpath). cbn [fst snd].
    rewrite Nat.eqb_refl. cbn [fst snd]. rewrite (existsb_notin p _ Hpath). cbn [fst snd].
    rewrite Nat.eqb_refl. f_equal.
    destruct n as [nm nx ny sk sw op []].
    all: cbv beta iota zeta delta
           [nodeGeometry nodeX nodeY nodeStrokeWidth nodeName nodeStroke nodeOpacity
            set_nodeStrokeWidth set_nodePoints set_nodeGeometry].
    all: f_equal; ring.
  - destruct (existsb (Nat.eqb k) (s0 :: rest)) eqn:Ex; cbn [fst snd]; rewrite ?Ep; cbn [fst snd];
      rewrite ?Ex, ?Ep; cbn [fst snd]; rewrite ?Ep; [|reflexivity].
    f_equal. apply scaleShape_compose.
Qed.

(** ** Saving and loading *)

Lemma serializePage_snoc (l : Layer) (c : NodeRef * Node) :
  serializePage (l ++ [c]) = serializeChild (serializePage l) (snd c).
Proof. unfold serializePage. rewrite fold_left_app. reflexivity. Qed.

Lemma serializePage_from (l : Layer) :
  forall page,
    fold_left (fun page c => serializeChild page (snd c)) l page
    = mkSerializedPage (strokes page ++ strokes (serializePage l))
                       (shapes page ++ shapes (serializePage l)).
Proof.
  induction l as [|c l IH] using rev_ind; intros page.
  - cbn. rewrite !app_nil_r. destruct page; reflexivity.
  - rewrite serializePage_snoc, fold_left_app. cbn [fold_left]. rewrite IH.
    unfold serializeChild.
    destruct (String.eqb (nodeName (snd c)) "background"); [reflexivity|].
    destruct (nodeGeometry (snd c)); cbn [strokes shapes]; try reflexivity.
    + destruct (0 <? length points)%nat; cbn [strokes shapes]; [|reflexivity].
      rewrite app_assoc. reflexivity.
    + rewrite app_assoc. reflexivity.
    + destruct (negb _); cbn [strokes shapes]; [|reflexivity].
      rewrite app_assoc. reflexivity.
Qed.

Lemma serializePage_cons (c : NodeRef * Node) (l : Layer) :
  serializePage (c :: l)
  = mkSerializedPage
      (strokes (serializeChild (mkSerializedPage [] []) (snd c)) ++ strokes (serializePage l))
      (shapes (serializeChild (mkSerializedPage [] []) (snd c)) ++ shapes (serializePage l)).
Proof. unfold serializePage at 1. cbn [fold_left]. apply serializePage_from. Qed.

Lemma save_then_load_parts (l : Layer) :
  Forall savable (map snd l) ->
  map loadStroke (strokes (serializePage l)) = filter isLine (map snd l)
  /\ map loadShape (shapes (serializePage l))
     = filter (fun n => negb (isLine n)) (map snd l).
Proof.
  induction l as [|[r n] l IH]; intros Hall.
  - split; reflexivity.
  - cbn [map snd] in Hall. inversion Hall as [|? ? Hn Hrest]; subst.
    destruct (IH Hrest) as [IHs IHh].
    rewrite serializePage_cons. cbn [strokes shapes snd map filter].
    rewrite !map_app, IHs, IHh.
    destruct Hn as (Hname & Hw & Ho & Hg).
    destruct n as [nm nx ny st sw op g].
    cbn [nodeName nodeGeometry nodeX nodeY nodeStroke nodeStrokeWidth nodeOpacity]
      in Hname, Hw, Ho, Hg.
    subst nm.
    unfold serializeChild, isLine.
    cbn [nodeName nodeGeometry nodeX nodeY nodeStroke nodeStrokeWidth nodeOpacity].
    change (String.eqb "stroke" "background") with false. cbv iota.
    destruct g as [points closed | rad | rx ry | w h | content]; try contradiction.
    + destruct Hg as (Hne & -> & -> & ->).
      destruct points as [|p0 points]; [congruence|].
      cbn [length Nat.ltb Nat.leb strokes shapes map app negb].
      rewrite Hw, Ho. split; reflexivity.
    + cbn [strokes shapes map app negb]. rewrite Hw, Ho. split; reflexivity.
    + change (includes "background" "stroke") with false.
      cbn [strokes shapes map app negb]. rewrite Hw, Ho. split; reflexivity.
Qed.

(** X25.  A page of savable nodes (open lines at the origin, rectangles and
    circles, named 'stroke') comes back from the file as it was, except
    that all lines are put below all other shapes. *)
Theorem save_then_load (l : Layer) :
  Forall savable (map snd l) ->
  loadPage (serializePage l)
  = filter isLine (map snd l) ++ filter (fun n => negb (isLine n)) (map snd l).
Proof.
  intros Hall. unfold loadPage.
  destruct (save_then_load_parts l Hall) as [-> ->]. reflexivity.
Qed.

(** ** What is saved *)

(** X26.  An oval made by holding the pen is written by no serializer: the
    saved page is that of the layer without the stroke. *)
Theorem snapped_oval_is_not_saved (d : DrawingTools) (l : NodeRef) (n : Node) :
  currentLine d = Some l ->
  isInShapeMode (hold d) = false ->
  layer_get l (layer d) = Some n ->
  (6 <= length (nodePoints n))%nat ->
  analyzeStrokeForShape (nodePoints n) = Some Oval ->
  let d' := triggerShapeDetection d in
  serializePage (layer d') = serializePage (layer_destroy l (layer d))
  /\ serializeStrokes d' = serializeStrokes (on_layer (layer_destroy l) d)
  /\ serializeShapes d' = serializeShapes (on_layer (layer_destroy l) d).
Proof.
  intros Hline Hmode Hnode Hlen Hkind.
  destruct (triggerShapeDetection_snaps d l n Oval Hline Hmode Hnode Hlen Hkind)
    as (_ & _ & _ & _ & shape & Hlayer & Hname & _ & _ & _ & Hg).
  cbv zeta. unfold serializeStrokes, serializeShapes. rewrite Hlayer.
  replace (layer (on_layer (layer_destroy l) d)) with (layer_destroy l (layer d))
    by (destruct d; reflexivity).
  rewrite serializePage_snoc, !flat_map_app. cbn [flat_map snd].
  unfold serializeChild, serializeStroke, serializeShape. rewrite Hname.
  destruct (nodeGeometry shape); try contradiction.
  rewrite !app_nil_r. repeat split.
Qed.

Lemma serializePage_has_stroke (l : Layer) (r : NodeRef) (n : Node)
  (points : list R) (closed : bool) :
  In (r, n) l ->
  nodeName n <> "background"%string ->
  nodeGeometry n = GLine points closed ->
  points <> [] ->
  In (mkSerializedStroke
        (if PrimFloat.ltb (opacity_or_1 (nodeOpacity n)) 1
         then HighlighterStroke else PenStroke)
        points (nodeStroke n) (thickness_or_1 (nodeStrokeWidth n))
        (opacity_or_1 (nodeOpacity n)))
     (strokes (serializePage l)).
Proof.
  intros Hin Hname Hg Hne.
  induction l as [|c l IH]; [contradiction|].
  rewrite serializePage_cons. cbn [strokes]. apply in_or_app.
  destruct Hin as [-> | Hin]; [left | right; apply IH; exact Hin].
  cbn [snd]. unfold serializeChild.
  replace (String.eqb (nodeName n) "background") with false
    by (symmetry; apply String.eqb_neq; exact Hname).
  rewrite Hg. destruct points as [|p0 points]; [congruence|].
  cbn [length Nat.ltb Nat.leb strokes app]. left. reflexivity.
Qed.

Lemma layer_get_In (r : NodeRef) (n : Node) (l : Layer) :
  layer_get r l = Some n -> In (r, n) l.
Proof.
  intros H. destruct (layer_get_split r n l H) as [before [after [-> _]]].
  apply in_or_app. right. left. reflexivity.
Qed.

Lemma layer_get_unique (r : NodeRef) (n : Node) (l : Layer) :
  NoDup (map fst l) -> In (r, n) l -> layer_get r l = Some n.
Proof.
  unfold layer_get. induction l as [|[k m] l IH]; intros Hnd Hin; [contradiction|].
  cbn [map fst] in Hnd. inversion Hnd as [|? ? Hk Hnd']; subst.
  cbn [find fst]. destruct Hin as [E | Hin].
  - injection E as -> ->. rewrite Nat.eqb_refl. reflexivity.
  - destruct (k =? r)%nat eqn:E.
    + apply Nat.eqb_eq in E. subst k. exfalso. apply Hk.
      apply in_map_iff. exists (r, n). split; [reflexivity | exact Hin].
    + apply IH; assumption.
Qed.

Lemma layer_get_snoc_fresh (r : NodeRef) (n : Node) (l : Layer) :
  ~ In r (map fst l) -> layer_get r (l ++ [(r, n)]) = Some n.
Proof.
  unfold layer_get. induction l as [|[k m] l IH]; cbn [app find fst map In]; intros Hnot.
  - rewrite Nat.eqb_refl. reflexivity.
  - destruct (k =? r)%nat eqn:E.
    + apply Nat.eqb_eq in E. tauto.
    + apply IH. tauto.
Qed.

Section FinishSelection.

Variables (d : DrawingTools) (lassoNode : NodeRef).
Hypothesis notDragging : isDraggingSelection (lasso d) = false.
Hypothesis drawingLasso : lassoLine (lasso d) = Some lassoNode.
Hypothesis enoughPoints : (6 <= length (lassoPoints (lasso d)))%nat.
Hypothesis distinct : NoDup (map fst (layer d)).
Hypothesis allocated : forall r, In r (map fst (layer d)) -> (r < nextRef (host d))%nat.

Lemma finishSelection_selects :
  selectedShapes (lasso (finishSelection d))
  = map fst (filter (lassoed (closeLasso (lassoPoints (lasso d))))
               (layer_destroy lassoNode (layer d))).
Proof.
  unfold finishSelection. rewrite notDragging, drawingLasso.
  replace (length (lassoPoints (lasso d)) <? 6)%nat with false
    by (symmetry; apply Nat.ltb_ge; exact enoughPoints).
  cbv zeta.
  set (closed := on_lasso _ d).
  set (d1 := on_lasso (set_lassoLine None) (on_layer (layer_destroy lassoNode) closed)).
  assert (Hl1 : layer d1 = layer_destroy lassoNode (layer d)) by reflexivity.
  assert (Hp1 : lassoPoints (lasso d1) = (closeLasso (lassoPoints (lasso d))))
    by (subst d1 closed; unfold closeLasso; destruct d as [? ? ? ? ? ? ? ? ? ? [] ?]; reflexivity).
  rewrite Hp1, Hl1. fold (lassoed (closeLasso (lassoPoints (lasso d)))).
  set (selected := map fst (filter (lassoed (closeLasso (lassoPoints (lasso d))))
                              (layer_destroy lassoNode (layer d)))).
  clearbody selected. clearbody d1.
  destruct selected as [|s0 rest].
  - destruct d1 as [? ? ? ? ? ? ? ? ? ? [] ?]. reflexivity.
  - unfold calculateSelectionCenter, startMarchingAnts, addNode.
    destruct (length _ <? 2)%nat.
    all: cbn [fst snd].
    all: rewrite fold_on_layer.
    all: destruct d1 as [? ? ? ? ? ? ? ? ? ? [] []]; reflexivity.
Qed.

Lemma finishSelection_layer :
  selectedShapes (lasso (finishSelection d)) <> [] ->
  layer (finishSelection d)
  = fold_left
      (fun l s => layer_update s (fun n => set_nodeOpacity (nodeOpacity n * 0.8)%float n) l)
      (selectedShapes (lasso (finishSelection d)))
      (layer_destroy lassoNode (layer d)
       ++ [(nextRef (host d), selectionOutline (closeLasso (lassoPoints (lasso d))))]).
Proof.
  rewrite finishSelection_selects.
  unfold finishSelection. rewrite notDragging, drawingLasso.
  replace (length (lassoPoints (lasso d)) <? 6)%nat with false
    by (symmetry; apply Nat.ltb_ge; exact enoughPoints).
  cbv zeta.
  set (closed := on_lasso _ d).
  set (d1 := on_lasso (set_lassoLine None) (on_layer (layer_destroy lassoNode) closed)).
  assert (Hl1 : layer d1 = layer_destroy lassoNode (layer d)) by reflexivity.
  assert (Hp1 : lassoPoints (lasso d1) = (closeLasso (lassoPoints (lasso d))))
    by (subst d1 closed; unfold closeLasso; destruct d as [? ? ? ? ? ? ? ? ? ? [] ?]; reflexivity).
  assert (Hr1 : nextRef (host d1) = nextRef (host d))
    by (subst d1 closed; destruct d as [? ? ? ? ? ? ? ? ? ? [] ?]; reflexivity).
  rewrite Hp1, Hl1. fold (lassoed (closeLasso (lassoPoints (lasso d)))).
  set (selected := map fst (filter (lassoed (closeLasso (lassoPoints (lasso d))))
                              (layer_destroy lassoNode (layer d)))).
  clearbody selected.
  rewrite <- Hl1, <- Hr1. unfold selectionOutline. rewrite <- Hp1. clearbody d1.
  destruct selected as [|s0 rest]; [congruence|]. intros _.
  unfold calculateSelectionCenter, startMarchingAnts, addNode.
  destruct (length _ <? 2)%nat.
  all: cbn [fst snd].
  all: rewrite fold_on_layer.
  all: destruct d1 as [? ? ? ? ? ? ? ? ? ? [] []]; reflexivity.
Qed.

Lemma selected_is_on_layer (r : NodeRef) :
  In r (selectedShapes (lasso (finishSelection d))) ->
  r <> lassoNode /\ In r (map fst (layer d))
  /\ forall n, layer_get r (layer d) = Some n -> lassoed (closeLasso (lassoPoints (lasso d))) (r, n) = true.
Proof.
  rewrite finishSelection_selects. intros Hin.
  apply in_map_iff in Hin. destruct Hin as [[k m] [E Hin]]. cbn in E. subst k.
  apply filter_In in Hin. destruct Hin as [Hin Hl].
  unfold layer_destroy in Hin. apply filter_In in Hin. destruct Hin as [Hin Hne].
  cbn [fst] in Hne. split; [|split].
  - intros ->. rewrite Nat.eqb_refl in Hne. discriminate.
  - apply in_map_iff. exists (r, m). split; [reflexivity | exact Hin].
  - intros n Hn. rewrite (layer_get_unique r m (layer d) distinct Hin) in Hn.
    injection Hn as <-. exact Hl.
Qed.

Lemma selected_NoDup : NoDup (selectedShapes (lasso (finishSelection d))).
Proof.
  rewrite finishSelection_selects.
  apply NoDup_map_fst_filter. apply NoDup_map_fst_filter. exact distinct.
Qed.

(** X27.  The outline of an active selection is a line on the layer, and
    [serializePage] writes it into the page as a pen stroke. *)
Theorem selection_outline_is_saved_as_a_stroke :
  selectedShapes (lasso (finishSelection d)) <> [] ->
  In (mkSerializedStroke PenStroke (closeLasso (lassoPoints (lasso d))) "#0066ff" 2 1%float)
     (strokes (serializePage (layer (finishSelection d)))).
Proof.
  intros Hsel.
  assert (Hget : layer_get (nextRef (host d)) (layer (finishSelection d))
                 = Some (selectionOutline (closeLasso (lassoPoints (lasso d))))).
  { rewrite finishSelection_layer by exact Hsel.
    rewrite layer_get_fold_notin.
    - apply layer_get_snoc_fresh. intros Hin.
      apply in_layer_destroy in Hin. destruct Hin as [_ Hin].
      apply allocated in Hin. lia.
    - intros Hin. apply selected_is_on_layer in Hin. destruct Hin as (_ & Hin & _).
      apply allocated in Hin. lia. }
  apply layer_get_In in Hget.
  pose proof (serializePage_has_stroke _ _
                (selectionOutline (closeLasso (lassoPoints (lasso d))))
                (closeLasso (lassoPoints (lasso d))) true Hget) as H.
  assert (Ht : thickness_or_1 2 = 2) by (unfold thickness_or_1; rewrite Reqb_false by lra; reflexivity).
  unfold selectionOutline in H.
  cbn [nodeName nodeGeometry nodeOpacity nodeStroke nodeStrokeWidth] in H.
  rewrite Ht in H. apply H.
  - intros E. discriminate.
  - reflexivity.
  - unfold closeLasso. destruct (lassoPoints (lasso d)); [cbn in enoughPoints; lia | discriminate].
Qed.

(** X29.  While it is selected, a pen stroke (opacity 1) is on the layer at
    opacity 0.8, and [serializePage] writes it as a highlighter stroke of
    opacity 0.8. *)
Theorem selected_pen_stroke_is_saved_as_highlighter (r : NodeRef) (n : Node)
  (points : list R) (closed : bool) :
  In r (selectedShapes (lasso (finishSelection d))) ->
  layer_get r (layer d) = Some n ->
  nodeGeometry n = GLine points closed ->
  nodeOpacity n = 1%float ->
  In (mkSerializedStroke HighlighterStroke points (nodeStroke n)
        (thickness_or_1 (nodeStrokeWidth n)) 0.8%float)
     (strokes (serializePage (layer (finishSelection d)))).
Proof.
  intros Hin Hn Hg Ho.
  destruct (selected_is_on_layer r Hin) as (Hne & Hon & Hl).
  specialize (Hl n Hn).
  assert (Hsel : selectedShapes (lasso (finishSelection d)) <> [])
    by (intros E; rewrite E in Hin; contradiction).
  assert (Hget : layer_get r (layer (finishSelection d))
                 = Some (set_nodeOpacity (nodeOpacity n * 0.8)%float n)).
  { rewrite finishSelection_layer by exact Hsel.
    rewrite layer_get_fold_in by (apply selected_NoDup || exact Hin).
    erewrite layer_get_app; [reflexivity|].
    rewrite layer_get_destroy_other by exact Hne. exact Hn. }
  apply layer_get_In in Hget.
  unfold lassoed in Hl. cbn [snd] in Hl. apply andb_true_iff in Hl. destruct Hl as [Hname Hhit].
  assert (Hpts : points <> []).
  { intros ->. unfold shapeIntersectsLasso in Hhit. rewrite Hg in Hhit. discriminate. }
  pose proof (serializePage_has_stroke _ _ _ points closed Hget) as H.
  destruct n as [nm nx ny st sw op g].
  cbn [nodeName nodeGeometry nodeOpacity nodeStroke nodeStrokeWidth set_nodeOpacity] in *.
  subst op g.
  change (opacity_or_1 (1 * 0.8)) with 0.8%float in H.
  change (PrimFloat.ltb 0.8 1) with true in H.
  apply H; [|reflexivity | exact Hpts].
  intros ->. cbn in Hname. discriminate.
Qed.

End FinishSelection.

(** ** The lasso's inside *)

Lemma vertical_crossing (xe a b : R) : (xe - xe) * a / b + xe = xe.
Proof. unfold Rdiv. ring. Qed.

(** X28.  A rectangular lasso contains exactly the points of the box that is
    closed on its low sides and open on its high sides. *)
Theorem rectangular_lasso_selects_the_box (x0 y0 x1 y1 px py : R) :
  x0 < x1 -> y0 < y1 ->
  isPointInLasso (closeLasso [x0; y0; x1; y0; x1; y1; x0; y1]) px py = true
  <-> x0 <= px < x1 /\ y0 <= py < y1.
Proof.
  intros Hx Hy. unfold isPointInLasso, closeLasso.
  cbn [app length Nat.ltb Nat.leb Nat.sub Nat.add nth rayCast]. cbv zeta.
  rewrite !Bool.eqb_reflx. cbn [negb andb].
  rewrite !vertical_crossing.
  unfold Rgtb, Rltb.
  destruct (Rlt_dec py y0), (Rlt_dec py y1), (Rlt_dec px x1), (Rlt_dec px x0);
    cbn; split; intros H; try discriminate; try reflexivity; try lra.
Qed.

Lemma rectangular_lasso_witness :
  isPointInLasso (closeLasso [0; 0; 100; 0; 100; 100; 0; 100]) 50 50 = true
  <-> 0 <= 50 < 100 /\ 0 <= 50 < 100.
Proof.
  apply (rectangular_lasso_selects_the_box 0 0 100 100 50 50); lra.
Defined.

(** ** The properties at given inputs *)

Lemma single_point_stroke_is_never_erased_witness :
  lineIntersectsEraser dot (mkPoint 50 50) 10 = false.
Proof.
  apply (single_point_stroke_is_never_erased dot (mkPoint 50 50) 10).
  cbn. lia.
Defined.

Lemma eraser_reaching_a_vertex_hits_witness :
  lineIntersectsEraser scenarioStroke (mkPoint 100 60) 10 = true.
Proof.
  apply (eraser_reaching_a_vertex_hits scenarioStroke (mkPoint 100 60) 10
           [0; 50] 100 50 []).
  - reflexivity.
  - reflexivity.
  - reflexivity.
  - cbn. lia.
  - cbn [x y scenarioStroke nodeStrokeWidth]. unfold dist2.
    rewrite (sqrt_eval _ 10) by lra. lra.
Defined.

Lemma arch_width : strokeWidthOf arch = 20.
Proof.
  unfold strokeWidthOf, arch; cbn [xs_of list_max list_min fold_left].
  rewrite (Rmax_right 0 10), (Rmin_left 0 10), (Rmax_right 10 20), (Rmin_left 0 20) by lra.
  lra.
Qed.

Lemma arch_height : strokeHeightOf arch = 10.
Proof.
  unfold strokeHeightOf, arch; cbn [ys_of list_max list_min fold_left].
  rewrite (Rmax_right 0 10), (Rmin_left 0 10), (Rmax_left 10 0), (Rmin_left 0 0) by lra.
  lra.
Qed.

Lemma short_stroke_is_never_angular_witness :
  analyzeStrokeForShape arch = Some Line
  \/ analyzeStrokeForShape arch = Some Circle
  \/ analyzeStrokeForShape arch = Some Oval.
Proof.
  apply (short_stroke_is_never_angular arch).
  cbn. lia.
Defined.

Lemma arch_is_oval : analyzeStrokeForShape arch = Some Oval.
Proof.
  unfold analyzeStrokeForShape. rewrite arch_width, arch_height.
  cbn [length Nat.ltb Nat.leb arch].
  rewrite (Rgtb_false 20 (10 * 3.5)), (Rgtb_false 10 (20 * 3.5)) by lra.
  cbn [orb].
  rewrite no_corners_below_18 by (cbn; lia).
  cbn [length Nat.eqb Nat.leb andb].
  rewrite (Rmin_right 20 10), (Rmax_left 20 10) by lra.
  rewrite Reqb_false by lra. rewrite Rltb_false by lra. reflexivity.
Qed.

Lemma hold_always_snaps_witness :
  let d' := triggerShapeDetection (drawing arch) in
  exists kind shape,
    analyzeStrokeForShape arch = Some kind
    /\ isInShapeMode (hold d') = true
    /\ detectedShapeType (hold d') = Some kind
    /\ currentLine d' = None
    /\ currentShape d' = Some 2%nat
    /\ layer d' = [(2%nat, shape)]
    /\ nodeName shape = "stroke"%string
    /\ nodeStroke shape = "#000000"%string
    /\ nodeStrokeWidth shape = 2
    /\ nodeOpacity shape = 1%float
    /\ drawnAs kind (nodeGeometry shape).
Proof.
  apply (hold_always_snaps (drawing arch) 1%nat
           (mkNode "stroke" 0 0 "#000000" 2 1%float (GLine arch false))).
  - reflexivity.
  - reflexivity.
  - reflexivity.
  - cbn. lia.
Defined.

Lemma elbow_corner : findSignificantCorners elbow 4 4 = [mkPoint 0 0].
Proof.
  unfold findSignificantCorners, elbow.
  cbn [length Nat.ltb Nat.leb Nat.div Nat.divmod fst Nat.max Nat.mul Nat.add
       candidates_from Nat.sub Nat.min nth].
  assert (A : getAngle (mkPoint 4 0) (mkPoint 0 0) (mkPoint 0 4) = 90).
  { pose proof PI_RGT_0.
    unfold getAngle; cbn [x y].
    rewrite atan2_pos_x by lra.
    replace (4 - 0) with 4 by lra. replace (0 - 0) with 0 by lra.
    rewrite atan2_zero_x_pos_y by lra.
    replace (0 / 4) with 0 by lra. rewrite atan_0.
    replace (0 - PI / 2) with (- (PI / 2)) by lra.
    rewrite Rabs_Ropp, Rabs_right by lra. field; lra. }
  rewrite A.
  rewrite Rltb_true by lra. rewrite Rgtb_true by lra.
  cbn. reflexivity.
Qed.

Lemma corners_are_sharp_vertices_witness :
  exists i, sharpAt elbow i /\ mkPoint 0 0 = vertex elbow i.
Proof.
  apply (corners_are_sharp_vertices elbow 4 4 (mkPoint 0 0)).
  rewrite elbow_corner. left. reflexivity.
Defined.

Lemma resized_rectangle_witness :
  exists node' w' h',
    layer_get 1%nat (layer (resizeShape (mkPoint 52 51) rectangleInShapeMode)) = Some node'
    /\ nodeGeometry node' = GRect w' h'
    /\ 0 <= w' /\ 0 <= h'
    /\ nodeX node' + w' / 2 = 50
    /\ nodeY node' + h' / 2 = 50
    /\ (52 = nodeX node' \/ 52 = nodeX node' + w')
    /\ (51 = nodeY node' \/ 51 = nodeY node' + h').
Proof.
  apply (resized_rectangle_is_centred_on_anchor rectangleInShapeMode 1%nat (mkPoint 50 50)
           (mkNode "stroke" 0 0 "#000000" 2 1%float (GRect 100 100)) 100 100).
  - reflexivity.
  - reflexivity.
  - reflexivity.
  - reflexivity.
  - reflexivity.
Defined.

Lemma eraser_marks_witness :
  let d := newDrawingTools [(1%nat, scenarioStroke)] defaultSettings in
  let hit := String.eqb (nodeName scenarioStroke) "stroke"
             && intersectsEraser scenarioStroke (mkPoint 50 50) (eraserRadiusOf d) in
  layer_get 1%nat (layer (checkEraserIntersections (mkPoint 50 50) d))
  = Some (if hit then greyedOut scenarioStroke else scenarioStroke)
  /\ marked 1%nat (checkEraserIntersections (mkPoint 50 50) d) = hit.
Proof.
  apply (eraser_marks_exactly_the_hit_strokes (mkPoint 50 50)
           (newDrawingTools [(1%nat, scenarioStroke)] defaultSettings) 1%nat scenarioStroke).
  - reflexivity.
  - reflexivity.
Defined.

Lemma eraser_tap_witness :
  let d := setTool Eraser (newDrawingTools [(1%nat, scenarioStroke)] defaultSettings) in
  layer_get 1%nat
    (layer (handlePointerUp (pointerAt 50 50) (handlePointerDown (pointerAt 50 50) 0%nat d)))
  = if String.eqb (nodeName scenarioStroke) "stroke"
       && intersectsEraser scenarioStroke (mkPoint (50 / 1) (50 / 1)) (eraserRadiusOf d)
    then None else Some scenarioStroke.
Proof.
  apply (eraser_tap_removes_exactly_the_hit_strokes (pointerAt 50 50) 0%nat
           (mkPoint (50 / 1) (50 / 1))
           (setTool Eraser (newDrawingTools [(1%nat, scenarioStroke)] defaultSettings))
           1%nat scenarioStroke).
  - reflexivity.
  - reflexivity.
  - reflexivity.
  - cbn. lia.
Defined.

Lemma stroke_records_every_sample_witness :
  let d' := run (newDrawingTools [] defaultSettings)
              (PointerDown (sample 1 (mkPoint 0 10)) 0%nat
               :: moves 1 [(mkPoint 50 5, 10%nat); (mkPoint 100 0, 20%nat)]) in
  let style := pen defaultSettings in
  currentLine d' = Some 1%nat
  /\ layer_get 1%nat (layer d')
     = Some (mkNode "stroke" 0 0 (color style) (thickness style) (opacity style)
               (GLine (flatten 1 [mkPoint 0 10; mkPoint 50 5; mkPoint 100 0]) false)).
Proof.
  apply (stroke_records_every_sample 1 (mkPoint 0 10) 0%nat
           [(mkPoint 50 5, 10%nat); (mkPoint 100 0, 20%nat)]
           (newDrawingTools [] defaultSettings)).
  - left. reflexivity.
  - reflexivity.
  - intros [].
Defined.

Lemma drag_keeps_the_pointer_inside_witness :
  isPointInLasso (lassoPoints (lasso (continueSelection (mkPoint 70 80) draggingSelection)))
    70 80
  = isPointInLasso squareLasso 50 50.
Proof.
  apply (drag_keeps_the_pointer_inside draggingSelection (mkPoint 50 50) 3%nat
           (selectionOutline squareLasso)).
  - reflexivity.
  - reflexivity.
  - reflexivity.
  - reflexivity.
  - cbn. intros [H | []]. discriminate.
  - reflexivity.
  - reflexivity.
Defined.

Lemma drag_leaves_the_points_witness :
  exists n',
    layer_get 1%nat (layer (continueSelection (mkPoint 70 80) draggingSelection)) = Some n'
    /\ nodeX n' = 0 + (70 - 50)
    /\ nodeY n' = 0 + (80 - 50)
    /\ nodePoints n' = [50; 50; 60; 60]
    /\ (forall page,
          serializeChild page n' = serializeChild page (set_nodeOpacity 0.8%float penStroke))
    /\ (forall eraserPos radius,
          lineIntersectsEraser n' eraserPos radius
          = lineIntersectsEraser (set_nodeOpacity 0.8%float penStroke) eraserPos radius).
Proof.
  apply (drag_leaves_the_points_of_a_stroke draggingSelection (mkPoint 50 50) 3%nat
           (selectionOutline squareLasso))
    with (pos := mkPoint 70 80) (r := 1%nat) (n := set_nodeOpacity 0.8%float penStroke)
         (points := [50; 50; 60; 60]) (closed := false).
  - reflexivity.
  - reflexivity.
  - reflexivity.
  - reflexivity.
  - cbn. intros [H | []]. discriminate.
  - repeat constructor. intros [].
  - left. reflexivity.
  - reflexivity.
  - reflexivity.
Defined.

Lemma scaleSelection_composes_witness :
  layer (scaleSelection 1.05 (scaleSelection 0.95 draggingSelection))
  = layer (scaleSelection (0.95 * 1.05) draggingSelection)
  /\ lasso (scaleSelection 1.05 (scaleSelection 0.95 draggingSelection))
     = lasso (scaleSelection (0.95 * 1.05) draggingSelection).
Proof.
  apply (scaleSelection_composes 0.95 1.05 draggingSelection).
  - repeat constructor. intros [].
  - intros p E. injection E as <-. cbn. intros [H | []]. discriminate.
Defined.

Lemma save_then_load_witness :
  loadPage (serializePage [(1%nat, penStroke); (2%nat, ring)])
  = filter isLine [penStroke; ring] ++ filter (fun n => negb (isLine n)) [penStroke; ring].
Proof.
  apply (save_then_load [(1%nat, penStroke); (2%nat, ring)]).
  assert (Ht : thickness_or_1 2 = 2)
    by (unfold thickness_or_1; rewrite Reqb_false by lra; reflexivity).
  repeat constructor; try exact Ht; try discriminate.
Defined.

Lemma snapped_oval_is_not_saved_witness :
  let d' := triggerShapeDetection (drawing arch) in
  serializePage (layer d') = serializePage (layer_destroy 1%nat (layer (drawing arch)))
  /\ serializeStrokes d' = serializeStrokes (on_layer (layer_destroy 1%nat) (drawing arch))
  /\ serializeShapes d' = serializeShapes (on_layer (layer_destroy 1%nat) (drawing arch)).
Proof.
  apply (snapped_oval_is_not_saved (drawing arch) 1%nat
           (mkNode "stroke" 0 0 "#000000" 2 1%float (GLine arch false))).
  - reflexivity.
  - reflexivity.
  - reflexivity.
  - cbn. lia.
  - exact arch_is_oval.
Defined.

Lemma lassoBeingDrawn_selects :
  selectedShapes (lasso (finishSelection lassoBeingDrawn)) = [1%nat].
Proof.
  unfold finishSelection, lassoBeingDrawn. crunch. lasso_tests. crunch. reflexivity.
Qed.

Lemma lassoBeingDrawn_allocated (r : NodeRef) :
  In r (map fst (layer lassoBeingDrawn)) -> (r < nextRef (host lassoBeingDrawn))%nat.
Proof. cbn. intros [<- | [<- | []]]; lia. Qed.

Lemma lassoBeingDrawn_distinct : NoDup (map fst (layer lassoBeingDrawn)).
Proof.
  cbn. constructor; [|constructor; [|constructor]].
  - intros [H | []]. discriminate.
  - intros [].
Qed.

Lemma selection_outline_is_saved_witness :
  In (mkSerializedStroke PenStroke squareLasso "#0066ff" 2 1%float)
     (strokes (serializePage (layer (finishSelection lassoBeingDrawn)))).
Proof.
  apply (selection_outline_is_saved_as_a_stroke lassoBeingDrawn 2%nat).
  - reflexivity.
  - reflexivity.
  - cbn. lia.
  - exact lassoBeingDrawn_distinct.
  - exact lassoBeingDrawn_allocated.
  - rewrite lassoBeingDrawn_selects. discriminate.
Defined.

Lemma selected_pen_stroke_witness :
  In (mkSerializedStroke HighlighterStroke [50; 50; 60; 60] "#000000" (thickness_or_1 2)
        0.8%float)
     (strokes (serializePage (layer (finishSelection lassoBeingDrawn)))).
Proof.
  apply (selected_pen_stroke_is_saved_as_highlighter lassoBeingDrawn 2%nat)
    with (r := 1%nat) (n := penStroke) (closed := false).
  - reflexivity.
  - reflexivity.
  - cbn. lia.
  - exact lassoBeingDrawn_distinct.
  - exact lassoBeingDrawn_allocated.
  - rewrite lassoBeingDrawn_selects. left. reflexivity.
  - reflexivity.
  - reflexivity.
  - reflexivity.
Defined.

Lemma select_then_clear_opacity_witness :
  layer_get 1%nat (layer (clearSelection (finishSelection lassoBeingDrawn)))
  = Some (set_nodeOpacity (nodeOpacity penStroke * 0.8 / 0.8)%float penStroke).
Proof.
  apply (select_then_clear_opacity lassoBeingDrawn 2%nat).
  - reflexivity.
  - reflexivity.
  - cbn. lia.
  - exact lassoBeingDrawn_distinct.
  - exact lassoBeingDrawn_allocated.
  - reflexivity.
  - rewrite lassoBeingDrawn_selects. left. reflexivity.
Defined.

Lemma slanted_is_line : analyzeStrokeForShape [0; 10; 50; 5; 100; 0] = Some Line.
Proof.
  apply analyze_line; [cbn; lia|].
  left. unfold strokeWidthOf, strokeHeightOf.
  cbn [xs_of ys_of list_max list_min fold_left].
  rewrite (Rmax_right 0 50), (Rmin_left 0 50), (Rmax_right 50 100), (Rmin_left 0 100),
          (Rmax_left 10 5), (Rmin_right 10 5), (Rmax_left 10 0), (Rmin_right 5 0) by lra.
  lra.
Qed.

Lemma triggerShapeDetection_anchor_witness :
  let xs := xs_of [0; 10; 50; 5; 100; 0] in
  let ys := ys_of [0; 10; 50; 5; 100; 0] in
  shapeAnchor (hold (triggerShapeDetection (drawing [0; 10; 50; 5; 100; 0])))
  = Some (mkPoint (list_min xs) (list_min ys)).
Proof.
  apply (triggerShapeDetection_anchor (drawing [0; 10; 50; 5; 100; 0]) 1%nat
           (mkNode "stroke" 0 0 "#000000" 2 1%float (GLine [0; 10; 50; 5; 100; 0] false))
           Line).
  - reflexivity.
  - reflexivity.
  - reflexivity.
  - cbn. lia.
  - exact slanted_is_line.
Defined.


Lemma activeSelection_grabbed : isPointInSelection 50 50 activeSelection = true.
Proof.
  unfold isPointInSelection, hasActiveSelection, activeSelection.
  cbn [lasso on_lasso set_lasso selectedShapes lassoPath lassoPoints set_dragStartPos
       set_isDraggingSelection set_lassoPath set_selectedShapes set_lassoPoints
       set_isDrawing set_currentTool newDrawingTools andb].
  apply in_square_50_50.
Qed.

Lemma press_grabs_witness :
  isPointInSelection 50 50 activeSelection = true
  /\ isDraggingSelection (lasso (startSelection (mkPoint 50 50) activeSelection))
     = isPointInSelection 50 50 activeSelection
  /\ (isPointInSelection 50 50 activeSelection = true ->
      layer (startSelection (mkPoint 50 50) activeSelection) = layer activeSelection
      /\ selectedShapes (lasso (startSelection (mkPoint 50 50) activeSelection))
         = selectedShapes (lasso activeSelection)
      /\ dragStartPos (lasso (startSelection (mkPoint 50 50) activeSelection))
         = Some (mkPoint 50 50))
  /\ (isPointInSelection 50 50 activeSelection = false ->
      lassoLine (lasso (startSelection (mkPoint 50 50) activeSelection)) = Some 4%nat
      /\ lassoPoints (lasso (startSelection (mkPoint 50 50) activeSelection)) = [50; 50]).
Proof.
  split; [exact activeSelection_grabbed|].
  apply (press_grabs_exactly_inside_the_selection (mkPoint 50 50) activeSelection).
  reflexivity.
Defined.
